(** * marlinflow trainer: feature transformers and training loop

    A shallow embedding of [trainer/model.py] and [trainer/main.py].
    Tensor entries are real numbers: floating-point rounding is idealised
    away, so [==] on tensors is equality in [R].  Python integers and tensor
    indices are [Z]. *)

From Stdlib Require Import String.
From Stdlib Require Import Reals Lra Lia ZArith Bool List.
Import ListNotations.
Open Scope R_scope.

(** ** Tensors *)

Definition Vector := list R.
Definition Matrix := list (list R).

Fixpoint Rsum (l : list R) : R :=
  match l with
  | [] => 0
  | x :: l' => x + Rsum l'
  end.

(** Inner product of an input row with one row of a [Linear] weight.  The
    two have the same length wherever the layer has the shape its
    constructor gives it; torch refuses operands of different lengths. *)
Fixpoint dot (x w : list R) : R :=
  match x, w with
  | a :: x', b :: w' => a * b + dot x' w'
  | _, _ => 0
  end.

(** [torch.clamp(x, lo, hi)] elementwise: [min(max(x, lo), hi)]. *)
Definition clamp (lo hi x : R) : R := Rmin (Rmax x lo) hi.

(** [torch.sigmoid] over the reals, where it lies strictly between 0 and 1
    and increases strictly.  On floats it saturates, returning exactly 1 and
    0 for large arguments, so of these facts the program keeps the closed
    bounds and the monotonicity, not their strictness. *)
Definition sigmoid (x : R) : R := / (1 + exp (- x)).

(** [torch.cat((a, b), dim=1)] on two matrices with the same number of rows. *)
Fixpoint cat_dim1 (a b : Matrix) : Matrix :=
  match a, b with
  | ra :: a', rb :: b' => (ra ++ rb) :: cat_dim1 a' b'
  | _, _ => []
  end.

(** Elementwise sum of two matrices of the same shape. *)
Fixpoint vadd (a b : Vector) : Vector :=
  match a, b with
  | x :: a', y :: b' => (x + y) :: vadd a' b'
  | _, _ => []
  end.

Fixpoint madd (a b : Matrix) : Matrix :=
  match a, b with
  | ra :: a', rb :: b' => vadd ra rb :: madd a' b'
  | _, _ => []
  end.

Definition mmap (f : R -> R) (m : Matrix) : Matrix := map (map f) m.

(** ** torch.nn.Linear *)

Record Linear := mkLinear { weight : Matrix; bias : Vector }.

(** The shape [torch.nn.Linear(in_features, out_features)] gives its
    parameters: [weight] is [out_features x in_features], [bias] has
    [out_features] entries. *)
Definition Linear_shape (in_features out_features : nat) (l : Linear) : Prop :=
  length (weight l) = out_features /\
  Forall (fun row => length row = in_features) (weight l) /\
  length (bias l) = out_features.

Fixpoint linear_row (w : Matrix) (b : Vector) (x : list R) : list R :=
  match w, b with
  | wj :: w', bj :: b' => (dot x wj + bj) :: linear_row w' b' x
  | _, _ => []
  end.

(** [F.linear(x, weight, bias)]: every input row times the transposed weight,
    plus the bias. *)
Definition linear (l : Linear) (x : Matrix) : Matrix :=
  map (linear_row (weight l) (bias l)) x.

(** ** Batches and sparse tensors *)

(** Modelled from the spec: [dataloader.Batch] is declared outside the
    sources at hand; its fields are the ones [model.py] and [main.py] read.
    [cp] and [wdl] are the [(size, 1)] label columns, one entry per example. *)
Module Batch.
Record t := mk {
  size : nat;
  stm_indices : list Z;
  nstm_indices : list Z;
  values : list R;
  cp : list R;
  wdl : list R
}.
End Batch.

(** Modelled from the spec: [dataloader.InputFeatureSet] is declared outside
    the sources at hand; these are the variants [model.py] names. *)
Inductive InputFeatureSet :=
| BOARD_768 | HALF_KP | HALF_KA | BOARD_768_CUDA | HALF_KP_CUDA | HALF_KA_CUDA.

(** [t.reshape(-1, 2).T] on a flat index buffer: the first row holds the
    example indices, the second the feature indices.  A buffer of odd length
    cannot be reshaped. *)
Fixpoint reshape2_T (l : list Z) : option (list Z * list Z) :=
  match l with
  | [] => Some ([], [])
  | r :: c :: rest =>
      match reshape2_T rest with
      | Some (rs, cs) => Some (r :: rs, c :: cs)
      | None => None
      end
  | _ => None
  end.

Record SparseTensor := mkSparse {
  sp_rows : list Z;
  sp_cols : list Z;
  sp_values : list R;
  sp_shape : nat * nat
}.

Definition index_ok (n : nat) (i : Z) : bool :=
  ((0 <=? i) && (i <? Z.of_nat n))%Z.

(** [torch.sparse_coo_tensor(indices, values, size)]: rejects an index
    outside [size] and an index list whose length differs from [values]. *)
Definition sparse_coo_tensor (indices : list Z * list Z) (vals : list R)
    (shape : nat * nat) : option SparseTensor :=
  let '(rs, cs) := indices in
  if (length rs =? length vals)%nat && (length cs =? length vals)%nat
     && forallb (index_ok (fst shape)) rs && forallb (index_ok (snd shape)) cs
  then Some (mkSparse rs cs vals shape)
  else None.

(** Entry [(r, c)] of the dense form: repeated coordinates add up. *)
Fixpoint coo_entry (rs cs : list Z) (vs : list R) (r c : nat) : R :=
  match rs, cs, vs with
  | rk :: rs', ck :: cs', vk :: vs' =>
      (if ((rk =? Z.of_nat r) && (ck =? Z.of_nat c))%Z then vk else 0)
      + coo_entry rs' cs' vs' r c
  | _, _, _ => 0
  end.

Definition to_dense (s : SparseTensor) : Matrix :=
  map (fun r => map (fun c => coo_entry (sp_rows s) (sp_cols s) (sp_values s) r c)
                    (seq 0 (snd (sp_shape s))))
      (seq 0 (fst (sp_shape s))).

(** A perspective's input for the Board768 networks:
    [torch.sparse_coo_tensor(idx.reshape(-1, 2).T, values, (size, 768)).to_dense()],
    followed by the shared [perspective] layer. *)
Definition perspective_pov (perspective : Linear) (idx : list Z) (batch : Batch.t)
    : option Matrix :=
  match reshape2_T idx with
  | Some indices =>
      match sparse_coo_tensor indices (Batch.values batch) (Batch.size batch, 768%nat) with
      | Some board => Some (linear perspective (to_dense board))
      | None => None
      end
  | None => None
  end.

(** ** Board768 networks *)

Module PerspectiveNet.
Record t := mk { perspective : Linear; out : Linear }.

Definition forward (net : t) (batch : Batch.t) : option Matrix :=
  match perspective_pov (perspective net) (Batch.stm_indices batch) batch,
        perspective_pov (perspective net) (Batch.nstm_indices batch) batch with
  | Some stm_pov, Some nstm_pov =>
      let hidden := mmap (clamp 0 1) (cat_dim1 stm_pov nstm_pov) in
      Some (mmap sigmoid (linear (out net) hidden))
  | _, _ => None
  end.

Definition input_feature_set (net : t) : InputFeatureSet := BOARD_768.
End PerspectiveNet.

Module SquaredPerspectiveNet.
Record t := mk { perspective : Linear; out : Linear }.

Definition forward (net : t) (batch : Batch.t) : option Matrix :=
  match perspective_pov (perspective net) (Batch.stm_indices batch) batch,
        perspective_pov (perspective net) (Batch.nstm_indices batch) batch with
  | Some stm_pov, Some nstm_pov =>
      let x := mmap (clamp 0 1) (cat_dim1 stm_pov nstm_pov) in
      let hidden := mmap (fun a => a * a) x in
      Some (mmap sigmoid (linear (out net) hidden))
  | _, _ => None
  end.

Definition input_feature_set (net : t) : InputFeatureSet := BOARD_768.
End SquaredPerspectiveNet.

Module DeepPerspectiveNet.
Record t := mk { perspective : Linear; l2 : Linear; out : Linear }.

Definition forward (net : t) (batch : Batch.t) : option Matrix :=
  match perspective_pov (perspective net) (Batch.stm_indices batch) batch,
        perspective_pov (perspective net) (Batch.nstm_indices batch) batch with
  | Some stm_pov, Some nstm_pov =>
      let x := mmap (clamp 0 1) (cat_dim1 stm_pov nstm_pov) in
      let x := mmap (fun a => a * a) x in
      let x := mmap (clamp 0 1) (linear (l2 net) x) in
      Some (mmap sigmoid (linear (out net) x))
  | _, _ => None
  end.

Definition input_feature_set (net : t) : InputFeatureSet := BOARD_768.
End DeepPerspectiveNet.

(** ** King-bucketed networks with a factoriser *)

(** The index row fed to the factoriser: [v_indices[1][:] %= base]. *)
Definition factoriser_indices (base : Z) (indices : list Z * list Z) : list Z * list Z :=
  (fst indices, map (fun f => (f mod base)%Z) (snd indices)).

(** One perspective of [HalfKPNet.forward] and [HalfKANet.forward], which
    differ only in the two dimensions:
    [ft(sparse(indices)) + fft(sparse(v_indices).to_dense())]. *)
Definition factorised_ft (dim base : nat) (ft fft : Linear) (idx : list Z)
    (batch : Batch.t) : option Matrix :=
  match reshape2_T idx with
  | Some indices =>
      match sparse_coo_tensor indices (Batch.values batch) (Batch.size batch, dim) with
      | Some board =>
          match sparse_coo_tensor (factoriser_indices (Z.of_nat base) indices)
                  (Batch.values batch) (Batch.size batch, base) with
          | Some v_board =>
              Some (madd (linear ft (to_dense board)) (linear fft (to_dense v_board)))
          | None => None
          end
      | None => None
      end
  | None => None
  end.

(** The part of both forwards after the feature transformers. *)
Definition clipped_head (out : Linear) (stm_ft nstm_ft : Matrix) : Matrix :=
  let hidden := mmap (clamp 0 1) (cat_dim1 stm_ft nstm_ft) in
  mmap sigmoid (linear out hidden).

Module HalfKPNet.
Record t := mk { ft : Linear; fft : Linear; out : Linear }.

Definition forward (net : t) (batch : Batch.t) : option Matrix :=
  match factorised_ft 40960 640 (ft net) (fft net) (Batch.stm_indices batch) batch,
        factorised_ft 40960 640 (ft net) (fft net) (Batch.nstm_indices batch) batch with
  | Some stm_ft, Some nstm_ft => Some (clipped_head (out net) stm_ft nstm_ft)
  | _, _ => None
  end.

Definition input_feature_set (net : t) : InputFeatureSet := HALF_KP.
End HalfKPNet.

Module HalfKANet.
Record t := mk { ft : Linear; fft : Linear; out : Linear }.

Definition forward (net : t) (batch : Batch.t) : option Matrix :=
  match factorised_ft 49152 768 (ft net) (fft net) (Batch.stm_indices batch) batch,
        factorised_ft 49152 768 (ft net) (fft net) (Batch.nstm_indices batch) batch with
  | Some stm_ft, Some nstm_ft => Some (clipped_head (out net) stm_ft nstm_ft)
  | _, _ => None
  end.

Definition input_feature_set (net : t) : InputFeatureSet := HALF_KA.
End HalfKANet.

(** ** The feature transformer as the specification words it *)

(** Row [f] of the [(input_dim x output_dim)] table is column [f] of the
    [torch.nn.Linear] weight, which is stored [output_dim x input_dim]. *)
Definition weight_row (l : Linear) (f : Z) (j : nat) : R :=
  nth (Z.to_nat f) (nth j (weight l) []) 0.

(** Sum, over the features active in example [i], of the table entry of the
    feature times the feature's value. *)
Fixpoint gather_sum (table : Z -> R) (rs cs : list Z) (vs : list R) (i : nat) : R :=
  match rs, cs, vs with
  | e :: rs', f :: cs', v :: vs' =>
      (if (e =? Z.of_nat i)%Z then table f * v else 0) + gather_sum table rs' cs' vs' i
  | _, _, _ => 0
  end.

(** The [(n, output_dim)] matrix of gathered rows, with [offset] added once
    to every row. *)
Definition gathered (table : Z -> nat -> R) (offset : nat -> R)
    (indices : list Z * list Z) (vs : list R) (n output_dim : nat) : Matrix :=
  map (fun i =>
         map (fun j => gather_sum (fun f => table f j) (fst indices) (snd indices) vs i
                       + offset j)
             (seq 0 output_dim))
      (seq 0 n).

(** Modelled from the spec: folding is not part of the sources at hand.
    Every main-table row [bucket * base + b] gets factoriser row [b] added;
    in the [torch.nn.Linear] layout that is column [c] of [ft.weight] plus
    column [c mod base] of [fft.weight].  The main bias is kept. *)
Definition fold_factoriser (base : nat) (ft fft : Linear) : Linear :=
  mkLinear
    (map (fun j =>
            map (fun c => weight_row ft (Z.of_nat c) j
                          + weight_row fft (Z.of_nat c mod Z.of_nat base) j)
                (seq 0 (length (nth j (weight ft) []))))
         (seq 0 (length (weight ft))))
    (bias ft).

(** The fold that also adds the factoriser's bias to the main bias. *)
Definition fold_factoriser_with_bias (base : nat) (ft fft : Linear) : Linear :=
  mkLinear (weight (fold_factoriser base ft fft)) (vadd (bias ft) (bias fft)).

(** Modelled from the spec: a bucketed network evaluated with the factoriser
    removed, one table only. *)
Definition single_table_ft (dim : nat) (ft : Linear) (idx : list Z) (batch : Batch.t)
    : option Matrix :=
  match reshape2_T idx with
  | Some indices =>
      match sparse_coo_tensor indices (Batch.values batch) (Batch.size batch, dim) with
      | Some board => Some (linear ft (to_dense board))
      | None => None
      end
  | None => None
  end.

Definition forward_without_factoriser (dim : nat) (ft out : Linear) (batch : Batch.t)
    : option Matrix :=
  match single_table_ft dim ft (Batch.stm_indices batch) batch,
        single_table_ft dim ft (Batch.nstm_indices batch) batch with
  | Some stm_ft, Some nstm_ft => Some (clipped_head out stm_ft nstm_ft)
  | _, _ => None
  end.

(** ** Modules and the weight clipper ([main.py]) *)

Inductive Tensor :=
| T1 (v : Vector)
| T2 (m : Matrix).

Definition tensor_clamp (lo hi : R) (x : Tensor) : Tensor :=
  match x with
  | T1 v => T1 (map (clamp lo hi) v)
  | T2 m => T2 (mmap (clamp lo hi) m)
  end.

Definition tensor_entries (x : Tensor) : list R :=
  match x with
  | T1 v => v
  | T2 m => concat m
  end.

(** A [torch.nn.Module]: its own tensor attributes by name, and its named
    child modules. *)
Inductive Module :=
| mkModule (attrs : list (string * Tensor)) (children : list (string * Module)).

Definition attrs (m : Module) : list (string * Tensor) :=
  match m with mkModule a _ => a end.

Definition children (m : Module) : list (string * Module) :=
  match m with mkModule _ c => c end.

Fixpoint getattr (a : list (string * Tensor)) (name : string) : option Tensor :=
  match a with
  | [] => None
  | (k, x) :: a' => if String.eqb k name then Some x else getattr a' name
  end.

Fixpoint setattr (a : list (string * Tensor)) (name : string) (x : Tensor)
    : list (string * Tensor) :=
  match a with
  | [] => [(name, x)]
  | (k, y) :: a' =>
      if String.eqb k name then (k, x) :: a' else (k, y) :: setattr a' name x
  end.

(** [Module.apply(fn)]: [fn] runs on every child's subtree first, then on
    the module itself. *)
Fixpoint apply (fn : Module -> Module) (m : Module) : Module :=
  match m with
  | mkModule a cs => fn (mkModule a (map (fun nc => (fst nc, apply fn (snd nc))) cs))
  end.

Module WeightClipper.
Record t := mk { frequency : Z }.

Definition init : t := mk 1.

Definition call (self : t) (module : Module) : Module :=
  match getattr (attrs module) "weight" with
  | Some w =>
      let w := tensor_clamp (-1.98) 1.98 w in
      mkModule (setattr (attrs module) "weight" w) (children module)
  | None => module
  end.
End WeightClipper.

(** The module view of a [torch.nn.Linear] and of the network [main] builds. *)
Definition Linear_module (l : Linear) : Module :=
  mkModule [("weight"%string, T2 (weight l)); ("bias"%string, T1 (bias l))] [].

Definition Linear_of_module (m : Module) : option Linear :=
  match getattr (attrs m) "weight", getattr (attrs m) "bias" with
  | Some (T2 w), Some (T1 b) => Some (mkLinear w b)
  | _, _ => None
  end.

Fixpoint get_child (cs : list (string * Module)) (name : string) : option Module :=
  match cs with
  | [] => None
  | (k, c) :: cs' => if String.eqb k name then Some c else get_child cs' name
  end.

Definition SquaredPerspectiveNet_module (net : SquaredPerspectiveNet.t) : Module :=
  mkModule [] [("perspective"%string, Linear_module (SquaredPerspectiveNet.perspective net));
               ("out"%string, Linear_module (SquaredPerspectiveNet.out net))].

Definition SquaredPerspectiveNet_of_module (m : Module) : option SquaredPerspectiveNet.t :=
  match get_child (children m) "perspective", get_child (children m) "out" with
  | Some p, Some o =>
      match Linear_of_module p, Linear_of_module o with
      | Some p, Some o => Some (SquaredPerspectiveNet.mk p o)
      | _, _ => None
      end
  | _, _ => None
  end.

(** [model(batch)] for the module [main] trains; the [(size, 1)] prediction
    is read as one column. *)
Definition SquaredPerspectiveNet_call (m : Module) (batch : Batch.t) : option Vector :=
  match SquaredPerspectiveNet_of_module m with
  | Some net =>
      match SquaredPerspectiveNet.forward net batch with
      | Some prediction => Some (concat prediction)
      | None => None
      end
  | None => None
  end.

(** All tensors named [name] in a module tree, children first. *)
Fixpoint named_tensors (name : string) (m : Module) : list Tensor :=
  match m with
  | mkModule a cs =>
      concat (map (fun nc => named_tensors name (snd nc)) cs)
      ++ match getattr a name with Some x => [x] | None => [] end
  end.

(** Every attribute of a module tree that is not called [name], with the
    chain of child names that leads to its module. *)
Fixpoint other_tensors (name : string) (path : list string) (m : Module)
    : list (list string * string * Tensor) :=
  match m with
  | mkModule a cs =>
      concat (map (fun nc => other_tensors name (path ++ [fst nc]) (snd nc)) cs)
      ++ map (fun kx => (path, fst kx, snd kx))
             (filter (fun kx => negb (String.eqb (fst kx) name)) a)
  end.

Definition in_range (lo hi : R) (x : Tensor) : Prop :=
  Forall (fun e => lo <= e <= hi) (tensor_entries x).

(** ** Learning-rate schedulers *)

(** The two [torch.optim.lr_scheduler] classes [main] picks from.  Both
    count their steps in [last_epoch], starting at 0. *)
Inductive Scheduler :=
| ExponentialLR (gamma : R) (last_epoch : Z)
| StepLR (step_size : Z) (gamma : R) (last_epoch : Z).

Definition last_epoch (s : Scheduler) : Z :=
  match s with
  | ExponentialLR _ n => n
  | StepLR _ _ n => n
  end.

(** [scheduler.step()]: the step count goes up by one and the optimizer's
    learning rate is recomputed from the current one.  [ExponentialLR]
    multiplies by [gamma] on every step; [StepLR] multiplies by [gamma] when
    the new step count is a nonzero multiple of [step_size], and divides by
    zero when [step_size] is 0. *)
Definition scheduler_step (s : Scheduler) (lr : R) : option (Scheduler * R) :=
  match s with
  | ExponentialLR gamma n => Some (ExponentialLR gamma (n + 1), lr * gamma)
  | StepLR step_size gamma n =>
      if (n + 1 =? 0)%Z then Some (StepLR step_size gamma (n + 1), lr)
      else if (step_size =? 0)%Z then None
      else if ((n + 1) mod step_size =? 0)%Z
           then Some (StepLR step_size gamma (n + 1), lr * gamma)
           else Some (StepLR step_size gamma (n + 1), lr)
  end.

(** ** The training loop *)

Definition LOG_ITERS : Z := 10000000.

(** The exceptions of the program.  [ComplexGamma] is none of them: it
    marks the one place where the program goes on with a value that has no
    counterpart here, the complex number that [**] returns for a negative
    base and an exponent that is no integer (see [select_scheduler]). *)
Inductive Exn :=
| ZeroDivisionError | TypeError | AssertionError | RuntimeError | ValueError
| ComplexGamma.

(** What one run does to the outside world, in program order.  Wall-clock
    time is not modelled, so the throughput figure of the epoch report is
    left out. *)
Inductive Event :=
| EpochReport (epoch : Z) (train_loss : R)
| SaveStateDict (train_id : string) (epoch : Z) (m : Module)
| DumpJson (train_id : string) (m : Module)
| SchedulerStep
| ZeroGrad
| Forward (batch : Batch.t)
| Backward (loss : R)
| OptimizerStep
| ApplyClipper
| ProgressReport (positions : Z) (loss : R)
| TrainLogUpdate (loss : R)
| TrainLogSave.

Inductive result (S A : Type) :=
| Ok (a : A)
| Raise (e : Exn) (s : S).
Arguments Ok {S A} a.
Arguments Raise {S A} e s.

(** [sigmoid(cp / scale) * (1 - wdl) + wdl_label * wdl] for one example. *)
Definition blend (wdl scale cp wdl_label : R) : R :=
  sigmoid (cp / scale) * (1 - wdl) + wdl_label * wdl.

(** Line 94 of [main.py] on the two label columns of a batch. *)
Definition expected_of (wdl scale : R) (batch : Batch.t) : Vector :=
  map (fun cw => blend wdl scale (fst cw) (snd cw))
      (combine (Batch.cp batch) (Batch.wdl batch)).

(** [torch.mean((prediction - expected) ** 2)]. *)
Definition mse (prediction expected : Vector) : R :=
  Rsum (map (fun pe => (fst pe - snd pe) * (fst pe - snd pe)) (combine prediction expected))
  / INR (length (combine prediction expected)).

Section Train.

(** The optimizer is any update of the parameters from its own state, the
    learning rate, the batch and the targets the loss was taken against. *)
Variable OptState : Type.
Variable optimizer_step : OptState -> R -> Module -> Batch.t -> Vector -> OptState * Module.

(** [model(batch)], with [None] for a batch the model rejects. *)
Variable model_call : Module -> Batch.t -> option Vector.

Record TrainState := mkState {
  model : Module;
  optimizer : OptState;
  lr : R;
  scheduler : Scheduler;
  running_loss : R;
  iterations : Z;
  loss_since_log : R;
  iter_since_log : Z;
  fens : Z;
  epoch : Z;
  trace : list Event
}.

Definition emit (evs : list Event) (st : TrainState) : TrainState :=
  mkState (model st) (optimizer st) (lr st) (scheduler st) (running_loss st)
          (iterations st) (loss_since_log st) (iter_since_log st) (fens st)
          (epoch st) (trace st ++ evs).

Variable wdl scale : R.
Variable epochs save_epochs : Z.
Variable train_id : string.
Variable train_log : option string.

(** Lines 68 to 89: the body of [if new_epoch:]. *)
Definition epoch_end (st : TrainState) : result TrainState TrainState :=
  let epoch' := (epoch st + 1)%Z in
  let st := mkState (model st) (optimizer st) (lr st) (scheduler st) (running_loss st)
                    (iterations st) (loss_since_log st) (iter_since_log st) (fens st)
                    epoch' (trace st) in
  if (iterations st =? 0)%Z then Raise ZeroDivisionError st
  else
    let st := emit [EpochReport epoch' (running_loss st / IZR (iterations st))] st in
    let st := mkState (model st) (optimizer st) (lr st) (scheduler st) 0
                      0%Z (loss_since_log st) (iter_since_log st) 0%Z
                      epoch' (trace st) in
    if (save_epochs =? 0)%Z then Raise ZeroDivisionError st
    else
      let st := if (epoch' mod save_epochs =? 0)%Z
                then emit [SaveStateDict train_id epoch' (model st);
                           DumpJson train_id (model st)] st
                else st in
      match scheduler_step (scheduler st) (lr st) with
      | Some (scheduler', lr') =>
          Ok (emit [SchedulerStep]
                (mkState (model st) (optimizer st) lr' scheduler' (running_loss st)
                         (iterations st) (loss_since_log st) (iter_since_log st)
                         (fens st) epoch' (trace st)))
      | None => Raise ZeroDivisionError st
      end.

(** Lines 92 to 119: the part of the loop body every iteration runs. *)
Definition train_on_batch (batch : Batch.t) (st : TrainState)
    : result TrainState TrainState :=
  let st := emit [ZeroGrad] st in
  match model_call (model st) batch with
  | None => Raise RuntimeError st
  | Some prediction =>
      let st := emit [Forward batch] st in
      let expected := expected_of wdl scale batch in
      let loss := mse prediction expected in
      let stepped := optimizer_step (optimizer st) (lr st) (model st) batch expected in
      let model' := apply (WeightClipper.call WeightClipper.init) (snd stepped) in
      let size := Z.of_nat (Batch.size batch) in
      let iterations' := (iterations st + 1)%Z in
      let iter_since_log' := (iter_since_log st + 1)%Z in
      let st := emit [Backward loss; OptimizerStep; ApplyClipper]
                  (mkState model' (fst stepped) (lr st) (scheduler st)
                           (running_loss st + loss) iterations'
                           (loss_since_log st + loss) iter_since_log'
                           (fens st + size)%Z (epoch st) (trace st)) in
      if (iter_since_log' * size >? LOG_ITERS)%Z then
        let loss := loss_since_log st / IZR iter_since_log' in
        let st := emit (ProgressReport (iterations' * size)%Z loss
                        :: match train_log with
                           | Some _ => [TrainLogUpdate loss; TrainLogSave]
                           | None => []
                           end) st in
        Ok (mkState (model st) (optimizer st) (lr st) (scheduler st) (running_loss st)
                    (iterations st) 0 0%Z (fens st) (epoch st) (trace st))
      else Ok st
  end.

(** One pass through the body of [while epoch < epochs], given what
    [dataloader.read_batch] returned. *)
Definition train_iter (rd : bool * Batch.t) (st : TrainState)
    : result TrainState TrainState :=
  let '(new_epoch, batch) := rd in
  if new_epoch then
    match epoch_end st with
    | Ok st => train_on_batch batch st
    | Raise e st => Raise e st
    end
  else train_on_batch batch st.

(** The loop, driven by the successive results of [read_batch].  It stops
    when the epoch count reaches [epochs], when an exception escapes, or
    when the supplied reads are used up. *)
Fixpoint train_loop (reads : list (bool * Batch.t)) (st : TrainState)
    : result TrainState TrainState :=
  if (epoch st <? epochs)%Z then
    match reads with
    | [] => Ok st
    | rd :: reads' =>
        match train_iter rd st with
        | Ok st => train_loop reads' st
        | Raise e st => Raise e st
        end
    end
  else Ok st.

Definition train (model0 : Module) (optimizer0 : OptState) (lr0 : R)
    (scheduler0 : Scheduler) (reads : list (bool * Batch.t))
    : result TrainState TrainState :=
  train_loop reads (mkState model0 optimizer0 lr0 scheduler0 0 0%Z 0 0%Z 0%Z 0%Z []).

(** The states after each completed iteration of the loop, oldest first. *)
Fixpoint iteration_states (reads : list (bool * Batch.t)) (st : TrainState)
    : list TrainState :=
  if (epoch st <? epochs)%Z then
    match reads with
    | [] => []
    | rd :: reads' =>
        match train_iter rd st with
        | Ok st => st :: iteration_states reads' st
        | Raise _ _ => []
        end
    end
  else [].

End Train.

(** ** The entry point *)

(** The parsed command line: [None] is an option that was not given and has
    no default. *)
Module Args.
Record t := mk {
  data_root : option string;
  train_id : option string;
  lr : option R;
  lr_end : option R;
  lr_drop : option Z;
  epochs : option Z;
  batch_size : Z;
  wdl : R;
  wdl_drop : option R;
  scale : option R;
  save_epochs : Z;
  resume : option string
}.

(** What [parse_args] yields for an empty command line. *)
Definition defaults : t :=
  mk None None None None None None 16384 0 None None 100 None.
End Args.

(** The network classes of [model.py] whose code is at hand. *)
Inductive Net :=
| Net_PerspectiveNet (net : PerspectiveNet.t)
| Net_SquaredPerspectiveNet (net : SquaredPerspectiveNet.t)
| Net_DeepPerspectiveNet (net : DeepPerspectiveNet.t)
| Net_HalfKPNet (net : HalfKPNet.t)
| Net_HalfKANet (net : HalfKANet.t).

Definition input_feature_set (n : Net) : InputFeatureSet :=
  match n with
  | Net_PerspectiveNet net => PerspectiveNet.input_feature_set net
  | Net_SquaredPerspectiveNet net => SquaredPerspectiveNet.input_feature_set net
  | Net_DeepPerspectiveNet net => DeepPerspectiveNet.input_feature_set net
  | Net_HalfKPNet net => HalfKPNet.input_feature_set net
  | Net_HalfKANet net => HalfKANet.input_feature_set net
  end.

(** [(lr_end / lr) ** (1 / epochs)] on floats with a positive base. *)
Definition exponential_gamma (lr lr_end : R) (epochs : Z) : R :=
  Rpower (lr_end / lr) (1 / IZR epochs).

(** Lines 167 to 179 of [main.py].  In [(lr_end / lr) ** (1 / epochs)] the
    quotient is taken first and divides by zero when [lr] is 0; then
    [1 / epochs] needs an integer other than 0.  The power of a positive base
    is [exponential_gamma].  [0.0 ** x] is 0 for a positive [x] and raises
    for a negative one.  A negative base has a float power only for the
    exponents 1 and -1, and a complex one otherwise. *)
Definition select_scheduler (args : Args.t) (lr : R) : result unit Scheduler :=
  match Args.lr_end args with
  | Some lr_end =>
      if Req_dec_T lr 0 then Raise ZeroDivisionError tt
      else
        match Args.epochs args with
        | None => Raise TypeError tt
        | Some epochs =>
            if (epochs =? 0)%Z then Raise ZeroDivisionError tt
            else if Rlt_dec 0 (lr_end / lr)
            then Ok (ExponentialLR (exponential_gamma lr lr_end epochs) 0)
            else if Req_dec_T (lr_end / lr) 0
            then if (0 <? epochs)%Z then Ok (ExponentialLR 0 0)
                 else Raise ZeroDivisionError tt
            else if (epochs =? 1)%Z then Ok (ExponentialLR (lr_end / lr) 0)
            else if (epochs =? -1)%Z then Ok (ExponentialLR (/ (lr_end / lr)) 0)
            else Raise ComplexGamma tt
        end
  | None =>
      match Args.lr_drop args with
      | Some lr_drop => Ok (StepLR lr_drop 0.1 0)
      | None => Ok (ExponentialLR 1.0 0)
      end
  end.

(** Whether two parameter sets of a [torch.nn.Linear] have the same shape:
    as many rows of the same lengths, and as many bias entries. *)
Fixpoint same_rows (a b : Matrix) : bool :=
  match a, b with
  | [], [] => true
  | ra :: a', rb :: b' => (length ra =? length rb)%nat && same_rows a' b'
  | _, _ => false
  end.

Definition same_shape (l l' : Linear) : bool :=
  same_rows (weight l) (weight l') && (length (bias l) =? length (bias l'))%nat.

(** [model.load_state_dict(state)]: the values of [state] are copied into
    the parameters of [model]; a tensor of another shape than the parameter
    it is meant for is refused. *)
Definition load_state_dict (model state : SquaredPerspectiveNet.t)
    : option SquaredPerspectiveNet.t :=
  if same_shape (SquaredPerspectiveNet.perspective model)
       (SquaredPerspectiveNet.perspective state)
     && same_shape (SquaredPerspectiveNet.out model) (SquaredPerspectiveNet.out state)
  then Some state
  else None.

(** Everything [main] hands to [BatchLoader] and to [train]. *)
Record TrainCall := mkCall {
  call_model : Net;
  call_feature_set : InputFeatureSet;
  call_batch_size : Z;
  call_lr : R;
  call_scheduler : Scheduler;
  call_wdl : R;
  call_scale : R;
  call_epochs : Z;
  call_save_epochs : Z;
  call_train_id : string;
  call_train_log : option string
}.

Section Main.

(** The initial parameters [torch.nn.Linear(in_features, out_features)]
    draws, and the tensors a checkpoint file holds under the names of the
    network's four parameters, if it loads and has them. *)
Variable init_linear : nat -> nat -> Linear.
Variable torch_load : string -> option SquaredPerspectiveNet.t.

(** [SquaredPerspectiveNet(ft_out)]. *)
Definition SquaredPerspectiveNet_new (ft_out : nat) : SquaredPerspectiveNet.t :=
  SquaredPerspectiveNet.mk (init_linear 768 ft_out) (init_linear (ft_out * 2) 1).

(** [main] up to the call of [train].  [AdamW] refuses a negative learning
    rate. *)
Definition main_setup (args : Args.t) : result unit TrainCall :=
  match Args.train_id args with
  | None => Raise AssertionError tt
  | Some train_id =>
  match Args.scale args with
  | None => Raise AssertionError tt
  | Some scale =>
  let model := SquaredPerspectiveNet_new 768 in
  match (match Args.resume args with
         | Some path =>
             match torch_load path with
             | Some state => load_state_dict model state
             | None => None
             end
         | None => Some model
         end) with
  | None => Raise RuntimeError tt
  | Some model =>
  match Args.data_root args with
  | None => Raise TypeError tt
  | Some data_root =>
  match Args.lr args with
  | None => Raise TypeError tt
  | Some lr =>
  if Rlt_dec lr 0 then Raise ValueError tt else
  match select_scheduler args lr with
  | Raise e _ => Raise e tt
  | Ok scheduler =>
  match Args.epochs args with
  | None => Raise TypeError tt
  | Some epochs =>
      Ok (mkCall (Net_SquaredPerspectiveNet model)
                 (SquaredPerspectiveNet.input_feature_set model)
                 (Args.batch_size args) lr scheduler
                 (Args.wdl args) scale epochs (Args.save_epochs args)
                 train_id (Some train_id))
  end end end end end end end.

Variable OptState : Type.
Variable AdamW : R -> OptState.
Variable optimizer_step : OptState -> R -> Module -> Batch.t -> Vector -> OptState * Module.

Definition Net_module (n : Net) : option Module :=
  match n with
  | Net_SquaredPerspectiveNet net => Some (SquaredPerspectiveNet_module net)
  | _ => None
  end.

(** [main], with the batches [BatchLoader.read_batch] goes on to return. *)
Definition main (args : Args.t) (reads : list (bool * Batch.t))
    : result (option (TrainState OptState)) (TrainState OptState) :=
  match main_setup args with
  | Raise e _ => Raise e None
  | Ok call =>
      match Net_module (call_model call) with
      | None => Raise RuntimeError None
      | Some m =>
          match train OptState optimizer_step SquaredPerspectiveNet_call
                  (call_wdl call) (call_scale call) (call_epochs call)
                  (call_save_epochs call) (call_train_id call) (call_train_log call)
                  m (AdamW (call_lr call)) (call_lr call) (call_scheduler call) reads with
          | Ok st => Ok st
          | Raise e st => Raise e (Some st)
          end
      end
  end.

End Main.

(** ** Sample parameters and batches *)

Definition zero_linear (in_features out_features : nat) : Linear :=
  mkLinear (repeat (repeat 0 in_features) out_features) (repeat 0 out_features).

(** A [Linear] whose weights are all zero and whose bias is all ones. *)
Definition unit_bias_linear (in_features out_features : nat) : Linear :=
  mkLinear (repeat (repeat 0 in_features) out_features) (repeat 1 out_features).

(** Output layers that read the first hidden unit, for [ft_out] 1 and 2. *)
Definition first_unit_out : Linear := mkLinear [[1; 0]] [0].

Definition first_of_four_out : Linear := mkLinear [[1; 0; 0; 0]] [0].

Definition sample_HalfKANet : HalfKANet.t :=
  HalfKANet.mk (zero_linear 49152 1) (unit_bias_linear 768 1) first_unit_out.

Definition sample_HalfKPNet : HalfKPNet.t :=
  HalfKPNet.mk (zero_linear 40960 1) (unit_bias_linear 640 1) first_unit_out.

(** One example with no active feature. *)
Definition bare_batch : Batch.t := Batch.mk 1 [] [] [] [0] [0].

(** One example whose only side-to-move feature is index 5, with value 1. *)
Definition feature5_batch : Batch.t := Batch.mk 1 [0%Z; 5%Z] [0%Z; 5%Z] [1] [0] [0].

(** A [Linear(768, 2)] whose table row [f] is [(1, 2)] for every [f]. *)
Definition sample_perspective : Linear :=
  mkLinear [repeat 1 768; repeat 2 768] [0; 0].

(** One example whose only feature, for both perspectives, is the bucketed
    index [3 * base + 17]. *)
Definition bucket3_batch (base : Z) : Batch.t :=
  Batch.mk 1 [0; 3 * base + 17]%Z [0; 3 * base + 17]%Z [1] [0] [0].

(** Two labelled examples with no active feature. *)
Definition labelled_batch : Batch.t := Batch.mk 2 [] [] [] [100; -50] [1; 0].

(** A layer whose weight and bias both lie outside the clipping range. *)
Definition wide_linear : Linear := mkLinear [[5; -7]] [3].

(** An optimizer that overwrites the model with [wide_linear], and a model
    call that predicts one half for every example. *)
Definition wide_optimizer (o : unit) (lr : R) (m : Module) (batch : Batch.t)
    (expected : Vector) : unit * Module :=
  (o, mkModule [] [("out"%string, Linear_module wide_linear)]).

Definition half_model (m : Module) (batch : Batch.t) : option Vector :=
  Some (map (fun _ => 1 / 2) (Batch.cp batch)).

(** [k] successive calls of [scheduler.step()]. *)
Fixpoint scheduler_steps (k : nat) (s : Scheduler) (lr : R) : option (Scheduler * R) :=
  match k with
  | O => Some (s, lr)
  | S k' =>
      match scheduler_step s lr with
      | Some (s', lr') => scheduler_steps k' s' lr'
      | None => None
      end
  end.

(** The same command line with another value after [--wdl-drop]. *)
Definition set_wdl_drop (x : option R) (args : Args.t) : Args.t :=
  Args.mk (Args.data_root args) (Args.train_id args) (Args.lr args) (Args.lr_end args)
          (Args.lr_drop args) (Args.epochs args) (Args.batch_size args) (Args.wdl args)
          x (Args.scale args) (Args.save_epochs args) (Args.resume args).

(** [--data-root data --train-id net --lr 0.001 --lr-drop 1 --epochs 2
     --wdl 0.0 --wdl-drop 1.0 --scale 400]. *)
Definition drop_args : Args.t :=
  Args.mk (Some "data"%string) (Some "net"%string) (Some 0.001) None (Some 1%Z)
          (Some 2%Z) 16384 0 (Some 1) (Some 400) 100 None.


(** A checkpoint file in the shapes of [SquaredPerspectiveNet(768)], a
    loader that finds it under every path, and
    [--data-root data --train-id net --lr 0.001 --epochs 2 --scale 400
     --resume nn/net_100]. *)
Definition stored_net : SquaredPerspectiveNet.t :=
  SquaredPerspectiveNet.mk (unit_bias_linear 768 768) (unit_bias_linear (768 * 2) 1).

Definition stored_checkpoint (path : string) : option SquaredPerspectiveNet.t :=
  Some stored_net.

Definition resume_args : Args.t :=
  Args.mk (Some "data"%string) (Some "net"%string) (Some 0.001) None None
          (Some 2%Z) 16384 0 None (Some 400) 100 (Some "nn/net_100"%string).

(** A loader that finds no checkpoint. *)
Definition no_checkpoint (path : string) : option SquaredPerspectiveNet.t := None.

(** A state in which one batch has been trained since the last boundary. *)
Definition running_state (m : Module) (lr : R) (s : Scheduler) : TrainState unit :=
  mkState unit m tt lr s 0 1 0 1 2 0 [].

(** ** Induction on module trees *)

Fixpoint Module_tree_ind (P : Module -> Prop)
    (step : forall a cs, Forall (fun nc => P (snd nc)) cs -> P (mkModule a cs))
    (m : Module) {struct m} : P m :=
  match m with
  | mkModule a cs =>
      step a cs
        ((fix all (l : list (string * Module)) : Forall (fun nc => P (snd nc)) l :=
            match l with
            | [] => Forall_nil _
            | nc :: l' => Forall_cons nc (Module_tree_ind P step (snd nc)) (all l')
            end) cs)
  end.

(** ** Well-formed inputs *)

(** The batch invariant for one perspective: as many example indices and
    feature indices as values, examples below [n], features below [dim]. *)
Definition well_formed (n dim : nat) (rs cs : list Z) (vs : list R) : Prop :=
  length rs = length vs /\ length cs = length vs /\
  Forall (fun e => (0 <= e < Z.of_nat n)%Z) rs /\
  Forall (fun f => (0 <= f < Z.of_nat dim)%Z) cs.

Definition has_shape (rows cols : nat) (m : Matrix) : Prop :=
  length m = rows /\ Forall (fun row => length row = cols) m.

(** An index buffer that reshapes into pairs satisfying the batch
    invariant for [n] examples and [dim] features. *)
Definition perspective_ok (n dim : nat) (idx : list Z) (vals : list R) : Prop :=
  exists rs cs, reshape2_T idx = Some (rs, cs) /\ well_formed n dim rs cs vals.

(** A [torch.nn.Linear] that produces one output. *)
Definition single_output (l : Linear) : Prop :=
  length (weight l) = 1%nat /\ length (bias l) = 1%nat.

(** A matrix of [rows] rows of one entry each, every entry between 0 and
    1. *)
Definition unit_column (rows : nat) (m : Matrix) : Prop :=
  has_shape rows 1 m /\ Forall (Forall (fun p => 0 <= p <= 1)) m.

(** The same with every entry strictly between 0 and 1, as it is over the
    reals. *)
Definition probability_column (rows : nat) (m : Matrix) : Prop :=
  has_shape rows 1 m /\ Forall (Forall (fun p => 0 < p < 1)) m.

(** ** Events of one iteration *)

(** What lines 92 to 99 add to the trace for one batch. *)
Definition batch_events (batch : Batch.t) (loss : R) : list Event :=
  [ZeroGrad; Forward batch; Backward loss; OptimizerStep; ApplyClipper].

(** What lines 108 to 119 add when the report is due. *)
Definition progress_events (train_log : option string) (positions : Z) (loss : R)
    : list Event :=
  ProgressReport positions loss
  :: match train_log with
     | Some _ => [TrainLogUpdate loss; TrainLogSave]
     | None => []
     end.

(** What lines 68 to 89 add at an epoch boundary. *)
Definition boundary_events (train_id : string) (save_epochs epoch' : Z) (mean : R)
    (m : Module) : list Event :=
  [EpochReport epoch' mean]
  ++ (if (epoch' mod save_epochs =? 0)%Z
      then [SaveStateDict train_id epoch' m; DumpJson train_id m]
      else [])
  ++ [SchedulerStep].

(** The batches a trace ran forward on, oldest first. *)
Fixpoint forwarded (tr : list Event) : list Batch.t :=
  match tr with
  | [] => []
  | Forward batch :: tr' => batch :: forwarded tr'
  | _ :: tr' => forwarded tr'
  end.

(** The losses of the backward passes since the last epoch report of a
    trace, oldest first, starting from [acc]. *)
Fixpoint epoch_losses (tr : list Event) (acc : list R) : list R :=
  match tr with
  | [] => acc
  | EpochReport _ _ :: tr' => epoch_losses tr' []
  | Backward loss :: tr' => epoch_losses tr' (acc ++ [loss])
  | _ :: tr' => epoch_losses tr' acc
  end.

Definition is_checkpoint (ev : Event) : bool :=
  match ev with
  | SaveStateDict _ _ _ => true
  | _ => false
  end.

Definition is_epoch_report (ev : Event) : bool :=
  match ev with
  | EpochReport _ _ => true
  | _ => false
  end.

Definition is_progress_report (ev : Event) : bool :=
  match ev with
  | ProgressReport _ _ => true
  | _ => false
  end.

(** The state a run ended in, whether it returned or raised. *)
Definition last_state {S : Type} (r : result S S) : S :=
  match r with
  | Ok st => st
  | Raise _ st => st
  end.

(** What a run may write under [nn/]: a checkpoint carries the run's id and
    an epoch number between 1 and [epochs] that [save_epochs] divides. *)
Definition checkpoint_ok (train_id : string) (save_epochs epochs : Z) (ev : Event)
    : Prop :=
  match ev with
  | SaveStateDict id e _ =>
      id = train_id /\ (1 <= e <= epochs)%Z /\ (e mod save_epochs = 0)%Z /\
      save_epochs <> 0%Z
  | DumpJson id _ => id = train_id
  | _ => True
  end.

(** What an epoch report must say, given the trace before it. *)
Definition report_ok (pre : list Event) (e : Z) (l : R) : Prop :=
  epoch_losses pre [] <> [] /\
  l = Rsum (epoch_losses pre []) / INR (length (epoch_losses pre [])) /\
  e = Z.of_nat (S (length (filter is_epoch_report pre))).

Definition reports_ok (tr : list Event) : Prop :=
  forall pre e l post, tr = pre ++ EpochReport e l :: post -> report_ok pre e l.

(** The counters the report is computed from, in terms of the trace. *)
Definition counters_ok {OptState : Type} (st : TrainState OptState) : Prop :=
  running_loss OptState st = Rsum (epoch_losses (trace OptState st) []) /\
  iterations OptState st = Z.of_nat (length (epoch_losses (trace OptState st) [])) /\
  epoch OptState st = Z.of_nat (length (filter is_epoch_report (trace OptState st))) /\
  reports_ok (trace OptState st).

(** The loss of [half_model] on [labelled_batch] at [wdl = 0], [scale = 400]. *)
Definition sample_loss : R :=
  mse (map (fun _ => 1 / 2) (Batch.cp labelled_batch)) (expected_of 0 400 labelled_batch).

(** What [wide_optimizer] leaves once the clipper has run. *)
Definition clipped_wide : Module :=
  apply (WeightClipper.call WeightClipper.init)
    (mkModule [] [("out"%string, Linear_module wide_linear)]).

(** An optimizer that leaves the parameters as they are. *)
Definition idle_optimizer (o : unit) (lr : R) (m : Module) (batch : Batch.t)
    (expected : Vector) : unit * Module :=
  (o, m).

(** [--data-root data --train-id net --lr 0.001 --epochs 2 --scale 400]. *)
Definition plain_args : Args.t :=
  Args.mk (Some "data"%string) (Some "net"%string) (Some 0.001) None None
          (Some 2%Z) 16384 0 None (Some 400) 100 None.

(** The network [main] builds when every [torch.nn.Linear] starts at zero. *)
Definition zero_net : SquaredPerspectiveNet.t :=
  SquaredPerspectiveNet.mk (zero_linear 768 768) (zero_linear (768 * 2) 1).

(** One batch, then one more that [read_batch] flags as a new epoch. *)
Definition sample_reads : list (bool * Batch.t) :=
  [(false, labelled_batch); (true, labelled_batch)].

(** ** Case analysis of one iteration *)

(** Splits a goal about [train_iter rd st] into the seven ways an iteration
    can go: at a boundary, the three divisions by zero, the model rejecting
    the batch, and the batch trained; without a boundary, the last two.
    [boundary_eq] and [batch_eq] are the equations of [epoch_end] and
    [train_on_batch]. *)
Ltac iter_cases boundary_eq batch_eq model_call save_epochs rd st :=
  let batch := fresh "batch" in
  destruct rd as [[|] batch]; unfold train_iter;
  [ rewrite (boundary_eq st); cbv zeta;
    destruct (iterations _ st =? 0)%Z eqn:Hit;
    [| destruct (save_epochs =? 0)%Z eqn:Hse;
       [| destruct (scheduler_step (scheduler _ st) (lr _ st)) as [[s' l']|] eqn:Hss;
          [ rewrite batch_eq;
            cbn [model optimizer lr scheduler running_loss iterations
                 loss_since_log iter_since_log fens epoch trace];
            destruct (model_call (model _ st) batch) as [prediction|] eqn:Hmc; cbv zeta |]]]
  | rewrite batch_eq;
    destruct (model_call (model _ st) batch) as [prediction|] eqn:Hmc; cbv zeta ];
  cbn [emit last_state model optimizer lr scheduler running_loss iterations
       loss_since_log iter_since_log fens epoch trace].


(** The cadence of the progress report for batches of [s] examples: the
    reports printed so far are the trained batches divided by the period
    [LOG_ITERS / s + 1], rounded down, and the counter is the remainder. *)
Definition cadence_ok {OptState : Type} (s : nat) (st : TrainState OptState)
    : Prop :=
  let trained := Z.of_nat (length (forwarded (trace OptState st))) in
  let period := (LOG_ITERS / Z.of_nat s + 1)%Z in
  Z.of_nat (length (filter is_progress_report (trace OptState st)))
  = (trained / period)%Z /\
  iter_since_log OptState st = (trained mod period)%Z.


(** ** One example of a batch *)

(** The entries of [xs] at the positions where the example index is [i]. *)
Fixpoint sel {A : Type} (i : Z) (rs : list Z) (xs : list A) : list A :=
  match rs, xs with
  | r :: rs', x :: xs' => if (r =? i)%Z then x :: sel i rs' xs' else sel i rs' xs'
  | _, _ => []
  end.

(** The flat index buffer of a list of (example, feature) pairs, which
    [reshape2_T] takes apart again. *)
Fixpoint flat_pairs (rs cs : list Z) : list Z :=
  match rs, cs with
  | r :: rs', c :: cs' => r :: c :: flat_pairs rs' cs'
  | _, _ => []
  end.

Definition rows_of (idx : list Z) : list Z :=
  match reshape2_T idx with
  | Some (rs, _) => rs
  | None => []
  end.

Definition cols_of (idx : list Z) : list Z :=
  match reshape2_T idx with
  | Some (_, cs) => cs
  | None => []
  end.

(** The index buffer of example [i] on its own, as example 0. *)
Definition example_indices (i : nat) (idx : list Z) : list Z :=
  let cs := sel (Z.of_nat i) (rows_of idx) (cols_of idx) in
  flat_pairs (map (fun _ => 0%Z) cs) cs.

(** Example [i] of a batch as a batch of one: its features and values,
    and its two labels. *)
Definition example_batch (i : nat) (batch : Batch.t) : Batch.t :=
  Batch.mk 1
    (example_indices i (Batch.stm_indices batch))
    (example_indices i (Batch.nstm_indices batch))
    (sel (Z.of_nat i) (rows_of (Batch.stm_indices batch)) (Batch.values batch))
    [nth i (Batch.cp batch) 0] [nth i (Batch.wdl batch) 0].

(** Two examples with one feature each: 5 and 7 for the side to move, 9
    and 3 for the other side. *)
Definition two_example_batch : Batch.t :=
  Batch.mk 2 [0; 5; 1; 7]%Z [0; 9; 1; 3]%Z [1; 1] [0; 0] [0; 1].


(** * Properties *)

(** ** Dense products are gathers *)

Lemma dot_zeros (l : list nat) (w : list R) :
  dot (map (fun _ => 0) l) w = 0.
Proof.
  revert w; induction l as [|c l IH]; intros [|b w]; simpl; auto.
  rewrite IH; ring.
Qed.

Lemma dot_map_plus (f g : nat -> R) (l : list nat) (w : list R) :
  dot (map (fun c => f c + g c) l) w = dot (map f l) w + dot (map g l) w.
Proof.
  revert w; induction l as [|c l IH]; intros [|b w]; simpl; try ring.
  rewrite IH; ring.
Qed.

Lemma dot_one_hot (ck : Z) (v : R) (w : list R) (s : nat) :
  dot (map (fun c => if (ck =? Z.of_nat c)%Z then v else 0) (seq s (length w))) w
  = if ((Z.of_nat s <=? ck) && (ck <? Z.of_nat (s + length w)))%Z
    then nth (Z.to_nat ck - s) w 0 * v else 0.
Proof.
  revert s; induction w as [|b w IH]; intros s; cbn [length seq map dot].
  - destruct (Z.leb_spec (Z.of_nat s) ck), (Z.ltb_spec ck (Z.of_nat (s + 0)));
      cbn [andb]; auto; lia.
  - rewrite IH.
    replace (s + S (length w))%nat with (S s + length w)%nat by lia.
    destruct (Z.eqb_spec ck (Z.of_nat s)) as [->|Hne].
    + rewrite Nat2Z.id, Nat.sub_diag.
      destruct (Z.leb_spec (Z.of_nat (S s)) (Z.of_nat s)); [lia|].
      destruct (Z.leb_spec (Z.of_nat s) (Z.of_nat s)); [|lia].
      destruct (Z.ltb_spec (Z.of_nat s) (Z.of_nat (S s + length w))); [|lia].
      cbn [andb nth]; ring.
    + destruct (Z.leb_spec (Z.of_nat (S s)) ck), (Z.leb_spec (Z.of_nat s) ck);
        try lia; cbn [andb]; [|ring].
      destruct (Z.ltb_spec ck (Z.of_nat (S s + length w))); [|ring].
      replace (Z.to_nat ck - s)%nat with (S (Z.to_nat ck - S s)) by lia.
      cbn [nth]; ring.
Qed.

Lemma dot_dense_row (rs cs : list Z) (vs : list R) (w : list R) (i : nat) :
  forallb (index_ok (length w)) cs = true ->
  dot (map (fun c => coo_entry rs cs vs i c) (seq 0 (length w))) w
  = gather_sum (fun f => nth (Z.to_nat f) w 0) rs cs vs i.
Proof.
  revert cs vs; induction rs as [|rk rs IH]; intros cs vs Hcs.
  - simpl. apply dot_zeros.
  - destruct cs as [|ck cs]; [apply dot_zeros|].
    destruct vs as [|vk vs]; [apply dot_zeros|].
    simpl in Hcs. apply andb_prop in Hcs as [Hck Hcs].
    cbn [coo_entry gather_sum].
    rewrite dot_map_plus, IH by assumption. f_equal.
    destruct (rk =? Z.of_nat i)%Z; cbn [andb].
    + rewrite dot_one_hot. unfold index_ok in Hck.
      simpl. rewrite Hck, Nat.sub_0_r. reflexivity.
    + apply dot_zeros.
Qed.

Lemma linear_row_spec (w : Matrix) (b : Vector) (x : list R) :
  length b = length w ->
  linear_row w b x
  = map (fun j => dot x (nth j w []) + nth j b 0) (seq 0 (length w)).
Proof.
  revert b; induction w as [|wj w IH]; intros [|bj b] Hlen; simpl in *;
    try discriminate; auto.
  f_equal. rewrite <- seq_shift, map_map. apply IH. lia.
Qed.

Lemma linear_to_dense (l : Linear) (rs cs : list Z) (vs : list R) (n dim out : nat) :
  Linear_shape dim out l ->
  forallb (index_ok dim) cs = true ->
  linear l (to_dense (mkSparse rs cs vs (n, dim)))
  = gathered (weight_row l) (fun j => nth j (bias l) 0) (rs, cs) vs n out.
Proof.
  intros (Hout & Hrows & Hbias) Hcs.
  unfold linear, to_dense, gathered; cbn [sp_rows sp_cols sp_values sp_shape fst snd].
  rewrite map_map. apply map_ext; intros i.
  rewrite linear_row_spec by congruence. rewrite Hout.
  apply map_ext_in; intros j Hj. apply in_seq in Hj. f_equal.
  assert (Hlen : length (nth j (weight l) []) = dim).
  { rewrite Forall_forall in Hrows. apply Hrows, nth_In. lia. }
  rewrite <- Hlen in Hcs |- *. rewrite dot_dense_row by assumption. reflexivity.
Qed.

Lemma well_formed_checks (n dim : nat) (rs cs : list Z) (vs : list R) :
  well_formed n dim rs cs vs ->
  sparse_coo_tensor (rs, cs) vs (n, dim) = Some (mkSparse rs cs vs (n, dim)).
Proof.
  intros (Hr & Hc & Hrs & Hcs). unfold sparse_coo_tensor; cbn [fst snd].
  rewrite Hr, Hc, Nat.eqb_refl. cbn [andb].
  assert (Hb : forall k l, Forall (fun e => (0 <= e < Z.of_nat k)%Z) l ->
                           forallb (index_ok k) l = true).
  { intros k l H. apply forallb_forall. rewrite Forall_forall in H.
    intros x Hx. specialize (H x Hx). unfold index_ok.
    apply andb_true_intro; split; [apply Z.leb_le | apply Z.ltb_lt]; lia. }
  rewrite (Hb _ _ Hrs), (Hb _ _ Hcs). reflexivity.
Qed.

Lemma sparse_coo_tensor_Some (ind : list Z * list Z) (vs : list R) (shape : nat * nat)
    (s : SparseTensor) :
  sparse_coo_tensor ind vs shape = Some s ->
  s = mkSparse (fst ind) (snd ind) vs shape /\
  length (fst ind) = length vs /\ length (snd ind) = length vs /\
  forallb (index_ok (fst shape)) (fst ind) = true /\
  forallb (index_ok (snd shape)) (snd ind) = true.
Proof.
  destruct ind as [rs cs]. unfold sparse_coo_tensor; cbn [fst snd].
  destruct (length rs =? length vs)%nat eqn:E1; [|discriminate].
  destruct (length cs =? length vs)%nat eqn:E2; [|discriminate].
  destruct (forallb (index_ok (fst shape)) rs) eqn:E3; [|discriminate].
  destruct (forallb (index_ok (snd shape)) cs) eqn:E4; [|discriminate].
  cbn [andb]. intros [= <-].
  apply Nat.eqb_eq in E1, E2. auto.
Qed.

Lemma gathered_shape table offset ind vs n out :
  has_shape n out (gathered table offset ind vs n out).
Proof.
  unfold has_shape, gathered. rewrite length_map, length_seq. split; auto.
  apply Forall_forall; intros row Hrow. apply in_map_iff in Hrow as (i & <- & _).
  rewrite length_map, length_seq. reflexivity.
Qed.

(** With a single active feature the gather is one table entry. *)
Lemma gather_sum_single (table : Z -> R) (e f : Z) (v : R) (i : nat) :
  gather_sum table [e] [f] [v] i = if (e =? Z.of_nat i)%Z then table f * v else 0.
Proof. cbn [gather_sum]. ring. Qed.

(** C1: under BOARD_768 a perspective's output, before concatenation and
    activation, has shape [(size, output_dim)], and its entry [(i, j)] is the
    sum over the features active in example [i] of [weight_row f j * value],
    plus [bias j] once.  [PerspectiveNet.forward] and
    [SquaredPerspectiveNet.forward] feed these two matrices, side to move
    first, to the activation and the output layer.  With one example whose
    only feature is index 5 with value 1 and a zero bias, the output row is
    weight row 5. *)
Theorem perspective_pov_is_gather :
  (forall (perspective : Linear) (out : nat) (idx rs cs : list Z) (batch : Batch.t),
      Linear_shape 768 out perspective ->
      reshape2_T idx = Some (rs, cs) ->
      well_formed (Batch.size batch) 768 rs cs (Batch.values batch) ->
      exists m,
        perspective_pov perspective idx batch = Some m /\
        has_shape (Batch.size batch) out m /\
        m = gathered (weight_row perspective) (fun j => nth j (bias perspective) 0)
                     (rs, cs) (Batch.values batch) (Batch.size batch) out) /\
  (forall (perspective : Linear) (nstm : list Z) (cp wdl : list R),
      Linear_shape 768 2 perspective ->
      bias perspective = [0; 0] ->
      perspective_pov perspective [0%Z; 5%Z] (Batch.mk 1 [0%Z; 5%Z] nstm [1] cp wdl)
      = Some [[weight_row perspective 5 0; weight_row perspective 5 1]]) /\
  (forall (perspective out_layer : Linear) (out : nat) (batch : Batch.t)
          (rs cs rs' cs' : list Z),
      Linear_shape 768 out perspective ->
      Linear_shape (out * 2) 1 out_layer ->
      reshape2_T (Batch.stm_indices batch) = Some (rs, cs) ->
      reshape2_T (Batch.nstm_indices batch) = Some (rs', cs') ->
      well_formed (Batch.size batch) 768 rs cs (Batch.values batch) ->
      well_formed (Batch.size batch) 768 rs' cs' (Batch.values batch) ->
      let pov ind := gathered (weight_row perspective)
                       (fun j => nth j (bias perspective) 0)
                       ind (Batch.values batch) (Batch.size batch) out in
      PerspectiveNet.forward (PerspectiveNet.mk perspective out_layer) batch
      = Some (mmap sigmoid
                (linear out_layer
                   (mmap (clamp 0 1) (cat_dim1 (pov (rs, cs)) (pov (rs', cs')))))) /\
      SquaredPerspectiveNet.forward (SquaredPerspectiveNet.mk perspective out_layer) batch
      = Some (mmap sigmoid
                (linear out_layer
                   (mmap (fun a => a * a)
                      (mmap (clamp 0 1) (cat_dim1 (pov (rs, cs)) (pov (rs', cs')))))))).
Proof.
  assert (General : forall perspective out idx rs cs batch,
      Linear_shape 768 out perspective ->
      reshape2_T idx = Some (rs, cs) ->
      well_formed (Batch.size batch) 768 rs cs (Batch.values batch) ->
      perspective_pov perspective idx batch
      = Some (gathered (weight_row perspective) (fun j => nth j (bias perspective) 0)
                (rs, cs) (Batch.values batch) (Batch.size batch) out)).
  { intros perspective out idx rs cs batch Hshape Hidx Hwf.
    unfold perspective_pov. rewrite Hidx, (well_formed_checks _ _ _ _ _ Hwf).
    f_equal. apply linear_to_dense; auto.
    destruct (sparse_coo_tensor_Some _ _ _ _ (well_formed_checks _ _ _ _ _ Hwf))
      as (_ & _ & _ & _ & H). exact H. }
  split; [|split].
  3:{ intros perspective out_layer out batch rs cs rs' cs' Hshape _ Hs Hn Hwf Hwf' pov.
      unfold PerspectiveNet.forward, SquaredPerspectiveNet.forward.
      cbn [PerspectiveNet.perspective PerspectiveNet.out
           SquaredPerspectiveNet.perspective SquaredPerspectiveNet.out].
      rewrite (General perspective out _ rs cs batch Hshape Hs Hwf).
      rewrite (General perspective out _ rs' cs' batch Hshape Hn Hwf').
      split; reflexivity. }
  - intros perspective out idx rs cs batch Hshape Hidx Hwf.
    eexists; split; [apply (General _ out _ rs cs); assumption|].
    split; [apply gathered_shape | reflexivity].
  - intros perspective nstm cp wdl Hshape Hbias.
    rewrite (General perspective 2%nat _ [0%Z] [5%Z]); auto.
    + unfold gathered; cbn [seq map fst snd Batch.values Batch.size].
      rewrite !gather_sum_single, Hbias. cbn [Z.of_nat Z.eqb nth].
      repeat f_equal; ring.
    + cbn [Batch.size Batch.values]. repeat split; auto.
      * constructor; [lia | constructor].
      * constructor; [lia | constructor].
Qed.

(** ** The factoriser *)

Lemma gather_sum_map (table : Z -> R) (g : Z -> Z) (rs cs : list Z) (vs : list R) (i : nat) :
  gather_sum table rs (map g cs) vs i = gather_sum (fun f => table (g f)) rs cs vs i.
Proof.
  revert cs vs; induction rs as [|e rs IH]; intros [|f cs] [|v vs]; cbn [map gather_sum]; auto.
  rewrite IH; reflexivity.
Qed.

Lemma gather_sum_plus (t1 t2 : Z -> R) (rs cs : list Z) (vs : list R) (i : nat) :
  gather_sum t1 rs cs vs i + gather_sum t2 rs cs vs i
  = gather_sum (fun f => t1 f + t2 f) rs cs vs i.
Proof.
  revert cs vs; induction rs as [|e rs IH]; intros [|f cs] [|v vs]; cbn [gather_sum]; try ring.
  rewrite <- IH. destruct (e =? Z.of_nat i)%Z; ring.
Qed.

Lemma gather_sum_ext (t1 t2 : Z -> R) (rs cs : list Z) (vs : list R) (i : nat) :
  (forall f, In f cs -> t1 f = t2 f) ->
  gather_sum t1 rs cs vs i = gather_sum t2 rs cs vs i.
Proof.
  revert cs vs; induction rs as [|e rs IH]; intros [|f cs] [|v vs] H; cbn [gather_sum]; auto.
  rewrite (IH cs vs), (H f); auto using in_eq, in_cons.
Qed.

Lemma vadd_map (f g : nat -> R) (l : list nat) :
  vadd (map f l) (map g l) = map (fun j => f j + g j) l.
Proof. induction l as [|j l IH]; cbn [map vadd]; [|rewrite IH]; reflexivity. Qed.

Lemma madd_map (f g : nat -> list R) (l : list nat) :
  madd (map f l) (map g l) = map (fun i => vadd (f i) (g i)) l.
Proof. induction l as [|j l IH]; cbn [map madd]; [|rewrite IH]; reflexivity. Qed.

Lemma madd_gathered t1 o1 t2 o2 rs cs vs n out :
  madd (gathered t1 o1 (rs, cs) vs n out) (gathered t2 o2 (rs, cs) vs n out)
  = gathered (fun f j => t1 f j + t2 f j) (fun j => o1 j + o2 j) (rs, cs) vs n out.
Proof.
  unfold gathered; cbn [fst snd]. rewrite madd_map. apply map_ext; intros i.
  rewrite vadd_map. apply map_ext; intros j.
  rewrite <- gather_sum_plus. ring.
Qed.

Lemma gathered_ext t1 o1 t2 o2 rs cs vs n out :
  (forall f j, In f cs -> (j < out)%nat -> t1 f j = t2 f j) ->
  (forall j, (j < out)%nat -> o1 j = o2 j) ->
  gathered t1 o1 (rs, cs) vs n out = gathered t2 o2 (rs, cs) vs n out.
Proof.
  intros Ht Ho. unfold gathered; cbn [fst snd]. apply map_ext; intros i.
  apply map_ext_in; intros j Hj. apply in_seq in Hj.
  rewrite Ho by lia. f_equal. apply gather_sum_ext; intros f Hf. apply Ht; auto; lia.
Qed.

Lemma factoriser_indices_ok (base : nat) (cs : list Z) :
  base <> 0%nat ->
  forallb (index_ok base) (map (fun f => (f mod Z.of_nat base)%Z) cs) = true.
Proof.
  intros Hbase. apply forallb_forall; intros x Hx.
  apply in_map_iff in Hx as (f & <- & _). unfold index_ok.
  pose proof (Z.mod_pos_bound f (Z.of_nat base) ltac:(lia)).
  apply andb_true_intro; split; [apply Z.leb_le | apply Z.ltb_lt]; lia.
Qed.

(** One perspective of a bucketed network is a gather from the main table
    at the feature index plus a gather from the factoriser table at the
    feature index modulo [base], plus both biases. *)
Lemma factorised_ft_gathered (dim base out : nat) (ft fft : Linear)
    (idx rs cs : list Z) (batch : Batch.t) (board : SparseTensor) :
  Linear_shape dim out ft ->
  Linear_shape base out fft ->
  base <> 0%nat ->
  reshape2_T idx = Some (rs, cs) ->
  sparse_coo_tensor (rs, cs) (Batch.values batch) (Batch.size batch, dim) = Some board ->
  factorised_ft dim base ft fft idx batch
  = Some (gathered (fun f j => weight_row ft f j
                               + weight_row fft (f mod Z.of_nat base) j)
            (fun j => nth j (bias ft) 0 + nth j (bias fft) 0)
            (rs, cs) (Batch.values batch) (Batch.size batch) out).
Proof.
  intros Hft Hfft Hbase Hidx Hboard.
  unfold factorised_ft. rewrite Hidx, Hboard.
  apply sparse_coo_tensor_Some in Hboard as (-> & Hr & Hc & Hrs & Hcs).
  cbn [fst snd] in *.
  unfold factoriser_indices, sparse_coo_tensor; cbn [fst snd].
  rewrite length_map, Hr, Hc, Nat.eqb_refl, Hrs, factoriser_indices_ok by assumption.
  cbn [andb]. f_equal.
  rewrite (linear_to_dense ft _ _ _ _ _ out), (linear_to_dense fft _ _ _ _ _ out);
    auto using factoriser_indices_ok.
  rewrite <- madd_gathered. f_equal.
  unfold gathered; cbn [fst snd]. apply map_ext; intros i. apply map_ext; intros j.
  rewrite gather_sum_map. reflexivity.
Qed.

Lemma single_table_ft_gathered (dim out : nat) (ft : Linear)
    (idx rs cs : list Z) (batch : Batch.t) (board : SparseTensor) :
  Linear_shape dim out ft ->
  reshape2_T idx = Some (rs, cs) ->
  sparse_coo_tensor (rs, cs) (Batch.values batch) (Batch.size batch, dim) = Some board ->
  single_table_ft dim ft idx batch
  = Some (gathered (weight_row ft) (fun j => nth j (bias ft) 0)
            (rs, cs) (Batch.values batch) (Batch.size batch) out).
Proof.
  intros Hft Hidx Hboard.
  unfold single_table_ft. rewrite Hidx, Hboard.
  apply sparse_coo_tensor_Some in Hboard as (-> & Hr & Hc & Hrs & Hcs).
  cbn [fst snd] in *. f_equal. apply linear_to_dense; assumption.
Qed.

(** C2: the factoriser is read at [feature_index mod base_dim], whatever the
    king bucket: for HALF_KP the index [3 * 640 + 17] becomes 17.  Each
    perspective of [HalfKPNet] and [HalfKANet] is the main-table gather at
    the feature index plus the factoriser gather at the index modulo 640,
    respectively 768. *)
Theorem factoriser_lookup_mod_base :
  (forall (rs : list Z) (bucket base : Z),
      (0 <= base < 640)%Z ->
      factoriser_indices 640 (rs, [bucket * 640 + base]%Z) = (rs, [base])) /\
  (forall (rs : list Z) (bucket base : Z),
      (0 <= base < 768)%Z ->
      factoriser_indices 768 (rs, [bucket * 768 + base]%Z) = (rs, [base])) /\
  factoriser_indices 640 ([0%Z], [3 * 640 + 17]%Z) = ([0%Z], [17%Z]) /\
  (forall (net : HalfKPNet.t) (out : nat) (batch : Batch.t) (rs cs rs' cs' : list Z),
      Linear_shape 40960 out (HalfKPNet.ft net) ->
      Linear_shape 640 out (HalfKPNet.fft net) ->
      Linear_shape (out * 2) 1 (HalfKPNet.out net) ->
      reshape2_T (Batch.stm_indices batch) = Some (rs, cs) ->
      reshape2_T (Batch.nstm_indices batch) = Some (rs', cs') ->
      well_formed (Batch.size batch) 40960 rs cs (Batch.values batch) ->
      well_formed (Batch.size batch) 40960 rs' cs' (Batch.values batch) ->
      let table f j := weight_row (HalfKPNet.ft net) f j
                       + weight_row (HalfKPNet.fft net) (f mod 640) j in
      let offset j := nth j (bias (HalfKPNet.ft net)) 0
                      + nth j (bias (HalfKPNet.fft net)) 0 in
      HalfKPNet.forward net batch
      = Some (clipped_head (HalfKPNet.out net)
                (gathered table offset (rs, cs) (Batch.values batch) (Batch.size batch) out)
                (gathered table offset (rs', cs') (Batch.values batch) (Batch.size batch) out))) /\
  (forall (net : HalfKANet.t) (out : nat) (batch : Batch.t) (rs cs rs' cs' : list Z),
      Linear_shape 49152 out (HalfKANet.ft net) ->
      Linear_shape 768 out (HalfKANet.fft net) ->
      Linear_shape (out * 2) 1 (HalfKANet.out net) ->
      reshape2_T (Batch.stm_indices batch) = Some (rs, cs) ->
      reshape2_T (Batch.nstm_indices batch) = Some (rs', cs') ->
      well_formed (Batch.size batch) 49152 rs cs (Batch.values batch) ->
      well_formed (Batch.size batch) 49152 rs' cs' (Batch.values batch) ->
      let table f j := weight_row (HalfKANet.ft net) f j
                       + weight_row (HalfKANet.fft net) (f mod 768) j in
      let offset j := nth j (bias (HalfKANet.ft net)) 0
                      + nth j (bias (HalfKANet.fft net)) 0 in
      HalfKANet.forward net batch
      = Some (clipped_head (HalfKANet.out net)
                (gathered table offset (rs, cs) (Batch.values batch) (Batch.size batch) out)
                (gathered table offset (rs', cs') (Batch.values batch) (Batch.size batch) out))).
Proof.
  assert (Hmod : forall m rs bucket base, (0 <= base < m)%Z ->
            factoriser_indices m (rs, [bucket * m + base]%Z) = (rs, [base])).
  { intros m rs bucket base Hb. unfold factoriser_indices; cbn [fst snd map].
    rewrite Z.add_comm, Z.mod_add, Z.mod_small by lia. reflexivity. }
  split; [intros; apply Hmod; assumption|].
  split; [intros; apply Hmod; assumption|].
  split; [apply (Hmod 640%Z [0%Z] 3%Z 17%Z); lia|].
  split.
  - intros net out batch rs cs rs' cs' Hft Hfft _ Hs Hn Hwf Hwf' table offset.
    unfold HalfKPNet.forward.
    rewrite (factorised_ft_gathered 40960 640 out _ _ _ rs cs batch _ Hft Hfft
               ltac:(discriminate) Hs (well_formed_checks _ _ _ _ _ Hwf)).
    rewrite (factorised_ft_gathered 40960 640 out _ _ _ rs' cs' batch _ Hft Hfft
               ltac:(discriminate) Hn (well_formed_checks _ _ _ _ _ Hwf')).
    reflexivity.
  - intros net out batch rs cs rs' cs' Hft Hfft _ Hs Hn Hwf Hwf' table offset.
    unfold HalfKANet.forward.
    rewrite (factorised_ft_gathered 49152 768 out _ _ _ rs cs batch _ Hft Hfft
               ltac:(discriminate) Hs (well_formed_checks _ _ _ _ _ Hwf)).
    rewrite (factorised_ft_gathered 49152 768 out _ _ _ rs' cs' batch _ Hft Hfft
               ltac:(discriminate) Hn (well_formed_checks _ _ _ _ _ Hwf')).
    reflexivity.
Qed.

(** ** Folding the factoriser *)

Lemma nth_map_seq {A : Type} (g : nat -> A) (n i : nat) (d : A) :
  (i < n)%nat -> nth i (map g (seq 0 n)) d = g i.
Proof.
  intros Hi. rewrite (nth_indep _ d (g 0%nat)) by (rewrite length_map, length_seq; lia).
  rewrite map_nth, seq_nth by lia. reflexivity.
Qed.

Lemma weight_row_fold (dim base out : nat) (ft fft : Linear) (f : Z) (j : nat) :
  Linear_shape dim out ft ->
  (0 <= f < Z.of_nat dim)%Z -> (j < out)%nat ->
  weight_row (fold_factoriser base ft fft) f j
  = weight_row ft f j + weight_row fft (f mod Z.of_nat base) j.
Proof.
  intros (Hout & Hrows & _) Hf Hj.
  assert (Hlen : length (nth j (weight ft) []) = dim).
  { rewrite Forall_forall in Hrows. apply Hrows, nth_In. lia. }
  unfold weight_row at 1, fold_factoriser; cbn [weight].
  rewrite nth_map_seq by lia. rewrite nth_map_seq by lia.
  rewrite Z2Nat.id by lia. reflexivity.
Qed.

Lemma fold_factoriser_shape (dim base out : nat) (ft fft : Linear) :
  Linear_shape dim out ft -> Linear_shape dim out (fold_factoriser base ft fft).
Proof.
  intros (Hout & Hrows & Hbias). unfold Linear_shape, fold_factoriser; cbn [weight bias].
  rewrite length_map, length_seq. repeat split; auto.
  apply Forall_forall; intros row Hrow. apply in_map_iff in Hrow as (j & <- & Hj).
  apply in_seq in Hj. rewrite length_map, length_seq.
  rewrite Forall_forall in Hrows. apply Hrows, nth_In. lia.
Qed.

Lemma vadd_length (a b : Vector) :
  length a = length b -> length (vadd a b) = length a.
Proof.
  revert b; induction a as [|x a IH]; intros [|y b] H; simpl in *; auto; discriminate.
Qed.

Lemma vadd_nth (a b : Vector) (j : nat) :
  length a = length b -> nth j (vadd a b) 0 = nth j a 0 + nth j b 0.
Proof.
  revert b j; induction a as [|x a IH]; intros [|y b] [|j] H; simpl in *;
    try discriminate; try ring.
  apply IH; lia.
Qed.

Lemma fold_factoriser_with_bias_shape (dim base out : nat) (ft fft : Linear) :
  Linear_shape dim out ft -> Linear_shape base out fft ->
  Linear_shape dim out (fold_factoriser_with_bias base ft fft).
Proof.
  intros Hft Hfft. destruct (fold_factoriser_shape dim base out ft fft Hft) as (H1 & H2 & _).
  destruct Hft as (_ & _ & Hb), Hfft as (_ & _ & Hb').
  unfold Linear_shape, fold_factoriser_with_bias; cbn [weight bias].
  repeat split; auto. rewrite vadd_length; congruence.
Qed.

(** A perspective computed from both tables equals the same perspective
    computed from the table that has the factoriser rows and the factoriser
    bias folded in. *)
Lemma folded_ft_equiv (dim base out : nat) (ft fft : Linear) (idx : list Z)
    (batch : Batch.t) :
  Linear_shape dim out ft ->
  Linear_shape base out fft ->
  base <> 0%nat ->
  factorised_ft dim base ft fft idx batch
  = single_table_ft dim (fold_factoriser_with_bias base ft fft) idx batch.
Proof.
  intros Hft Hfft Hbase.
  destruct (reshape2_T idx) as [[rs cs]|] eqn:Hidx.
  2:{ unfold factorised_ft, single_table_ft. rewrite Hidx. reflexivity. }
  destruct (sparse_coo_tensor (rs, cs) (Batch.values batch) (Batch.size batch, dim))
    as [board|] eqn:Hboard.
  2:{ unfold factorised_ft, single_table_ft. rewrite Hidx, Hboard. reflexivity. }
  rewrite (factorised_ft_gathered dim base out ft fft idx rs cs batch board) by assumption.
  rewrite (single_table_ft_gathered dim out _ idx rs cs batch board);
    auto using fold_factoriser_with_bias_shape.
  f_equal. apply sparse_coo_tensor_Some in Hboard as (_ & _ & _ & _ & Hcs).
  cbn [fst snd] in Hcs. rewrite forallb_forall in Hcs.
  apply gathered_ext.
  - intros f j Hf Hj. specialize (Hcs f Hf). unfold index_ok in Hcs.
    apply andb_prop in Hcs as [H0 H1]. apply Z.leb_le in H0. apply Z.ltb_lt in H1.
    symmetry. apply (weight_row_fold dim base out); auto.
  - intros j Hj. unfold fold_factoriser_with_bias; cbn [bias].
    destruct Hft as (_ & _ & Hb), Hfft as (_ & _ & Hb').
    rewrite vadd_nth by congruence. reflexivity.
Qed.

(** C3, as the code supports it: a [HalfKANet] (a [HalfKPNet]) gives the
    same output as the network with the factoriser removed and a main table
    into which every factoriser row and the factoriser's bias were folded. *)
Theorem fold_with_bias_preserves_forward :
  (forall (net : HalfKANet.t) (out : nat) (batch : Batch.t),
      Linear_shape 49152 out (HalfKANet.ft net) ->
      Linear_shape 768 out (HalfKANet.fft net) ->
      forward_without_factoriser 49152
        (fold_factoriser_with_bias 768 (HalfKANet.ft net) (HalfKANet.fft net))
        (HalfKANet.out net) batch
      = HalfKANet.forward net batch) /\
  (forall (net : HalfKPNet.t) (out : nat) (batch : Batch.t),
      Linear_shape 40960 out (HalfKPNet.ft net) ->
      Linear_shape 640 out (HalfKPNet.fft net) ->
      forward_without_factoriser 40960
        (fold_factoriser_with_bias 640 (HalfKPNet.ft net) (HalfKPNet.fft net))
        (HalfKPNet.out net) batch
      = HalfKPNet.forward net batch).
Proof.
  split; intros net out batch Hft Hfft.
  - unfold HalfKANet.forward, forward_without_factoriser.
    rewrite !(folded_ft_equiv 49152 768 out) by (auto; discriminate). reflexivity.
  - unfold HalfKPNet.forward, forward_without_factoriser.
    rewrite !(folded_ft_equiv 40960 640 out) by (auto; discriminate). reflexivity.
Qed.

Lemma zero_linear_shape (i o : nat) : Linear_shape i o (zero_linear i o).
Proof.
  unfold Linear_shape, zero_linear; cbn [weight bias].
  rewrite !repeat_length. repeat split; auto.
  apply Forall_forall; intros row Hrow. apply repeat_spec in Hrow as ->.
  apply repeat_length.
Qed.

Lemma unit_bias_linear_shape (i o : nat) : Linear_shape i o (unit_bias_linear i o).
Proof.
  unfold Linear_shape, unit_bias_linear; cbn [weight bias].
  rewrite !repeat_length. repeat split; auto.
  apply Forall_forall; intros row Hrow. apply repeat_spec in Hrow as ->.
  apply repeat_length.
Qed.

Lemma clamp_0_1_at_0 : clamp 0 1 0 = 0.
Proof. unfold clamp, Rmin, Rmax. repeat destruct Rle_dec; lra. Qed.

Lemma clamp_0_1_at_1 : clamp 0 1 1 = 1.
Proof. unfold clamp, Rmin, Rmax. repeat destruct Rle_dec; lra. Qed.

Lemma sigmoid_inj (x y : R) : sigmoid x = sigmoid y -> x = y.
Proof.
  unfold sigmoid; intros H. apply Rinv_eq_reg in H.
  assert (He : exp (- x) = exp (- y)) by lra.
  apply exp_inv in He. lra.
Qed.

(** C3 as stated fails: with a factoriser whose bias is 1, adding the
    factoriser rows to the main table and dropping the factoriser changes
    the output from [sigmoid 1] to [sigmoid 0]. *)
Lemma fold_rows_only_changes_forward :
  forward_without_factoriser 49152
    (fold_factoriser 768 (HalfKANet.ft sample_HalfKANet) (HalfKANet.fft sample_HalfKANet))
    (HalfKANet.out sample_HalfKANet) bare_batch
  <> HalfKANet.forward sample_HalfKANet bare_batch.
Proof.
  pose proof (zero_linear_shape 49152 1) as Hft.
  pose proof (unit_bias_linear_shape 768 1) as Hfft.
  pose proof (fold_factoriser_shape 49152 768 1 _ (unit_bias_linear 768 1) Hft) as Hfold.
  assert (Hboard : sparse_coo_tensor ([], []) (Batch.values bare_batch)
                     (Batch.size bare_batch, 49152%nat)
                   = Some (mkSparse [] [] [] (1%nat, 49152%nat))) by reflexivity.
  unfold HalfKANet.forward, forward_without_factoriser.
  cbn [sample_HalfKANet HalfKANet.ft HalfKANet.fft HalfKANet.out].
  change (Batch.stm_indices bare_batch) with (@nil Z).
  change (Batch.nstm_indices bare_batch) with (@nil Z).
  rewrite !(single_table_ft_gathered 49152 1 _ [] [] [] bare_batch _ Hfold eq_refl Hboard).
  rewrite !(factorised_ft_gathered 49152 768 1 _ _ [] [] [] bare_batch _ Hft Hfft
              ltac:(discriminate) eq_refl Hboard).
  unfold gathered, clipped_head, mmap, linear.
  cbn [seq map gather_sum fst snd Batch.size Batch.values bare_batch cat_dim1 app
       fold_factoriser zero_linear unit_bias_linear bias weight first_unit_out
       repeat nth linear_row dot].
  replace (0 + 0) with 0 by ring. replace (0 + (0 + 1)) with 1 by ring.
  rewrite clamp_0_1_at_0, clamp_0_1_at_1.
  intros [= H]. apply sigmoid_inj in H. lra.
Qed.

(** ** Target blending *)

Lemma map_fst_combine_eq {A B : Type} (a : list A) (b : list B) :
  length a = length b -> map fst (combine a b) = a.
Proof.
  revert b; induction a as [|x a IH]; intros [|y b] H; simpl in *;
    try discriminate; auto.
  f_equal; apply IH; lia.
Qed.

Lemma map_snd_combine_eq {A B : Type} (a : list A) (b : list B) :
  length a = length b -> map snd (combine a b) = b.
Proof.
  revert b; induction a as [|x a IH]; intros [|y b] H; simpl in *;
    try discriminate; auto.
  f_equal; apply IH; lia.
Qed.

(** C4: the target of every example is
    [sigmoid (cp / scale) * (1 - wdl) + wdl_label * wdl], and it is the
    target the loss of a training iteration is taken against.  With
    [wdl = 0] the targets are [sigmoid (cp / scale)]; with [wdl = 1] they are
    the outcome labels, whatever [cp] is. *)
Theorem target_blending :
  (forall (wdl scale : R) (batch : Batch.t),
      expected_of wdl scale batch
      = map (fun cw => sigmoid (fst cw / scale) * (1 - wdl) + snd cw * wdl)
            (combine (Batch.cp batch) (Batch.wdl batch))) /\
  (forall (OptState : Type) optimizer_step model_call (wdl scale : R) train_log
          (batch : Batch.t) (st : TrainState OptState) (prediction : Vector),
      model_call (model OptState st) batch = Some prediction ->
      exists st',
        train_on_batch OptState optimizer_step model_call wdl scale train_log batch st
        = Ok st' /\
        In (Backward (mse prediction (expected_of wdl scale batch)))
           (trace OptState st')) /\
  (forall (scale : R) (batch : Batch.t),
      length (Batch.cp batch) = length (Batch.wdl batch) ->
      expected_of 0 scale batch = map (fun c => sigmoid (c / scale)) (Batch.cp batch)) /\
  (forall (scale : R) (batch : Batch.t),
      length (Batch.cp batch) = length (Batch.wdl batch) ->
      expected_of 1 scale batch = Batch.wdl batch) /\
  (forall (scale cp cp' wdl_label : R),
      blend 1 scale cp wdl_label = blend 1 scale cp' wdl_label).
Proof.
  split; [reflexivity|]. split; [|split; [|split]].
  - intros OptState optimizer_step model_call wdl scale train_log batch st prediction Hcall.
    unfold train_on_batch. cbn [emit model]. rewrite Hcall.
    destruct (_ >? LOG_ITERS)%Z; eexists; (split; [reflexivity|]);
      cbn [emit trace]; rewrite ?in_app_iff; cbn [In]; auto 10.
  - intros scale batch Hlen. unfold expected_of, blend.
    rewrite <- (map_fst_combine_eq _ _ Hlen) at 2. rewrite map_map.
    apply map_ext; intros [c w]; cbn [fst snd]. ring.
  - intros scale batch Hlen. unfold expected_of, blend.
    rewrite <- (map_snd_combine_eq _ _ Hlen) at 2.
    apply map_ext; intros [c w]; cbn [fst snd]. ring.
  - intros scale c c' w. unfold blend. ring.
Qed.

(** ** The weight clipper *)

Lemma clamp_in_range (lo hi x : R) : lo <= hi -> lo <= clamp lo hi x <= hi.
Proof.
  intros H. unfold clamp, Rmin, Rmax. repeat destruct Rle_dec; lra.
Qed.

Lemma tensor_clamp_in_range (lo hi : R) (x : Tensor) :
  lo <= hi -> in_range lo hi (tensor_clamp lo hi x).
Proof.
  intros H. unfold in_range. destruct x as [v|m]; cbn [tensor_clamp tensor_entries].
  - apply Forall_forall; intros e He. apply in_map_iff in He as (y & <- & _).
    apply clamp_in_range; assumption.
  - apply Forall_forall; intros e He. apply in_concat in He as (row & Hrow & He).
    unfold mmap in Hrow. apply in_map_iff in Hrow as (r & <- & _).
    apply in_map_iff in He as (y & <- & _). apply clamp_in_range; assumption.
Qed.

Lemma getattr_setattr (a : list (string * Tensor)) (name : string) (x y : Tensor) :
  getattr a name = Some y -> getattr (setattr a name x) name = Some x.
Proof.
  induction a as [|[k z] a IH]; cbn [getattr setattr]; [discriminate|].
  destruct (String.eqb k name) eqn:E; cbn [getattr]; rewrite E; auto.
Qed.

Lemma filter_setattr (a : list (string * Tensor)) (name : string) (x y : Tensor) :
  getattr a name = Some y ->
  filter (fun kx => negb (String.eqb (fst kx) name)) (setattr a name x)
  = filter (fun kx => negb (String.eqb (fst kx) name)) a.
Proof.
  induction a as [|[k z] a IH]; cbn [getattr setattr]; [discriminate|].
  destruct (String.eqb k name) eqn:E; cbn [filter fst]; rewrite E; cbn [negb]; auto.
  intros H. rewrite IH; auto.
Qed.

(** What one call of the clipper does to the tensors named [weight] below
    and at a module whose children are already given. *)
Lemma named_tensors_call (self : WeightClipper.t) (a : list (string * Tensor))
    (cs : list (string * Module)) :
  named_tensors "weight" (WeightClipper.call self (mkModule a cs))
  = concat (map (fun nc => named_tensors "weight" (snd nc)) cs)
    ++ match getattr a "weight" with
       | Some w => [tensor_clamp (-1.98) 1.98 w]
       | None => []
       end.
Proof.
  unfold WeightClipper.call; cbn [attrs children].
  destruct (getattr a "weight") as [w|] eqn:E; cbn [named_tensors].
  - rewrite (getattr_setattr _ _ _ _ E). reflexivity.
  - rewrite E. reflexivity.
Qed.

Lemma apply_clipper_in_range (self : WeightClipper.t) (m : Module) :
  Forall (in_range (-1.98) 1.98)
         (named_tensors "weight" (apply (WeightClipper.call self) m)).
Proof.
  induction m as [a cs IH] using Module_tree_ind.
  cbn [apply]. rewrite named_tensors_call. apply Forall_app; split.
  - apply Forall_concat. rewrite map_map; cbn [snd]. apply Forall_map.
    exact IH.
  - destruct (getattr a "weight"); constructor; auto.
    apply tensor_clamp_in_range; lra.
Qed.

Lemma other_tensors_call (self : WeightClipper.t) (path : list string)
    (a : list (string * Tensor)) (cs : list (string * Module)) :
  other_tensors "weight" path (WeightClipper.call self (mkModule a cs))
  = other_tensors "weight" path (mkModule a cs).
Proof.
  unfold WeightClipper.call; cbn [attrs children].
  destruct (getattr a "weight") as [w|] eqn:E; [|reflexivity].
  cbn [other_tensors]. rewrite (filter_setattr _ _ _ _ E). reflexivity.
Qed.

Lemma apply_clipper_other_tensors (self : WeightClipper.t) (m : Module) :
  forall path,
    other_tensors "weight" path (apply (WeightClipper.call self) m)
    = other_tensors "weight" path m.
Proof.
  induction m as [a cs IH] using Module_tree_ind. intros path.
  cbn [apply]. rewrite other_tensors_call. cbn [other_tensors]. f_equal. f_equal.
  rewrite map_map; cbn [fst snd]. apply map_ext_in; intros nc Hnc.
  rewrite Forall_forall in IH. apply IH; assumption.
Qed.

Lemma getattr_setattr_other (a : list (string * Tensor)) (name k : string) (x : Tensor) :
  String.eqb name k = false -> getattr (setattr a name x) k = getattr a k.
Proof.
  intros Hk. induction a as [|[k' z] a IH]; cbn [getattr setattr].
  - rewrite Hk. reflexivity.
  - destruct (String.eqb k' name) eqn:E; cbn [getattr].
    + apply String.eqb_eq in E; subst k'. rewrite Hk. reflexivity.
    + rewrite IH. reflexivity.
Qed.

Lemma train_on_batch_model (OptState : Type) optimizer_step model_call (wdl scale : R)
    train_log (batch : Batch.t) (st st' : TrainState OptState) :
  train_on_batch OptState optimizer_step model_call wdl scale train_log batch st = Ok st' ->
  model OptState st'
  = apply (WeightClipper.call WeightClipper.init)
      (snd (optimizer_step (optimizer OptState st) (lr OptState st) (model OptState st)
              batch (expected_of wdl scale batch))).
Proof.
  unfold train_on_batch. cbn [emit model optimizer lr].
  destruct (model_call (model OptState st) batch) as [prediction|]; [|discriminate].
  destruct (_ >? LOG_ITERS)%Z; intros [= <-]; reflexivity.
Qed.

Lemma epoch_end_model (OptState : Type) (save_epochs : Z) (train_id : string)
    (st st' : TrainState OptState) :
  epoch_end OptState save_epochs train_id st = Ok st' ->
  model OptState st' = model OptState st /\ optimizer OptState st' = optimizer OptState st.
Proof.
  unfold epoch_end. cbn [emit model optimizer lr scheduler iterations].
  destruct (iterations OptState st =? 0)%Z; [discriminate|].
  destruct (save_epochs =? 0)%Z; [discriminate|].
  destruct (_ mod save_epochs =? 0)%Z; cbn [emit model optimizer lr scheduler];
    destruct (scheduler_step _ _) as [[s l]|]; try discriminate;
    intros [= <-]; auto.
Qed.

(** The clipper replaces every tensor named [weight] of a module tree by
    its clamp, in place. *)
Lemma named_tensors_apply_clipper (self : WeightClipper.t) (m : Module) :
  named_tensors "weight" (apply (WeightClipper.call self) m)
  = map (tensor_clamp (-1.98) 1.98) (named_tensors "weight" m).
Proof.
  induction m as [a cs IH] using Module_tree_ind.
  cbn [apply]. rewrite named_tensors_call. cbn [named_tensors].
  rewrite map_app. f_equal.
  - rewrite map_map, concat_map, map_map. cbn [snd]. f_equal.
    apply map_ext_in. intros nc Hnc. rewrite Forall_forall in IH. apply IH, Hnc.
  - destruct (getattr a "weight"); reflexivity.
Qed.

(** C5: the model a training iteration leaves behind is the optimizer's
    result with the clipper applied to every module, and the clipper runs
    right after the optimizer step.  Every tensor named [weight] in it is
    the clamp to [-1.98, 1.98] of the tensor the optimizer left in its
    place, so all its entries lie in that range; so do those of every state
    the loop passes through after an iteration.  On a [torch.nn.Linear],
    and on the network [main] trains, the clipper clamps each layer's
    weight and returns everything else as it was. *)
Theorem weights_clipped_after_step :
  forall (OptState : Type) optimizer_step model_call (wdl scale : R)
         (epochs save_epochs : Z) (train_id : string) (train_log : option string),
    (forall m, Forall (in_range (-1.98) 1.98)
                 (named_tensors "weight"
                    (apply (WeightClipper.call WeightClipper.init) m))) /\
    (forall batch st st',
        train_on_batch OptState optimizer_step model_call wdl scale train_log batch st
        = Ok st' ->
        model OptState st'
        = apply (WeightClipper.call WeightClipper.init)
            (snd (optimizer_step (optimizer OptState st) (lr OptState st)
                    (model OptState st) batch (expected_of wdl scale batch))) /\
        (exists loss rest,
            trace OptState st'
            = trace OptState st
              ++ [ZeroGrad; Forward batch; Backward loss; OptimizerStep; ApplyClipper]
              ++ rest) /\
        Forall (in_range (-1.98) 1.98) (named_tensors "weight" (model OptState st')) /\
        named_tensors "weight" (model OptState st')
        = map (tensor_clamp (-1.98) 1.98)
            (named_tensors "weight"
               (snd (optimizer_step (optimizer OptState st) (lr OptState st)
                       (model OptState st) batch (expected_of wdl scale batch))))) /\
    (forall rd st st',
        train_iter OptState optimizer_step model_call wdl scale save_epochs train_id
          train_log rd st = Ok st' ->
        Forall (in_range (-1.98) 1.98) (named_tensors "weight" (model OptState st'))) /\
    (forall reads st,
        Forall (fun st' => Forall (in_range (-1.98) 1.98)
                             (named_tensors "weight" (model OptState st')))
               (iteration_states OptState optimizer_step model_call wdl scale epochs
                  save_epochs train_id train_log reads st)) /\
    (forall m,
        named_tensors "weight" (apply (WeightClipper.call WeightClipper.init) m)
        = map (tensor_clamp (-1.98) 1.98) (named_tensors "weight" m)) /\
    (forall l : Linear,
        apply (WeightClipper.call WeightClipper.init) (Linear_module l)
        = Linear_module (mkLinear (mmap (clamp (-1.98) 1.98) (weight l)) (bias l))) /\
    (forall net : SquaredPerspectiveNet.t,
        apply (WeightClipper.call WeightClipper.init) (SquaredPerspectiveNet_module net)
        = SquaredPerspectiveNet_module
            (SquaredPerspectiveNet.mk
               (mkLinear (mmap (clamp (-1.98) 1.98)
                            (weight (SquaredPerspectiveNet.perspective net)))
                         (bias (SquaredPerspectiveNet.perspective net)))
               (mkLinear (mmap (clamp (-1.98) 1.98)
                            (weight (SquaredPerspectiveNet.out net)))
                         (bias (SquaredPerspectiveNet.out net))))).
Proof.
  intros OptState optimizer_step model_call wdl scale epochs save_epochs train_id train_log.
  assert (Hbatch : forall batch st st',
             train_on_batch OptState optimizer_step model_call wdl scale train_log batch st
             = Ok st' ->
             Forall (in_range (-1.98) 1.98) (named_tensors "weight" (model OptState st'))).
  { intros batch st st' H. rewrite (train_on_batch_model _ _ _ _ _ _ _ _ _ H).
    apply apply_clipper_in_range. }
  assert (Hiter : forall rd st st',
             train_iter OptState optimizer_step model_call wdl scale save_epochs train_id
               train_log rd st = Ok st' ->
             Forall (in_range (-1.98) 1.98) (named_tensors "weight" (model OptState st'))).
  { intros [[|] batch] st st'; unfold train_iter.
    - destruct (epoch_end _ _ _ st) as [st1|]; [apply Hbatch | discriminate].
    - apply Hbatch. }
  split; [intros m; apply apply_clipper_in_range|].
  split; [|split; [exact Hiter|split; [|split; [|split]]]].
  - intros batch st st' H. split; [apply (train_on_batch_model _ _ _ _ _ _ _ _ _ H)|].
    split; [|split; [apply (Hbatch _ _ _ H)|]].
    + revert H. unfold train_on_batch. cbn [emit model optimizer lr trace].
      destruct (model_call (model OptState st) batch) as [prediction|]; [|discriminate].
      destruct (_ >? LOG_ITERS)%Z; intros [= <-]; cbn [emit trace];
        rewrite <- ?app_assoc; cbn [app]; do 2 eexists; reflexivity.
    + rewrite (train_on_batch_model _ _ _ _ _ _ _ _ _ H).
      apply named_tensors_apply_clipper.
  - intros reads; induction reads as [|rd reads IH]; intros st; cbn [iteration_states].
    + destruct (_ <? _)%Z; constructor.
    + destruct (_ <? _)%Z; [|constructor].
      destruct (train_iter _ _ _ _ _ _ _ _ rd st) as [st1|] eqn:E; constructor.
      * apply (Hiter _ _ _ E).
      * apply IH.
  - intros m. apply named_tensors_apply_clipper.
  - intros [w b]. reflexivity.
  - intros [[pw pb] [ow ob]]. reflexivity.
Qed.

(** ** The clipper's frame *)

Lemma clamp_above (lo hi x : R) : lo <= hi -> hi <= x -> clamp lo hi x = hi.
Proof. intros H1 H2. unfold clamp, Rmin, Rmax. repeat destruct Rle_dec; lra. Qed.

Lemma clamp_below (lo hi x : R) : lo <= hi -> x <= lo -> clamp lo hi x = lo.
Proof. intros H1 H2. unfold clamp, Rmin, Rmax. repeat destruct Rle_dec; lra. Qed.

(** C10: applying the clipper to a module tree changes no attribute other
    than the ones named [weight]: all other tensors, the bias of each module
    among them, are the same before and after, also when they lie outside
    [-1.98, 1.98].  A layer with weight [(5, -7)] and bias [3] comes out
    with weight [(1.98, -1.98)] and bias [3]. *)
Theorem clipper_changes_only_weight :
  (forall (self : WeightClipper.t) (m : Module) (path : list string),
      other_tensors "weight" path (apply (WeightClipper.call self) m)
      = other_tensors "weight" path m) /\
  (forall (self : WeightClipper.t) (m : Module) (name : string),
      name <> "weight"%string ->
      getattr (attrs (WeightClipper.call self m)) name = getattr (attrs m) name) /\
  (forall (self : WeightClipper.t) (m : Module),
      children (WeightClipper.call self m) = children m) /\
  apply (WeightClipper.call WeightClipper.init) (Linear_module wide_linear)
  = Linear_module (mkLinear [[1.98; -1.98]] [3]) /\
  (forall (OptState : Type) optimizer_step model_call (wdl scale : R) train_log
          (batch : Batch.t) (st st' : TrainState OptState),
      train_on_batch OptState optimizer_step model_call wdl scale train_log batch st
      = Ok st' ->
      other_tensors "weight" [] (model OptState st')
      = other_tensors "weight" []
          (snd (optimizer_step (optimizer OptState st) (lr OptState st)
                  (model OptState st) batch (expected_of wdl scale batch)))).
Proof.
  split; [intros; apply apply_clipper_other_tensors|].
  split; [|split; [|split]].
  - intros self [a cs] name Hname. unfold WeightClipper.call; cbn [attrs children].
    destruct (getattr a "weight") as [w|]; cbn [attrs]; [|reflexivity].
    apply getattr_setattr_other. apply String.eqb_neq. congruence.
  - intros self [a cs]. unfold WeightClipper.call; cbn [attrs children].
    destruct (getattr a "weight"); reflexivity.
  - unfold Linear_module, wide_linear; cbn [weight bias apply map].
    unfold WeightClipper.call; cbn [attrs children getattr setattr String.eqb
      Ascii.eqb Bool.eqb tensor_clamp mmap map].
    rewrite (clamp_above (-1.98) 1.98 5), (clamp_below (-1.98) 1.98 (-7)) by lra.
    reflexivity.
  - intros OptState optimizer_step model_call wdl scale train_log batch st st' H.
    rewrite (train_on_batch_model _ _ _ _ _ _ _ _ _ H).
    apply apply_clipper_other_tensors.
Qed.

(** ** Epoch boundaries *)



(** ** The exponential schedule *)

Lemma train_on_batch_schedule (OptState : Type) optimizer_step model_call (wdl scale : R)
    train_log (batch : Batch.t) (st st' : TrainState OptState) :
  train_on_batch OptState optimizer_step model_call wdl scale train_log batch st = Ok st' ->
  epoch OptState st' = epoch OptState st /\
  scheduler OptState st' = scheduler OptState st /\
  lr OptState st' = lr OptState st.
Proof.
  unfold train_on_batch. cbn [emit model optimizer lr].
  destruct (model_call (model OptState st) batch) as [prediction|]; [|discriminate].
  destruct (_ >? LOG_ITERS)%Z; intros [= <-]; auto.
Qed.

Lemma epoch_end_schedule (OptState : Type) (save_epochs : Z) (train_id : string)
    (st st' : TrainState OptState) :
  epoch_end OptState save_epochs train_id st = Ok st' ->
  epoch OptState st' = (epoch OptState st + 1)%Z /\
  scheduler_step (scheduler OptState st) (lr OptState st)
  = Some (scheduler OptState st', lr OptState st').
Proof.
  unfold epoch_end. cbn [emit model optimizer lr scheduler iterations].
  destruct (iterations OptState st =? 0)%Z; [discriminate|].
  destruct (save_epochs =? 0)%Z; [discriminate|].
  destruct (_ mod save_epochs =? 0)%Z; cbn [emit model optimizer lr scheduler];
    destruct (scheduler_step _ _) as [[s l]|]; try discriminate;
    intros [= <-]; auto.
Qed.

(** The scheduler is stepped once in an iteration that crosses an epoch
    boundary and not at all in any other. *)
Lemma train_iter_schedule (OptState : Type) optimizer_step model_call (wdl scale : R)
    (save_epochs : Z) (train_id : string) train_log (new_epoch : bool) (batch : Batch.t)
    (st st' : TrainState OptState) :
  train_iter OptState optimizer_step model_call wdl scale save_epochs train_id train_log
    (new_epoch, batch) st = Ok st' ->
  if new_epoch
  then epoch OptState st' = (epoch OptState st + 1)%Z /\
       scheduler_step (scheduler OptState st) (lr OptState st)
       = Some (scheduler OptState st', lr OptState st')
  else epoch OptState st' = epoch OptState st /\
       scheduler OptState st' = scheduler OptState st /\
       lr OptState st' = lr OptState st.
Proof.
  unfold train_iter. destruct new_epoch.
  - destruct (epoch_end _ _ _ st) as [st1|] eqn:E; [|discriminate].
    intros H. apply epoch_end_schedule in E as (He & Hs).
    apply train_on_batch_schedule in H as (He' & Hs' & Hl').
    rewrite He', Hs', Hl'. auto.
  - apply train_on_batch_schedule.
Qed.






(** ** The entry point *)

(** What [main_setup] returns for a command line without [--resume]. *)
Lemma main_setup_without_resume init_linear torch_load (args : Args.t)
    (train_id : string) (scale : R) (data_root : string) (lr : R)
    (scheduler : Scheduler) (epochs : Z) :
  Args.train_id args = Some train_id ->
  Args.scale args = Some scale ->
  Args.resume args = None ->
  Args.data_root args = Some data_root ->
  Args.lr args = Some lr ->
  0 <= lr ->
  select_scheduler args lr = Ok scheduler ->
  Args.epochs args = Some epochs ->
  main_setup init_linear torch_load args
  = Ok (mkCall (Net_SquaredPerspectiveNet (SquaredPerspectiveNet_new init_linear 768))
          BOARD_768 (Args.batch_size args) lr scheduler (Args.wdl args) scale epochs
          (Args.save_epochs args) train_id (Some train_id)).
Proof.
  intros Hid Hscale Hres Hroot Hlr Hpos Hsel Hep. unfold main_setup.
  rewrite Hid, Hscale, Hres, Hroot, Hlr.
  destruct (Rlt_dec lr 0) as [Hneg|_]; [lra|].
  rewrite Hsel, Hep. reflexivity.
Qed.

(** What [main_setup] returns when the checkpoint of [--resume] loads. *)
Lemma main_setup_with_resume init_linear torch_load (args : Args.t)
    (train_id : string) (scale : R) (path : string)
    (state net : SquaredPerspectiveNet.t) (data_root : string) (lr : R)
    (scheduler : Scheduler) (epochs : Z) :
  Args.train_id args = Some train_id ->
  Args.scale args = Some scale ->
  Args.resume args = Some path ->
  torch_load path = Some state ->
  load_state_dict (SquaredPerspectiveNet_new init_linear 768) state = Some net ->
  Args.data_root args = Some data_root ->
  Args.lr args = Some lr ->
  0 <= lr ->
  select_scheduler args lr = Ok scheduler ->
  Args.epochs args = Some epochs ->
  main_setup init_linear torch_load args
  = Ok (mkCall (Net_SquaredPerspectiveNet net) BOARD_768 (Args.batch_size args) lr
          scheduler (Args.wdl args) scale epochs (Args.save_epochs args) train_id
          (Some train_id)).
Proof.
  intros Hid Hscale Hres Hload Hsd Hroot Hlr Hpos Hsel Hep. unfold main_setup.
  rewrite Hid, Hscale, Hres, Hload, Hsd, Hroot, Hlr.
  destruct (Rlt_dec lr 0) as [Hneg|_]; [lra|].
  rewrite Hsel, Hep. reflexivity.
Qed.

(** C8: the value given after [--wdl-drop] is never read.  [main] prepares
    the same call of [train] and performs the same run whatever it is, and
    for [--wdl 0.0 --wdl-drop 1.0 --lr-drop 1] the blend weight handed to
    [train], which uses it for every batch, is 0. *)
Theorem wdl_drop_is_ignored :
  (forall init_linear torch_load (x : option R) (args : Args.t),
      main_setup init_linear torch_load (set_wdl_drop x args)
      = main_setup init_linear torch_load args) /\
  (forall init_linear torch_load (OptState : Type) AdamW optimizer_step
          (x : option R) (args : Args.t) (reads : list (bool * Batch.t)),
      main init_linear torch_load OptState AdamW optimizer_step (set_wdl_drop x args) reads
      = main init_linear torch_load OptState AdamW optimizer_step args reads) /\
  (forall init_linear torch_load,
      exists call,
        main_setup init_linear torch_load drop_args = Ok call /\
        call_scheduler call = StepLR 1 0.1 0 /\
        call_wdl call = 0).
Proof.
  assert (Hsetup : forall init_linear torch_load x args,
             main_setup init_linear torch_load (set_wdl_drop x args)
             = main_setup init_linear torch_load args).
  { intros init_linear torch_load x args. reflexivity. }
  split; [exact Hsetup|]. split.
  - intros. unfold main. rewrite Hsetup. reflexivity.
  - intros init_linear torch_load. eexists. split.
    + apply (main_setup_without_resume init_linear torch_load drop_args "net" 400 "data"
               0.001 (StepLR 1 0.1 0) 2); try reflexivity. lra.
    + split; reflexivity.
Qed.

Lemma same_rows_shape (a b : Matrix) (n : nat) :
  same_rows a b = true ->
  Forall (fun row => length row = n) a ->
  length b = length a /\ Forall (fun row => length row = n) b.
Proof.
  revert b. induction a as [|ra a IH]; intros [|rb b] H Ha; cbn [same_rows] in H;
    try discriminate.
  - split; [reflexivity|constructor].
  - apply andb_prop in H as [Hr H]. apply Nat.eqb_eq in Hr.
    inversion Ha as [|? ? Hra Ha']; subst.
    destruct (IH b H Ha') as [Hlen Hb]. split; [cbn [length]; congruence|].
    constructor; [symmetry; exact Hr|exact Hb].
Qed.

Lemma same_shape_Linear_shape (i o : nat) (l l' : Linear) :
  same_shape l l' = true -> Linear_shape i o l -> Linear_shape i o l'.
Proof.
  unfold same_shape, Linear_shape. intros H (Hw & Hrows & Hb).
  apply andb_prop in H as [Hr Hbias]. apply Nat.eqb_eq in Hbias.
  destruct (same_rows_shape _ _ _ Hr Hrows) as [Hlen Hrows'].
  split; [congruence|]. split; [exact Hrows'|congruence].
Qed.

Lemma Linear_shape_same_shape (i o : nat) (l l' : Linear) :
  Linear_shape i o l -> Linear_shape i o l' -> same_shape l l' = true.
Proof.
  unfold same_shape, Linear_shape. intros (Hw & Hrows & Hb) (Hw' & Hrows' & Hb').
  apply andb_true_intro. split; [|apply Nat.eqb_eq; congruence].
  rewrite <- Hw' in Hw. clear Hw' Hb Hb'.
  revert Hw Hrows'. generalize (weight l') as b.
  induction Hrows as [|ra a Hra _ IH]; intros [|rb b] Hlen Hb; cbn [length] in Hlen;
    try discriminate; [reflexivity|].
  inversion Hb as [|? ? Hrb Hb']; subst. cbn [same_rows].
  apply andb_true_intro. split; [apply Nat.eqb_eq; congruence|].
  apply IH; [congruence|exact Hb'].
Qed.

(** [load_state_dict] hands over the file's tensors, and only in the shapes
    of the module they are loaded into. *)
Lemma load_state_dict_shape (model state net : SquaredPerspectiveNet.t)
    (i o i' o' : nat) :
  load_state_dict model state = Some net ->
  Linear_shape i o (SquaredPerspectiveNet.perspective model) ->
  Linear_shape i' o' (SquaredPerspectiveNet.out model) ->
  net = state /\
  Linear_shape i o (SquaredPerspectiveNet.perspective net) /\
  Linear_shape i' o' (SquaredPerspectiveNet.out net).
Proof.
  unfold load_state_dict. intros H Hp Ho.
  destruct (same_shape _ _ && same_shape _ _) eqn:E; [|discriminate].
  injection H as <-. apply andb_prop in E as [Ep Eo].
  split; [reflexivity|].
  split; [exact (same_shape_Linear_shape _ _ _ _ Ep Hp)
         |exact (same_shape_Linear_shape _ _ _ _ Eo Ho)].
Qed.

(** C9: whenever [main] gets as far as training, the model is a
    [SquaredPerspectiveNet] in the shapes of [SquaredPerspectiveNet(768)]:
    a feature transformer [Linear(768, 768)], of output size 768, and an
    output layer [Linear(1536, 1)].  Without [--resume] its parameters are
    the initial ones; with it they are the tensors of the file, which
    [load_state_dict] takes in these shapes only.  The encoding declared to
    the batch loader is BOARD_768, whatever the arguments are.
    [torch.nn.Linear] is taken to build the shapes it is asked for. *)
Theorem main_trains_squared_board768 :
  forall init_linear torch_load (args : Args.t) (call : TrainCall),
    (forall i o, Linear_shape i o (init_linear i o)) ->
    main_setup init_linear torch_load args = Ok call ->
    (exists net,
        call_model call = Net_SquaredPerspectiveNet net /\
        Linear_shape 768 768 (SquaredPerspectiveNet.perspective net) /\
        Linear_shape 1536 1 (SquaredPerspectiveNet.out net) /\
        (Args.resume args = None ->
         net = SquaredPerspectiveNet.mk (init_linear 768 768) (init_linear 1536 1))%nat /\
        (forall path, Args.resume args = Some path -> torch_load path = Some net)) /\
    call_feature_set call = BOARD_768 /\
    input_feature_set (call_model call) = BOARD_768.
Proof.
  intros init_linear torch_load args call Hinit. unfold main_setup.
  destruct (Args.train_id args); [|discriminate].
  destruct (Args.scale args); [|discriminate].
  destruct (Args.resume args) as [path|] eqn:Hres.
  - destruct (torch_load path) as [state|] eqn:Hload; [|discriminate].
    destruct (load_state_dict _ state) as [net|] eqn:Hsd; [|discriminate].
    destruct (Args.data_root args); [|discriminate].
    destruct (Args.lr args) as [lr|]; [|discriminate].
    destruct (Rlt_dec lr 0); [discriminate|].
    destruct (select_scheduler args lr); [|discriminate].
    destruct (Args.epochs args); [|discriminate].
    intros [= <-]; cbn [call_model call_feature_set input_feature_set].
    split; [|split; reflexivity].
    apply (load_state_dict_shape _ _ _ 768 768 1536 1) in Hsd as (-> & Hp & Ho);
      [|apply Hinit|apply (Hinit (768 * 2)%nat 1%nat)].
    exists state. split; [reflexivity|]. split; [exact Hp|]. split; [exact Ho|].
    split; [discriminate|]. intros path' [= <-]. exact Hload.
  - destruct (Args.data_root args); [|discriminate].
    destruct (Args.lr args) as [lr|]; [|discriminate].
    destruct (Rlt_dec lr 0); [discriminate|].
    destruct (select_scheduler args lr); [|discriminate].
    destruct (Args.epochs args); [|discriminate].
    intros [= <-]; cbn [call_model call_feature_set input_feature_set].
    split; [|split; reflexivity].
    eexists. split; [reflexivity|].
    split; [apply Hinit|]. split; [apply (Hinit (768 * 2)%nat 1%nat)|].
    split; [intros _; reflexivity|discriminate].
Qed.

(** ** The statements above at sample inputs *)

Lemma sample_perspective_shape : Linear_shape 768 2 sample_perspective.
Proof.
  unfold Linear_shape, sample_perspective; cbn [weight bias length].
  repeat split; auto.
Qed.

Lemma well_formed_single (n dim : nat) (f : Z) (v : R) :
  (0 < n)%nat -> (0 <= f < Z.of_nat dim)%Z -> well_formed n dim [0%Z] [f] [v].
Proof.
  intros Hn Hf. unfold well_formed. repeat split; auto; repeat constructor; lia.
Qed.

Lemma perspective_pov_is_gather_witness :
  (exists m,
      perspective_pov sample_perspective [0%Z; 5%Z] feature5_batch = Some m /\
      has_shape 1 2 m /\
      m = gathered (weight_row sample_perspective)
            (fun j => nth j (bias sample_perspective) 0) ([0%Z], [5%Z]) [1] 1 2) /\
  perspective_pov sample_perspective [0%Z; 5%Z] feature5_batch
  = Some [[weight_row sample_perspective 5 0; weight_row sample_perspective 5 1]] /\
  PerspectiveNet.forward (PerspectiveNet.mk sample_perspective first_of_four_out)
    feature5_batch
  = Some (mmap sigmoid
            (linear first_of_four_out
               (mmap (clamp 0 1)
                  (cat_dim1
                     (gathered (weight_row sample_perspective)
                        (fun j => nth j (bias sample_perspective) 0)
                        ([0%Z], [5%Z]) [1] 1 2)
                     (gathered (weight_row sample_perspective)
                        (fun j => nth j (bias sample_perspective) 0)
                        ([0%Z], [5%Z]) [1] 1 2))))).
Proof.
  destruct perspective_pov_is_gather as (Hpov & Hrow & Hforward).
  split; [|split].
  - apply (Hpov sample_perspective 2%nat [0%Z; 5%Z] [0%Z] [5%Z] feature5_batch).
    + exact sample_perspective_shape.
    + reflexivity.
    + apply (well_formed_single 1 768 5 1); [lia | split; [lia | reflexivity]].
  - apply (Hrow sample_perspective [0%Z; 5%Z] [0] [0]).
    + exact sample_perspective_shape.
    + reflexivity.
  - apply (Hforward sample_perspective first_of_four_out 2%nat feature5_batch
             [0%Z] [5%Z] [0%Z] [5%Z]).
    + exact sample_perspective_shape.
    + repeat split; repeat constructor.
    + reflexivity.
    + reflexivity.
    + apply (well_formed_single 1 768 5 1); [lia | split; [lia | reflexivity]].
    + apply (well_formed_single 1 768 5 1); [lia | split; [lia | reflexivity]].
Defined.

Lemma factoriser_lookup_mod_base_witness :
  factoriser_indices 640 ([0%Z], [3 * 640 + 17]%Z) = ([0%Z], [17%Z]) /\
  HalfKPNet.forward sample_HalfKPNet (bucket3_batch 640)
  = Some (clipped_head (HalfKPNet.out sample_HalfKPNet)
            (gathered (fun f j => weight_row (HalfKPNet.ft sample_HalfKPNet) f j
                                  + weight_row (HalfKPNet.fft sample_HalfKPNet) (f mod 640) j)
               (fun j => nth j (bias (HalfKPNet.ft sample_HalfKPNet)) 0
                         + nth j (bias (HalfKPNet.fft sample_HalfKPNet)) 0)
               ([0%Z], [3 * 640 + 17]%Z) [1] 1 1)
            (gathered (fun f j => weight_row (HalfKPNet.ft sample_HalfKPNet) f j
                                  + weight_row (HalfKPNet.fft sample_HalfKPNet) (f mod 640) j)
               (fun j => nth j (bias (HalfKPNet.ft sample_HalfKPNet)) 0
                         + nth j (bias (HalfKPNet.fft sample_HalfKPNet)) 0)
               ([0%Z], [3 * 640 + 17]%Z) [1] 1 1)) /\
  HalfKANet.forward sample_HalfKANet (bucket3_batch 768)
  = Some (clipped_head (HalfKANet.out sample_HalfKANet)
            (gathered (fun f j => weight_row (HalfKANet.ft sample_HalfKANet) f j
                                  + weight_row (HalfKANet.fft sample_HalfKANet) (f mod 768) j)
               (fun j => nth j (bias (HalfKANet.ft sample_HalfKANet)) 0
                         + nth j (bias (HalfKANet.fft sample_HalfKANet)) 0)
               ([0%Z], [3 * 768 + 17]%Z) [1] 1 1)
            (gathered (fun f j => weight_row (HalfKANet.ft sample_HalfKANet) f j
                                  + weight_row (HalfKANet.fft sample_HalfKANet) (f mod 768) j)
               (fun j => nth j (bias (HalfKANet.ft sample_HalfKANet)) 0
                         + nth j (bias (HalfKANet.fft sample_HalfKANet)) 0)
               ([0%Z], [3 * 768 + 17]%Z) [1] 1 1)).
Proof.
  destruct factoriser_lookup_mod_base as (Hkp & _ & _ & Hfkp & Hfka).
  split; [apply (Hkp [0%Z] 3%Z 17%Z); lia|].
  split.
  - apply (Hfkp sample_HalfKPNet 1%nat (bucket3_batch 640) [0%Z] [3 * 640 + 17]%Z
             [0%Z] [3 * 640 + 17]%Z).
    + apply zero_linear_shape.
    + apply unit_bias_linear_shape.
    + repeat split; repeat constructor.
    + reflexivity.
    + reflexivity.
    + apply (well_formed_single 1 40960 (3 * 640 + 17) 1); [lia | split; [lia | reflexivity]].
    + apply (well_formed_single 1 40960 (3 * 640 + 17) 1); [lia | split; [lia | reflexivity]].
  - apply (Hfka sample_HalfKANet 1%nat (bucket3_batch 768) [0%Z] [3 * 768 + 17]%Z
             [0%Z] [3 * 768 + 17]%Z).
    + apply zero_linear_shape.
    + apply unit_bias_linear_shape.
    + repeat split; repeat constructor.
    + reflexivity.
    + reflexivity.
    + apply (well_formed_single 1 49152 (3 * 768 + 17) 1); [lia | split; [lia | reflexivity]].
    + apply (well_formed_single 1 49152 (3 * 768 + 17) 1); [lia | split; [lia | reflexivity]].
Defined.

Lemma fold_with_bias_preserves_forward_witness :
  forward_without_factoriser 49152
    (fold_factoriser_with_bias 768 (HalfKANet.ft sample_HalfKANet)
       (HalfKANet.fft sample_HalfKANet))
    (HalfKANet.out sample_HalfKANet) (bucket3_batch 768)
  = HalfKANet.forward sample_HalfKANet (bucket3_batch 768) /\
  forward_without_factoriser 40960
    (fold_factoriser_with_bias 640 (HalfKPNet.ft sample_HalfKPNet)
       (HalfKPNet.fft sample_HalfKPNet))
    (HalfKPNet.out sample_HalfKPNet) (bucket3_batch 640)
  = HalfKPNet.forward sample_HalfKPNet (bucket3_batch 640).
Proof.
  split.
  - apply (proj1 fold_with_bias_preserves_forward sample_HalfKANet 1%nat).
    + apply zero_linear_shape.
    + apply unit_bias_linear_shape.
  - apply (proj2 fold_with_bias_preserves_forward sample_HalfKPNet 1%nat).
    + apply zero_linear_shape.
    + apply unit_bias_linear_shape.
Defined.

Lemma target_blending_witness :
  (exists st',
      train_on_batch unit wide_optimizer half_model 0 400 None labelled_batch
        (running_state (Linear_module wide_linear) 1 (ExponentialLR 1 0)) = Ok st' /\
      In (Backward (mse [1 / 2; 1 / 2] (expected_of 0 400 labelled_batch)))
         (trace unit st')) /\
  expected_of 0 400 labelled_batch = map (fun c => sigmoid (c / 400)) [100; -50] /\
  expected_of 1 400 labelled_batch = [1; 0].
Proof.
  destruct target_blending as (_ & Htrain & Hcp & Hwdl & _).
  split; [|split].
  - apply (Htrain unit wide_optimizer half_model 0 400 None labelled_batch
             (running_state (Linear_module wide_linear) 1 (ExponentialLR 1 0))
             [1 / 2; 1 / 2]).
    reflexivity.
  - apply (Hcp 400 labelled_batch). reflexivity.
  - apply (Hwdl 400 labelled_batch). reflexivity.
Defined.

Lemma weights_clipped_after_step_witness :
  exists st',
    train_iter unit wide_optimizer half_model 0 400 100 "net" None
      (false, labelled_batch)
      (running_state (Linear_module wide_linear) 1 (ExponentialLR 1 0)) = Ok st' /\
    Forall (in_range (-1.98) 1.98) (named_tensors "weight" (model unit st')) /\
    named_tensors "weight" (model unit st')
    = [tensor_clamp (-1.98) 1.98 (T2 (weight wide_linear))].
Proof.
  destruct (weights_clipped_after_step unit wide_optimizer half_model 0 400 2 100
              "net" None) as (_ & Hbatch & Hiter & _).
  eexists. split; [reflexivity|]. split.
  - apply (Hiter (false, labelled_batch)
             (running_state (Linear_module wide_linear) 1 (ExponentialLR 1 0))).
    reflexivity.
  - destruct (Hbatch labelled_batch
                (running_state (Linear_module wide_linear) 1 (ExponentialLR 1 0)) _
                eq_refl) as (_ & _ & _ & Hclamp).
    rewrite Hclamp. reflexivity.
Defined.

Lemma clipper_changes_only_weight_witness :
  getattr (attrs (WeightClipper.call WeightClipper.init (Linear_module wide_linear))) "bias"
  = Some (T1 [3]) /\
  exists st',
    train_on_batch unit wide_optimizer half_model 0 400 None labelled_batch
      (running_state (Linear_module wide_linear) 1 (ExponentialLR 1 0)) = Ok st' /\
    other_tensors "weight" [] (model unit st')
    = [(["out"%string], "bias"%string, T1 [3])].
Proof.
  destruct clipper_changes_only_weight as (_ & Hattr & _ & _ & Htrain).
  split.
  - rewrite (Hattr WeightClipper.init (Linear_module wide_linear) "bias"%string).
    + reflexivity.
    + discriminate.
  - eexists. split; [reflexivity|].
    rewrite (Htrain unit wide_optimizer half_model 0 400 None labelled_batch
               (running_state (Linear_module wide_linear) 1 (ExponentialLR 1 0)) _ eq_refl).
    reflexivity.
Defined.



(** ** A run that reaches the epoch limit *)

Lemma train_loop_cons (OptState : Type) optimizer_step model_call (wdl scale : R)
    (epochs save_epochs : Z) (train_id : string) train_log
    (rd : bool * Batch.t) (reads : list (bool * Batch.t))
    (st st1 : TrainState OptState) (r : result (TrainState OptState) (TrainState OptState)) :
  (epoch OptState st < epochs)%Z ->
  train_iter OptState optimizer_step model_call wdl scale save_epochs train_id train_log
    rd st = Ok st1 ->
  train_loop OptState optimizer_step model_call wdl scale epochs save_epochs train_id
    train_log reads st1 = r ->
  train_loop OptState optimizer_step model_call wdl scale epochs save_epochs train_id
    train_log (rd :: reads) st = r.
Proof.
  intros Hlt Hiter Hrest. cbn [train_loop].
  apply Z.ltb_lt in Hlt. rewrite Hlt, Hiter. exact Hrest.
Qed.





Lemma main_trains_squared_board768_witness :
  exists call,
    main_setup zero_linear stored_checkpoint resume_args = Ok call /\
    call_model call = Net_SquaredPerspectiveNet stored_net /\
    Linear_shape 768 768 (SquaredPerspectiveNet.perspective stored_net) /\
    Linear_shape 1536 1 (SquaredPerspectiveNet.out stored_net) /\
    call_feature_set call = BOARD_768.
Proof.
  assert (Hsd : load_state_dict (SquaredPerspectiveNet_new zero_linear 768) stored_net
                = Some stored_net).
  { unfold load_state_dict, SquaredPerspectiveNet_new, stored_net.
    cbn [SquaredPerspectiveNet.perspective SquaredPerspectiveNet.out].
    rewrite (Linear_shape_same_shape 768 768), (Linear_shape_same_shape (768 * 2) 1);
      auto using zero_linear_shape, unit_bias_linear_shape. }
  pose proof (main_setup_with_resume zero_linear stored_checkpoint resume_args "net" 400
                "nn/net_100" stored_net stored_net "data" 0.001 (ExponentialLR 1.0 0) 2
                eq_refl eq_refl eq_refl eq_refl Hsd eq_refl eq_refl ltac:(lra) eq_refl
                eq_refl) as Hsetup.
  eexists. split; [exact Hsetup|].
  destruct (main_trains_squared_board768 zero_linear stored_checkpoint resume_args _
              zero_linear_shape Hsetup)
    as ((net & Hnet & Hp & Ho & _ & Hfile) & Hset & _).
  specialize (Hfile _ eq_refl). injection Hfile as <-.
  split; [exact Hnet|]. split; [exact Hp|]. split; [exact Ho|exact Hset].
Defined.

(** * Further properties of the networks *)

Lemma sigmoid_range (x : R) : 0 < sigmoid x < 1.
Proof.
  unfold sigmoid. pose proof (exp_pos (- x)) as He.
  split.
  - apply Rinv_0_lt_compat. lra.
  - rewrite <- Rinv_1 at 2. apply Rinv_lt_contravar; lra.
Qed.

Lemma linear_row_length (w : Matrix) (b : Vector) (x : list R) :
  length (linear_row w b x) = Nat.min (length w) (length b).
Proof.
  revert b; induction w as [|wj w IH]; intros [|bj b]; cbn [linear_row length Nat.min]; auto.
Qed.

Lemma cat_dim1_length (a b : Matrix) :
  length (cat_dim1 a b) = Nat.min (length a) (length b).
Proof.
  revert b; induction a as [|ra a IH]; intros [|rb b]; cbn [cat_dim1 length Nat.min]; auto.
Qed.

Lemma madd_length (a b : Matrix) :
  length (madd a b) = Nat.min (length a) (length b).
Proof.
  revert b; induction a as [|ra a IH]; intros [|rb b]; cbn [madd length Nat.min]; auto.
Qed.

Lemma to_dense_length (s : SparseTensor) : length (to_dense s) = fst (sp_shape s).
Proof. unfold to_dense. rewrite length_map, length_seq. reflexivity. Qed.

Lemma perspective_pov_length (perspective : Linear) (idx : list Z) (batch : Batch.t)
    (m : Matrix) :
  perspective_pov perspective idx batch = Some m -> length m = Batch.size batch.
Proof.
  unfold perspective_pov. destruct (reshape2_T idx) as [ind|]; [|discriminate].
  destruct (sparse_coo_tensor ind _ _) as [s|] eqn:E; [|discriminate].
  intros [= <-]. apply sparse_coo_tensor_Some in E as (-> & _).
  unfold linear. rewrite length_map, to_dense_length. reflexivity.
Qed.

Lemma factorised_ft_length (dim base : nat) (ft fft : Linear) (idx : list Z)
    (batch : Batch.t) (m : Matrix) :
  factorised_ft dim base ft fft idx batch = Some m -> length m = Batch.size batch.
Proof.
  unfold factorised_ft. destruct (reshape2_T idx) as [ind|]; [|discriminate].
  destruct (sparse_coo_tensor ind _ _) as [s|] eqn:E; [|discriminate].
  destruct (sparse_coo_tensor (factoriser_indices _ ind) _ _) as [v|] eqn:Ev; [|discriminate].
  intros [= <-]. apply sparse_coo_tensor_Some in E as (-> & _).
  apply sparse_coo_tensor_Some in Ev as (-> & _).
  unfold linear. rewrite madd_length, !length_map, !to_dense_length. cbn [sp_shape fst].
  apply Nat.min_id.
Qed.

(** The last two stages of every forward: one output per row, squashed by
    the logistic function. *)
Lemma sigmoid_head_column (out : Linear) (hidden : Matrix) :
  single_output out ->
  probability_column (length hidden) (mmap sigmoid (linear out hidden)).
Proof.
  intros (Hw & Hb). unfold probability_column, has_shape, mmap, linear.
  rewrite !length_map. split; [split; [reflexivity|]|].
  - apply Forall_forall; intros row Hrow.
    apply in_map_iff in Hrow as (r & <- & Hr). apply in_map_iff in Hr as (x & <- & _).
    rewrite length_map, linear_row_length, Hw, Hb. reflexivity.
  - apply Forall_forall; intros row Hrow.
    apply in_map_iff in Hrow as (r & <- & _).
    apply Forall_forall; intros p Hp. apply in_map_iff in Hp as (x & <- & _).
    apply sigmoid_range.
Qed.

(** Over the reals, whenever a network accepts a batch, its prediction is
    a column with one row per example and one entry per row, every entry
    strictly between 0 and 1. *)
Lemma forward_column_over_reals :
  (forall (net : PerspectiveNet.t) (batch : Batch.t) (m : Matrix),
      single_output (PerspectiveNet.out net) ->
      PerspectiveNet.forward net batch = Some m ->
      probability_column (Batch.size batch) m) /\
  (forall (net : SquaredPerspectiveNet.t) (batch : Batch.t) (m : Matrix),
      single_output (SquaredPerspectiveNet.out net) ->
      SquaredPerspectiveNet.forward net batch = Some m ->
      probability_column (Batch.size batch) m) /\
  (forall (net : DeepPerspectiveNet.t) (batch : Batch.t) (m : Matrix),
      single_output (DeepPerspectiveNet.out net) ->
      DeepPerspectiveNet.forward net batch = Some m ->
      probability_column (Batch.size batch) m) /\
  (forall (net : HalfKPNet.t) (batch : Batch.t) (m : Matrix),
      single_output (HalfKPNet.out net) ->
      HalfKPNet.forward net batch = Some m ->
      probability_column (Batch.size batch) m) /\
  (forall (net : HalfKANet.t) (batch : Batch.t) (m : Matrix),
      single_output (HalfKANet.out net) ->
      HalfKANet.forward net batch = Some m ->
      probability_column (Batch.size batch) m).
Proof.
  assert (Hcat : forall (f : Matrix -> Matrix) a b n,
             (forall x, length (f x) = length x) ->
             length a = n -> length b = n -> length (f (cat_dim1 a b)) = n).
  { intros f a b n Hf Ha Hb. rewrite Hf, cat_dim1_length, Ha, Hb. apply Nat.min_id. }
  split; [|split; [|split; [|split]]].
  - intros net batch m Hout. unfold PerspectiveNet.forward.
    destruct (perspective_pov _ (Batch.stm_indices batch) batch) as [stm|] eqn:Es;
      [|discriminate].
    destruct (perspective_pov _ (Batch.nstm_indices batch) batch) as [nstm|] eqn:En;
      [|discriminate].
    intros [= <-]. apply perspective_pov_length in Es, En.
    rewrite <- (Hcat (mmap (clamp 0 1)) stm nstm _ (fun x => length_map _ x) Es En) at 1.
    apply sigmoid_head_column; assumption.
  - intros net batch m Hout. unfold SquaredPerspectiveNet.forward.
    destruct (perspective_pov _ (Batch.stm_indices batch) batch) as [stm|] eqn:Es;
      [|discriminate].
    destruct (perspective_pov _ (Batch.nstm_indices batch) batch) as [nstm|] eqn:En;
      [|discriminate].
    intros [= <-]. apply perspective_pov_length in Es, En.
    rewrite <- (Hcat (fun x => mmap (fun a => a * a) (mmap (clamp 0 1) x)) stm nstm _
                  (fun x => eq_trans (length_map _ _) (length_map _ x)) Es En) at 1.
    apply sigmoid_head_column; assumption.
  - intros net batch m Hout. unfold DeepPerspectiveNet.forward.
    destruct (perspective_pov _ (Batch.stm_indices batch) batch) as [stm|] eqn:Es;
      [|discriminate].
    destruct (perspective_pov _ (Batch.nstm_indices batch) batch) as [nstm|] eqn:En;
      [|discriminate].
    intros [= <-]. apply perspective_pov_length in Es, En.
    rewrite <- (Hcat (fun x => mmap (clamp 0 1)
                                (linear (DeepPerspectiveNet.l2 net)
                                   (mmap (fun a => a * a) (mmap (clamp 0 1) x))))
                  stm nstm _
                  (fun x => eq_trans (length_map _ _)
                              (eq_trans (length_map _ _)
                                 (eq_trans (length_map _ _) (length_map _ x)))) Es En) at 1.
    apply sigmoid_head_column; assumption.
  - intros net batch m Hout. unfold HalfKPNet.forward, clipped_head.
    destruct (factorised_ft _ _ _ _ (Batch.stm_indices batch) batch) as [stm|] eqn:Es;
      [|discriminate].
    destruct (factorised_ft _ _ _ _ (Batch.nstm_indices batch) batch) as [nstm|] eqn:En;
      [|discriminate].
    intros [= <-]. apply factorised_ft_length in Es, En.
    rewrite <- (Hcat (mmap (clamp 0 1)) stm nstm _ (fun x => length_map _ x) Es En) at 1.
    apply sigmoid_head_column; assumption.
  - intros net batch m Hout. unfold HalfKANet.forward, clipped_head.
    destruct (factorised_ft _ _ _ _ (Batch.stm_indices batch) batch) as [stm|] eqn:Es;
      [|discriminate].
    destruct (factorised_ft _ _ _ _ (Batch.nstm_indices batch) batch) as [nstm|] eqn:En;
      [|discriminate].
    intros [= <-]. apply factorised_ft_length in Es, En.
    rewrite <- (Hcat (mmap (clamp 0 1)) stm nstm _ (fun x => length_map _ x) Es En) at 1.
    apply sigmoid_head_column; assumption.
Qed.

Lemma probability_column_unit (rows : nat) (m : Matrix) :
  probability_column rows m -> unit_column rows m.
Proof.
  intros [Hshape Hall]. split; [exact Hshape|].
  apply Forall_forall. intros row Hrow. rewrite Forall_forall in Hall.
  specialize (Hall row Hrow). apply Forall_forall. intros p Hp.
  rewrite Forall_forall in Hall. specialize (Hall p Hp). lra.
Qed.

(** X1: whenever a network accepts a batch, its prediction is a column with
    one row per example and one entry per row, every entry between 0 and 1.
    This holds for all five network classes, whatever the parameters of the
    hidden layers are, as soon as the output layer has a single output. *)
Theorem forward_is_probability_column :
  (forall (net : PerspectiveNet.t) (batch : Batch.t) (m : Matrix),
      single_output (PerspectiveNet.out net) ->
      PerspectiveNet.forward net batch = Some m ->
      unit_column (Batch.size batch) m) /\
  (forall (net : SquaredPerspectiveNet.t) (batch : Batch.t) (m : Matrix),
      single_output (SquaredPerspectiveNet.out net) ->
      SquaredPerspectiveNet.forward net batch = Some m ->
      unit_column (Batch.size batch) m) /\
  (forall (net : DeepPerspectiveNet.t) (batch : Batch.t) (m : Matrix),
      single_output (DeepPerspectiveNet.out net) ->
      DeepPerspectiveNet.forward net batch = Some m ->
      unit_column (Batch.size batch) m) /\
  (forall (net : HalfKPNet.t) (batch : Batch.t) (m : Matrix),
      single_output (HalfKPNet.out net) ->
      HalfKPNet.forward net batch = Some m ->
      unit_column (Batch.size batch) m) /\
  (forall (net : HalfKANet.t) (batch : Batch.t) (m : Matrix),
      single_output (HalfKANet.out net) ->
      HalfKANet.forward net batch = Some m ->
      unit_column (Batch.size batch) m).
Proof.
  destruct forward_column_over_reals as (H1 & H2 & H3 & H4 & H5).
  split; [|split; [|split; [|split]]]; intros net batch m Hout Hf;
    apply probability_column_unit; eauto.
Qed.

Lemma forward_is_probability_column_witness :
  exists m,
    PerspectiveNet.forward (PerspectiveNet.mk sample_perspective first_of_four_out)
      feature5_batch = Some m /\
    unit_column 1 m.
Proof.
  eexists. split; [reflexivity|].
  apply (proj1 forward_is_probability_column
           (PerspectiveNet.mk sample_perspective first_of_four_out) feature5_batch).
  - split; reflexivity.
  - reflexivity.
Defined.

Lemma forallb_index_ok (n : nat) (l : list Z) :
  forallb (index_ok n) l = true <-> Forall (fun i => (0 <= i < Z.of_nat n)%Z) l.
Proof.
  rewrite forallb_forall, Forall_forall. unfold index_ok.
  split; intros H x Hx; specialize (H x Hx).
  - apply andb_prop in H as [H0 H1]. apply Z.leb_le in H0. apply Z.ltb_lt in H1. lia.
  - apply andb_true_intro; split; [apply Z.leb_le | apply Z.ltb_lt]; lia.
Qed.

Lemma sparse_coo_tensor_accepts (rs cs : list Z) (vs : list R) (n dim : nat) :
  sparse_coo_tensor (rs, cs) vs (n, dim) <> None <-> well_formed n dim rs cs vs.
Proof.
  split.
  - destruct (sparse_coo_tensor (rs, cs) vs (n, dim)) as [s|] eqn:E; [|congruence].
    intros _. apply sparse_coo_tensor_Some in E as (_ & Hr & Hc & Hrs & Hcs).
    cbn [fst snd] in *. apply forallb_index_ok in Hrs, Hcs.
    unfold well_formed; auto.
  - intros H. rewrite (well_formed_checks _ _ _ _ _ H). discriminate.
Qed.

Lemma perspective_pov_accepts (perspective : Linear) (idx : list Z) (batch : Batch.t) :
  perspective_pov perspective idx batch <> None
  <-> perspective_ok (Batch.size batch) 768 idx (Batch.values batch).
Proof.
  unfold perspective_pov, perspective_ok.
  destruct (reshape2_T idx) as [[rs cs]|].
  - pose proof (sparse_coo_tensor_accepts rs cs (Batch.values batch) (Batch.size batch) 768)
      as Hacc.
    destruct (sparse_coo_tensor (rs, cs) _ _) as [s|]; split.
    + intros _. exists rs, cs. split; [reflexivity | apply Hacc; discriminate].
    + discriminate.
    + congruence.
    + intros (rs' & cs' & [= <- <-] & H). apply Hacc in H. congruence.
  - split; [congruence|]. intros (rs & cs & H & _). discriminate.
Qed.

Lemma factorised_ft_accepts (dim base : nat) (ft fft : Linear) (idx : list Z)
    (batch : Batch.t) :
  base <> 0%nat ->
  factorised_ft dim base ft fft idx batch <> None
  <-> perspective_ok (Batch.size batch) dim idx (Batch.values batch).
Proof.
  intros Hbase. unfold factorised_ft, perspective_ok.
  destruct (reshape2_T idx) as [[rs cs]|].
  - pose proof (sparse_coo_tensor_accepts rs cs (Batch.values batch) (Batch.size batch) dim)
      as Hacc.
    destruct (sparse_coo_tensor (rs, cs) _ _) as [s|] eqn:E; split.
    + intros _. exists rs, cs. split; [reflexivity | apply Hacc; discriminate].
    + intros _. apply sparse_coo_tensor_Some in E as (_ & Hr & Hc & Hrs & _).
      cbn [fst snd] in *.
      unfold factoriser_indices, sparse_coo_tensor; cbn [fst snd].
      rewrite length_map, Hr, Hc, Nat.eqb_refl, Hrs, factoriser_indices_ok by assumption.
      discriminate.
    + congruence.
    + intros (rs' & cs' & [= <- <-] & H). apply Hacc in H. congruence.
  - split; [congruence|]. intros (rs & cs & H & _). discriminate.
Qed.

(** X2: a network accepts a batch exactly when both index buffers pair up
    into (example, feature) pairs, as many as there are values, with every
    example index below [size] and every feature index below the input
    dimension of the class; any other batch makes forward fail.  The
    factoriser adds no requirement of its own. *)
Theorem forward_accepts_well_formed_batches :
  (forall (net : PerspectiveNet.t) (batch : Batch.t),
      PerspectiveNet.forward net batch <> None
      <-> perspective_ok (Batch.size batch) 768 (Batch.stm_indices batch)
            (Batch.values batch) /\
          perspective_ok (Batch.size batch) 768 (Batch.nstm_indices batch)
            (Batch.values batch)) /\
  (forall (net : SquaredPerspectiveNet.t) (batch : Batch.t),
      SquaredPerspectiveNet.forward net batch <> None
      <-> perspective_ok (Batch.size batch) 768 (Batch.stm_indices batch)
            (Batch.values batch) /\
          perspective_ok (Batch.size batch) 768 (Batch.nstm_indices batch)
            (Batch.values batch)) /\
  (forall (net : DeepPerspectiveNet.t) (batch : Batch.t),
      DeepPerspectiveNet.forward net batch <> None
      <-> perspective_ok (Batch.size batch) 768 (Batch.stm_indices batch)
            (Batch.values batch) /\
          perspective_ok (Batch.size batch) 768 (Batch.nstm_indices batch)
            (Batch.values batch)) /\
  (forall (net : HalfKPNet.t) (batch : Batch.t),
      HalfKPNet.forward net batch <> None
      <-> perspective_ok (Batch.size batch) 40960 (Batch.stm_indices batch)
            (Batch.values batch) /\
          perspective_ok (Batch.size batch) 40960 (Batch.nstm_indices batch)
            (Batch.values batch)) /\
  (forall (net : HalfKANet.t) (batch : Batch.t),
      HalfKANet.forward net batch <> None
      <-> perspective_ok (Batch.size batch) 49152 (Batch.stm_indices batch)
            (Batch.values batch) /\
          perspective_ok (Batch.size batch) 49152 (Batch.nstm_indices batch)
            (Batch.values batch)).
Proof.
  assert (Hopt : forall (A B : Type) (a b : option A) (f : A -> A -> B),
             match a, b with Some x, Some y => Some (f x y) | _, _ => None end <> None
             <-> a <> None /\ b <> None).
  { intros A B [x|] [y|] f; split; try tauto; try (intros [H1 H2]; congruence);
      try (intros _; split; discriminate). }
  split; [|split; [|split; [|split]]]; intros net batch.
  - unfold PerspectiveNet.forward.
    rewrite <- !perspective_pov_accepts. apply Hopt.
  - unfold SquaredPerspectiveNet.forward.
    rewrite <- !perspective_pov_accepts. apply Hopt.
  - unfold DeepPerspectiveNet.forward.
    rewrite <- !perspective_pov_accepts. apply Hopt.
  - unfold HalfKPNet.forward.
    rewrite <- !(factorised_ft_accepts 40960 640 (HalfKPNet.ft net) (HalfKPNet.fft net))
      by discriminate.
    apply Hopt.
  - unfold HalfKANet.forward.
    rewrite <- !(factorised_ft_accepts 49152 768 (HalfKANet.ft net) (HalfKANet.fft net))
      by discriminate.
    apply Hopt.
Qed.

Lemma forward_accepts_well_formed_batches_witness :
  PerspectiveNet.forward (PerspectiveNet.mk sample_perspective first_of_four_out)
    feature5_batch <> None.
Proof.
  apply (proj1 forward_accepts_well_formed_batches
           (PerspectiveNet.mk sample_perspective first_of_four_out) feature5_batch).
  split; exists [0%Z], [5%Z]; (split; [reflexivity|]);
    apply (well_formed_single 1 768 5 1); lia.
Defined.

(** * Further properties of the weight clipper *)

Lemma clamp_inside (lo hi x : R) : lo <= x <= hi -> clamp lo hi x = x.
Proof. intros H. unfold clamp, Rmin, Rmax. repeat destruct Rle_dec; lra. Qed.

Lemma map_clamp_inside (lo hi : R) (v : list R) :
  Forall (fun e => lo <= e <= hi) v -> map (clamp lo hi) v = v.
Proof.
  induction 1 as [|e v He Hv IH]; cbn [map]; [reflexivity|].
  rewrite IH, clamp_inside by assumption. reflexivity.
Qed.

Lemma tensor_clamp_inside (lo hi : R) (x : Tensor) :
  in_range lo hi x -> tensor_clamp lo hi x = x.
Proof.
  unfold in_range. destruct x as [v|m]; cbn [tensor_entries tensor_clamp]; intros H.
  - rewrite map_clamp_inside by assumption. reflexivity.
  - f_equal. unfold mmap. induction m as [|row m IH]; cbn [map]; [reflexivity|].
    cbn [concat] in H. apply Forall_app in H as [Hrow Hm].
    rewrite IH, map_clamp_inside by assumption. reflexivity.
Qed.

Lemma setattr_getattr (a : list (string * Tensor)) (name : string) (x : Tensor) :
  getattr a name = Some x -> setattr a name x = a.
Proof.
  induction a as [|[k z] a IH]; cbn [getattr setattr]; [discriminate|].
  destruct (String.eqb k name) eqn:E.
  - intros [= ->]. reflexivity.
  - intros H. rewrite IH by assumption. reflexivity.
Qed.

Lemma apply_clipper_inside (self : WeightClipper.t) (m : Module) :
  Forall (in_range (-1.98) 1.98) (named_tensors "weight" m) ->
  apply (WeightClipper.call self) m = m.
Proof.
  induction m as [a cs IH] using Module_tree_ind. cbn [named_tensors apply].
  intros H. apply Forall_app in H as [Hcs Ha].
  assert (Hmap : map (fun nc => (fst nc, apply (WeightClipper.call self) (snd nc))) cs = cs).
  { clear Ha. induction cs as [|[k c] cs IHcs]; cbn [map]; [reflexivity|].
    cbn [map concat] in Hcs. apply Forall_app in Hcs as [Hc Hrest].
    inversion IH as [|? ? Hk Hks]; subst. cbn [fst snd] in *.
    rewrite (Hk Hc), (IHcs Hks Hrest). reflexivity. }
  rewrite Hmap. unfold WeightClipper.call; cbn [attrs children].
  destruct (getattr a "weight") as [w|] eqn:E; [|reflexivity].
  inversion Ha as [|? ? Hw _]; subst.
  rewrite (tensor_clamp_inside _ _ _ Hw), (setattr_getattr _ _ _ E). reflexivity.
Qed.

(** X3: the clipper leaves a module tree exactly as it is when every tensor
    named [weight] in it already lies in [-1.98, 1.98], in particular a
    module that has no such attribute; and clipping twice is the same as
    clipping once. *)
Theorem clipper_is_a_projection :
  (forall (self : WeightClipper.t) (m : Module),
      Forall (in_range (-1.98) 1.98) (named_tensors "weight" m) ->
      apply (WeightClipper.call self) m = m) /\
  (forall (self : WeightClipper.t) (m : Module),
      apply (WeightClipper.call self) (apply (WeightClipper.call self) m)
      = apply (WeightClipper.call self) m).
Proof.
  split.
  - exact apply_clipper_inside.
  - intros self m. apply apply_clipper_inside, apply_clipper_in_range.
Qed.

Lemma clipper_is_a_projection_witness :
  apply (WeightClipper.call WeightClipper.init)
    (mkModule [] [("out"%string, Linear_module first_unit_out)])
  = mkModule [] [("out"%string, Linear_module first_unit_out)].
Proof.
  apply (proj1 clipper_is_a_projection).
  cbn [named_tensors map concat snd getattr Linear_module first_unit_out weight bias
       String.eqb Ascii.eqb Bool.eqb app].
  repeat constructor; lra.
Defined.

(** * Further properties of the training loop *)

Arguments model {OptState} _.
Arguments optimizer {OptState} _.
Arguments lr {OptState} _.
Arguments scheduler {OptState} _.
Arguments running_loss {OptState} _.
Arguments iterations {OptState} _.
Arguments loss_since_log {OptState} _.
Arguments iter_since_log {OptState} _.
Arguments fens {OptState} _.
Arguments epoch {OptState} _.
Arguments trace {OptState} _.

Section TrainFacts.

Variable OptState : Type.
Variable optimizer_step : OptState -> R -> Module -> Batch.t -> Vector -> OptState * Module.
Variable model_call : Module -> Batch.t -> option Vector.
Variables wdl scale : R.
Variables epochs save_epochs : Z.
Variable train_id : string.
Variable train_log : option string.

Local Abbreviation State := (TrainState OptState).
Local Abbreviation on_batch :=
  (train_on_batch OptState optimizer_step model_call wdl scale train_log).
Local Abbreviation boundary := (epoch_end OptState save_epochs train_id).
Local Abbreviation iter :=
  (train_iter OptState optimizer_step model_call wdl scale save_epochs train_id train_log).
Local Abbreviation loop :=
  (train_loop OptState optimizer_step model_call wdl scale epochs save_epochs train_id
     train_log).
Local Abbreviation clipper := (apply (WeightClipper.call WeightClipper.init)).

(** The state one batch leaves behind, all lets of [train_on_batch] spelt out. *)
Lemma train_on_batch_eq (batch : Batch.t) (st : State) :
  on_batch batch st
  = match model_call (model st) batch with
    | None => Raise RuntimeError (emit OptState [ZeroGrad] st)
    | Some prediction =>
        let expected := expected_of wdl scale batch in
        let loss := mse prediction expected in
        let stepped := optimizer_step (optimizer st) (lr st) (model st) batch expected in
        let size := Z.of_nat (Batch.size batch) in
        let due := ((iter_since_log st + 1) * size >? LOG_ITERS)%Z in
        Ok (mkState OptState (clipper (snd stepped)) (fst stepped) (lr st) (scheduler st)
              (running_loss st + loss) (iterations st + 1)
              (if due then 0 else loss_since_log st + loss)
              (if due then 0%Z else (iter_since_log st + 1)%Z)
              (fens st + size) (epoch st)
              (trace st ++ batch_events batch loss
               ++ if due
                  then progress_events train_log ((iterations st + 1) * size)
                         ((loss_since_log st + loss) / IZR (iter_since_log st + 1))
                  else []))
    end.
Proof.
  unfold train_on_batch, emit, batch_events, progress_events.
  cbn [model optimizer lr scheduler running_loss iterations
       loss_since_log iter_since_log fens epoch trace].
  destruct (model_call (model st) batch) as [prediction|]; [|reflexivity].
  cbv zeta.
  destruct ((iter_since_log st + 1) * Z.of_nat (Batch.size batch) >? LOG_ITERS)%Z;
    cbn [model optimizer lr scheduler running_loss iterations
         loss_since_log iter_since_log fens epoch trace];
    rewrite <- ?app_assoc; cbn [app]; reflexivity.
Qed.

(** The state an epoch boundary leaves behind. *)
Lemma epoch_end_eq (st : State) :
  boundary st
  = let bumped := mkState OptState (model st) (optimizer st) (lr st) (scheduler st)
                    (running_loss st) (iterations st) (loss_since_log st)
                    (iter_since_log st) (fens st) (epoch st + 1) (trace st) in
    let mean := running_loss st / IZR (iterations st) in
    let reset evs := mkState OptState (model st) (optimizer st) (lr st) (scheduler st)
                       0 0 (loss_since_log st) (iter_since_log st) 0 (epoch st + 1)
                       (trace st ++ evs) in
    if (iterations st =? 0)%Z then Raise ZeroDivisionError bumped
    else if (save_epochs =? 0)%Z
    then Raise ZeroDivisionError (reset [EpochReport (epoch st + 1) mean])
    else
      match scheduler_step (scheduler st) (lr st) with
      | Some (scheduler', lr') =>
          Ok (mkState OptState (model st) (optimizer st) lr' scheduler' 0 0
                (loss_since_log st) (iter_since_log st) 0 (epoch st + 1)
                (trace st ++ boundary_events train_id save_epochs (epoch st + 1) mean
                               (model st)))
      | None =>
          Raise ZeroDivisionError
            (reset (EpochReport (epoch st + 1) mean
                    :: if ((epoch st + 1) mod save_epochs =? 0)%Z
                       then [SaveStateDict train_id (epoch st + 1) (model st);
                             DumpJson train_id (model st)]
                       else []))
      end.
Proof.
  unfold epoch_end, emit, boundary_events.
  cbn [model optimizer lr scheduler running_loss iterations
       loss_since_log iter_since_log fens epoch trace]. cbv zeta.
  destruct (iterations st =? 0)%Z; [reflexivity|].
  destruct (save_epochs =? 0)%Z; [reflexivity|].
  destruct ((epoch st + 1) mod save_epochs =? 0)%Z;
    cbn [model optimizer lr scheduler running_loss iterations
         loss_since_log iter_since_log fens epoch trace];
    destruct (scheduler_step (scheduler st) (lr st)) as [[s' l']|];
    cbn [model optimizer lr scheduler running_loss iterations
         loss_since_log iter_since_log fens epoch trace];
    rewrite <- ?app_assoc; cbn [app]; reflexivity.
Qed.

(** Induction over the loop: [P] holds of every state the loop passes
    through, [Q] of the state it ends in, whether it returns or raises. *)
Lemma train_loop_ind (P Q : State -> Prop) :
  (forall st, P st -> Q st) ->
  (forall rd st, P st -> (epoch st < epochs)%Z ->
     match iter rd st with
     | Ok st' => P st'
     | Raise _ st' => Q st'
     end) ->
  forall reads st, P st ->
    Q (last_state (loop reads st)) /\
    (forall st', loop reads st = Ok st' -> P st').
Proof.
  intros HPQ Hstep reads. induction reads as [|rd reads IH]; intros st HP.
  - cbn [train_loop]. destruct (epoch st <? epochs)%Z; cbn [last_state];
      (split; [auto|intros st' E; injection E as <-; exact HP]).
  - cbn [train_loop]. destruct (epoch st <? epochs)%Z eqn:Hlt.
    + apply Z.ltb_lt in Hlt. specialize (Hstep rd st HP Hlt).
      destruct (iter rd st) as [st1|e st1].
      * apply IH, Hstep.
      * cbn [last_state]. split; [exact Hstep|discriminate].
    + cbn [last_state]. split; [auto|intros st' E; injection E as <-; exact HP].
Qed.

Lemma forwarded_app (a b : list Event) :
  forwarded (a ++ b) = forwarded a ++ forwarded b.
Proof.
  induction a as [|ev a IH]; [reflexivity|].
  destruct ev; cbn [app forwarded]; rewrite IH; reflexivity.
Qed.

Lemma forwarded_boundary_events (e : Z) (mean : R) (m : Module) :
  forwarded (boundary_events train_id save_epochs e mean m) = [].
Proof.
  unfold boundary_events. destruct (e mod save_epochs =? 0)%Z; reflexivity.
Qed.

Lemma forwarded_progress_events (positions : Z) (loss : R) :
  forwarded (progress_events train_log positions loss) = [].
Proof.
  unfold progress_events. destruct train_log; reflexivity.
Qed.

(** One batch: either it is forwarded, and nothing else is, or the model
    rejects it and the trace shows no forward pass. *)
Lemma train_on_batch_forwarded (batch : Batch.t) (st : State) :
  match on_batch batch st with
  | Ok st' => forwarded (trace st') = forwarded (trace st) ++ [batch] /\
              epoch st' = epoch st
  | Raise _ st' => forwarded (trace st') = forwarded (trace st)
  end.
Proof.
  rewrite train_on_batch_eq.
  destruct (model_call (model st) batch) as [prediction|].
  - cbv zeta. cbn [trace epoch]. split; [|reflexivity].
    rewrite !forwarded_app.
    destruct (_ >? _)%Z; [rewrite forwarded_progress_events|]; reflexivity.
  - cbn [emit trace]. rewrite forwarded_app. cbn. apply app_nil_r.
Qed.

Lemma epoch_end_forwarded (st : State) :
  forwarded (trace (last_state (boundary st))) = forwarded (trace st) /\
  (forall st', boundary st = Ok st' -> epoch st' = (epoch st + 1)%Z).
Proof.
  rewrite epoch_end_eq. cbv zeta.
  destruct (iterations st =? 0)%Z; [split; [reflexivity|discriminate]|].
  destruct (save_epochs =? 0)%Z.
  { cbn [last_state trace]. rewrite forwarded_app. cbn.
    split; [apply app_nil_r|discriminate]. }
  destruct (scheduler_step (scheduler st) (lr st)) as [[s' l']|]; cbn [last_state trace].
  - rewrite forwarded_app, forwarded_boundary_events.
    split; [apply app_nil_r|]. intros st' E. injection E as <-. reflexivity.
  - rewrite forwarded_app. split; [|discriminate].
    destruct (_ =? 0)%Z; cbn; apply app_nil_r.
Qed.

Lemma train_iter_forwarded (rd : bool * Batch.t) (st : State) :
  match iter rd st with
  | Ok st' => forwarded (trace st') = forwarded (trace st) ++ [snd rd] /\
              epoch st' = (epoch st + if fst rd then 1 else 0)%Z
  | Raise _ st' => forwarded (trace st') = forwarded (trace st)
  end.
Proof.
  destruct rd as [new_epoch batch]. unfold train_iter. cbn [fst snd].
  destruct new_epoch.
  - destruct (epoch_end_forwarded st) as [Hf He].
    destruct (boundary st) as [st1|e st1]; cbn [last_state] in Hf.
    + specialize (He st1 eq_refl).
      pose proof (train_on_batch_forwarded batch st1) as Hb.
      destruct (on_batch batch st1) as [st2|e st2].
      * destruct Hb as [Hb1 Hb2]. rewrite Hb1, Hb2, Hf, He. auto.
      * rewrite Hb. exact Hf.
    + exact Hf.
  - pose proof (train_on_batch_forwarded batch st) as Hb.
    destruct (on_batch batch st) as [st2|e st2].
    + destruct Hb as [Hb1 Hb2]. rewrite Hb1, Hb2. split; [reflexivity|lia].
    + exact Hb.
Qed.

Lemma train_loop_forwarded (reads : list (bool * Batch.t)) :
  forall st : State,
  exists k : nat,
    (k <= length reads)%nat /\
    forwarded (trace (last_state (loop reads st)))
    = forwarded (trace st) ++ map snd (firstn k reads) /\
    (forall st', loop reads st = Ok st' ->
       epoch st' = (epoch st + Z.of_nat (length (filter fst (firstn k reads))))%Z /\
       ((k < length reads)%nat -> (epochs <= epoch st')%Z)).
Proof.
  induction reads as [|rd reads IH]; intros st.
  - exists 0%nat. cbn [train_loop]. split; [lia|].
    assert (E : (if (epoch st <? epochs)%Z then Ok st else Ok st)
                = (Ok st : result State State)) by (destruct (_ <? _)%Z; reflexivity).
    rewrite E. cbn. split; [symmetry; apply app_nil_r|].
    intros st' E'. injection E' as <-. split; lia.
  - cbn [train_loop]. destruct (epoch st <? epochs)%Z eqn:Hlt.
    + pose proof (train_iter_forwarded rd st) as Hit.
      destruct (iter rd st) as [st1|e st1].
      * destruct Hit as [Hf He]. destruct (IH st1) as (k & Hk & Hfw & Hok).
        exists (S k). cbn [length firstn map filter]. split; [lia|]. split.
        -- rewrite Hfw, Hf, <- app_assoc. reflexivity.
        -- intros st' E. destruct (Hok st' E) as [He' Hstop]. split.
           ++ rewrite He', He. destruct (fst rd); cbn [length]; lia.
           ++ intros Hk'. apply Hstop. lia.
      * exists 0%nat. cbn [last_state firstn map]. split; [lia|]. split.
        -- rewrite Hit. symmetry. apply app_nil_r.
        -- discriminate.
    + exists 0%nat. cbn [last_state firstn map filter length]. split; [lia|]. split.
      * symmetry. apply app_nil_r.
      * intros st' E. injection E as <-. apply Z.ltb_ge in Hlt. split; lia.
Qed.

(** X4: the batches a run of [train] runs forward on are exactly the first
    [k] batches [read_batch] returned, in the order they were read, whether
    the run returns or raises; nothing is skipped, repeated or reordered.
    When the run returns, the epoch counter is the number of those reads
    flagged as a new epoch, and reads are left over only if the counter has
    reached [epochs]. *)
Theorem train_forwards_reads_in_order (model0 : Module) (optimizer0 : OptState)
    (lr0 : R) (scheduler0 : Scheduler) (reads : list (bool * Batch.t)) :
  exists k : nat,
    (k <= length reads)%nat /\
    forwarded (trace (last_state (train OptState optimizer_step model_call wdl scale epochs save_epochs train_id
      train_log model0 optimizer0 lr0 scheduler0 reads)))
    = map snd (firstn k reads) /\
    (forall st', train OptState optimizer_step model_call wdl scale epochs save_epochs train_id
      train_log model0 optimizer0 lr0 scheduler0 reads = Ok st' ->
       epoch st' = Z.of_nat (length (filter fst (firstn k reads))) /\
       ((k < length reads)%nat -> (epochs <= epoch st')%Z)).
Proof.
  unfold train.
  destruct (train_loop_forwarded reads
              (mkState OptState model0 optimizer0 lr0 scheduler0 0 0 0 0 0 0 []))
    as (k & Hk & Hf & Hok).
  exists k. split; [exact Hk|]. split; [exact Hf|].
  intros st' E. destruct (Hok st' E) as [He Hstop]. cbn [epoch] in He.
  split; [rewrite He; lia|exact Hstop].
Qed.

(** ** Checkpoints *)

Lemma checkpoint_ok_boundary_events (e : Z) (mean : R) (m : Module) :
  (1 <= e <= epochs)%Z -> save_epochs <> 0%Z ->
  Forall (checkpoint_ok train_id save_epochs epochs)
         (boundary_events train_id save_epochs e mean m).
Proof.
  intros He Hs. unfold boundary_events.
  destruct (e mod save_epochs =? 0)%Z eqn:Hmod; cbn [app];
    repeat constructor; lia.
Qed.

Lemma checkpoint_ok_batch_events (batch : Batch.t) (loss : R) :
  Forall (checkpoint_ok train_id save_epochs epochs) (batch_events batch loss).
Proof. repeat constructor. Qed.

Lemma checkpoint_ok_progress_events (positions : Z) (loss : R) :
  Forall (checkpoint_ok train_id save_epochs epochs)
         (progress_events train_log positions loss).
Proof. unfold progress_events. destruct train_log; repeat constructor. Qed.

Lemma checkpoint_ok_tail (batch : Batch.t) (loss : R) (due : bool) (positions : Z)
    (mean : R) :
  Forall (checkpoint_ok train_id save_epochs epochs)
         (batch_events batch loss
          ++ if due then progress_events train_log positions mean else []).
Proof.
  apply Forall_app. split; [apply checkpoint_ok_batch_events|].
  destruct due; [apply checkpoint_ok_progress_events|constructor].
Qed.

Lemma train_iter_checkpoints (rd : bool * Batch.t) (st : State) :
  (0 <= epoch st <= Z.max 0 epochs)%Z ->
  Forall (checkpoint_ok train_id save_epochs epochs) (trace st) ->
  (epoch st < epochs)%Z ->
  (0 <= epoch (last_state (iter rd st)) <= Z.max 0 epochs)%Z /\
  Forall (checkpoint_ok train_id save_epochs epochs) (trace (last_state (iter rd st))).
Proof.
  intros He Htr Hlt. iter_cases epoch_end_eq train_on_batch_eq model_call save_epochs rd st.
  - split; [lia|exact Htr].
  - split; [lia|]. apply Forall_app. split; [exact Htr|repeat constructor].
  - split; [lia|]. apply Z.eqb_neq in Hse.
    rewrite <- app_assoc. apply Forall_app. split; [exact Htr|].
    apply Forall_app. split; [apply checkpoint_ok_boundary_events; lia|].
    apply checkpoint_ok_tail.
  - split; [lia|]. apply Z.eqb_neq in Hse.
    apply Forall_app. split; [|repeat constructor].
    apply Forall_app. split; [exact Htr|].
    apply checkpoint_ok_boundary_events; lia.
  - split; [lia|]. apply Z.eqb_neq in Hse.
    apply Forall_app. split; [exact Htr|]. constructor; [exact I|].
    destruct ((epoch st + 1) mod save_epochs =? 0)%Z eqn:Hmod; repeat constructor;
      lia.
  - split; [lia|]. apply Forall_app. split; [exact Htr|apply checkpoint_ok_tail].
  - split; [lia|]. apply Forall_app. split; [exact Htr|repeat constructor].
Qed.
Lemma train_loop_checkpoints (reads : list (bool * Batch.t)) (st : State) :
  (0 <= epoch st <= Z.max 0 epochs)%Z ->
  Forall (checkpoint_ok train_id save_epochs epochs) (trace st) ->
  Forall (checkpoint_ok train_id save_epochs epochs) (trace (last_state (loop reads st))).
Proof.
  intros He Htr.
  apply (train_loop_ind
           (fun st => (0 <= epoch st <= Z.max 0 epochs)%Z /\
                      Forall (checkpoint_ok train_id save_epochs epochs) (trace st))
           (fun st => (0 <= epoch st <= Z.max 0 epochs)%Z /\
                      Forall (checkpoint_ok train_id save_epochs epochs) (trace st)));
    [auto| |auto].
  intros rd st0 [He0 Htr0] Hlt.
  pose proof (train_iter_checkpoints rd st0 He0 Htr0 Hlt) as H.
  destruct (iter rd st0); exact H.
Qed.

Lemma checkpoint_ok_none (tr : list Event) :
  Forall (checkpoint_ok train_id save_epochs epochs) tr ->
  (epochs < Z.abs save_epochs)%Z ->
  filter is_checkpoint tr = [].
Proof.
  intros Htr Hlt. induction Htr as [|ev tr Hev _ IH]; [reflexivity|].
  cbn [filter].
  destruct ev as [? ?|id e m|? ?| | |?|?| | |? ?|?|]; cbn [is_checkpoint]; try exact IH.
  exfalso. destruct Hev as (_ & He & Hmod & Hs).
  pose proof (Z.div_mod e save_epochs Hs) as D. rewrite Hmod in D.
  remember (e / save_epochs)%Z as q eqn:Hq. clear Hq.
  destruct (Z.abs_spec save_epochs) as [[? Ha]|[? Ha]]; rewrite Ha in Hlt;
    assert (Hq : (q = 0 \/ 1 <= q \/ q <= -1)%Z) by lia;
    destruct Hq as [->|[Hq|Hq]]; nia.
Qed.

(** Every multiple of [save_epochs] the epoch counter has passed has its
    checkpoint in the trace. *)
Lemma train_iter_saves (rd : bool * Batch.t) (st st' : State) :
  (forall e, (1 <= e <= epoch st)%Z -> (e mod save_epochs = 0)%Z ->
     exists m, In (SaveStateDict train_id e m) (trace st)) ->
  iter rd st = Ok st' ->
  forall e, (1 <= e <= epoch st')%Z -> (e mod save_epochs = 0)%Z ->
    exists m, In (SaveStateDict train_id e m) (trace st').
Proof.
  intros Hst. iter_cases epoch_end_eq train_on_batch_eq model_call save_epochs rd st; try discriminate; intros E; injection E as <-;
    cbn [trace epoch]; intros e He Hmod.
  - destruct (Z.eq_dec e (epoch st + 1)) as [->|Hne].
    + exists (model st). apply in_or_app. left. apply in_or_app. right.
      unfold boundary_events. apply Z.eqb_eq in Hmod. rewrite Hmod.
      cbn. auto.
    + destruct (Hst e ltac:(lia) Hmod) as [m Hm]. exists m.
      apply in_or_app. left. apply in_or_app. left. exact Hm.
  - destruct (Hst e He Hmod) as [m Hm]. exists m. apply in_or_app. left. exact Hm.
Qed.

(** X5: a run of [train] writes a checkpoint only at an epoch boundary
    whose number, between 1 and [epochs], is a multiple of [save_epochs],
    and always under the run's own id; so a run with fewer epochs than
    [save_epochs] writes no checkpoint at all.  A run that returns has
    written one for every such multiple up to its epoch counter. *)
Theorem checkpoints_only_at_save_epochs (model0 : Module) (optimizer0 : OptState)
    (lr0 : R) (scheduler0 : Scheduler) (reads : list (bool * Batch.t)) :
  Forall (checkpoint_ok train_id save_epochs epochs)
         (trace (last_state (train OptState optimizer_step model_call wdl scale epochs save_epochs train_id
      train_log model0 optimizer0 lr0 scheduler0 reads))) /\
  ((epochs < Z.abs save_epochs)%Z ->
   filter is_checkpoint (trace (last_state (train OptState optimizer_step model_call wdl scale epochs save_epochs train_id
      train_log model0 optimizer0 lr0 scheduler0 reads)))
   = []) /\
  (forall st', train OptState optimizer_step model_call wdl scale epochs save_epochs train_id
      train_log model0 optimizer0 lr0 scheduler0 reads = Ok st' ->
     forall e, (1 <= e <= epoch st')%Z -> (e mod save_epochs = 0)%Z ->
       exists m, In (SaveStateDict train_id e m) (trace st')).
Proof.
  assert (H : Forall (checkpoint_ok train_id save_epochs epochs)
                (trace (last_state (train OptState optimizer_step model_call wdl scale epochs save_epochs train_id
      train_log model0 optimizer0 lr0 scheduler0 reads)))).
  { unfold train. apply train_loop_checkpoints; cbn [epoch trace]; [lia|constructor]. }
  split; [exact H|]. split; [apply checkpoint_ok_none, H|].
  unfold train.
  apply (train_loop_ind
           (fun st => forall e, (1 <= e <= epoch st)%Z -> (e mod save_epochs = 0)%Z ->
                        exists m, In (SaveStateDict train_id e m) (trace st))
           (fun _ => True)); [auto| |].
  - intros rd st Hst _. pose proof (train_iter_saves rd st) as Hs.
    destruct (iter rd st) as [st1|]; [|exact I]. apply Hs; [exact Hst|reflexivity].
  - cbn [epoch]. intros e He. lia.
Qed.

(** ** Splitting a trace at an event *)

Lemma app_eq_app_cons {A : Type} (tr evs pre post : list A) (x : A) :
  tr ++ evs = pre ++ x :: post ->
  (exists post1, tr = pre ++ x :: post1 /\ post = post1 ++ evs) \/
  (exists pre2, pre = tr ++ pre2 /\ evs = pre2 ++ x :: post).
Proof.
  revert pre. induction tr as [|a tr IH]; intros pre H.
  - right. exists pre. split; [reflexivity|exact H].
  - destruct pre as [|p pre]; cbn [app] in H.
    + injection H as -> <-. left. exists tr. split; reflexivity.
    + injection H as -> H. destruct (IH pre H) as [(post1 & -> & ->)|(pre2 & -> & ->)].
      * left. exists post1. split; reflexivity.
      * right. exists pre2. split; reflexivity.
Qed.

Lemma no_split_at {A : Type} (f : A -> bool) (evs pre post : list A) (x : A) :
  Forall (fun ev => f ev = false) evs -> evs = pre ++ x :: post -> f x = true -> False.
Proof.
  intros Hall -> Hx. apply Forall_app in Hall as [_ Hall].
  inversion Hall as [|? ? Hf]. congruence.
Qed.

Lemma batch_events_no_checkpoint (batch : Batch.t) (loss : R) (due : bool)
    (positions : Z) (mean : R) :
  Forall (fun ev => is_checkpoint ev = false)
         (batch_events batch loss
          ++ if due then progress_events train_log positions mean else []).
Proof.
  apply Forall_app. split; [repeat constructor|].
  destruct due; [|constructor]. unfold progress_events.
  destruct train_log; repeat constructor.
Qed.

Lemma step_after_checkpoint (tr : list Event) (batch : Batch.t) (loss : R) (due : bool)
    (positions : Z) (mean : R) (pre post : list Event) (id : string) (e : Z)
    (m : Module) :
  tr ++ batch_events batch loss
     ++ (if due then progress_events train_log positions mean else [])
  = pre ++ SaveStateDict id e m :: post ->
  In OptimizerStep post.
Proof.
  intros H. apply app_eq_app_cons in H as [(post1 & _ & ->)|(pre2 & _ & H)].
  - apply in_or_app. right. apply in_or_app. left. cbn. auto.
  - exfalso.
    exact (no_split_at is_checkpoint _ _ _ _
             (batch_events_no_checkpoint batch loss due positions mean) H eq_refl).
Qed.

(** X6: in a run of [train] that returns, every checkpoint is followed by
    an optimizer step: the batch read together with the epoch flag is
    trained on after the files are written, so the run never writes a
    checkpoint after its last optimizer step. *)
Theorem optimizer_steps_after_every_checkpoint (model0 : Module)
    (optimizer0 : OptState) (lr0 : R) (scheduler0 : Scheduler)
    (reads : list (bool * Batch.t)) (st' : State) :
  train OptState optimizer_step model_call wdl scale epochs save_epochs train_id
      train_log model0 optimizer0 lr0 scheduler0 reads = Ok st' ->
  forall pre id e m post,
    trace st' = pre ++ SaveStateDict id e m :: post ->
    In OptimizerStep post.
Proof.
  unfold train. revert st'.
  apply (train_loop_ind
           (fun st => forall pre id e m post,
                        trace st = pre ++ SaveStateDict id e m :: post ->
                        In OptimizerStep post)
           (fun _ => True)); [auto| |].
  - intros rd st _ _. iter_cases epoch_end_eq train_on_batch_eq model_call save_epochs rd st; try exact I;
      intros pre id e m post H.
    + rewrite <- app_assoc in H.
      rewrite app_assoc in H. apply step_after_checkpoint in H. exact H.
    + apply step_after_checkpoint in H. exact H.
  - cbn [trace]. intros [|? ?] ? ? ? ? H; discriminate.
Qed.

(** ** The epoch report *)

Lemma epoch_losses_app (a b : list Event) (acc : list R) :
  epoch_losses (a ++ b) acc = epoch_losses b (epoch_losses a acc).
Proof.
  revert acc. induction a as [|ev a IH]; intros acc; [reflexivity|].
  destruct ev; cbn [app epoch_losses]; apply IH.
Qed.

Lemma epoch_losses_tail (batch : Batch.t) (loss : R) (due : bool) (positions : Z)
    (mean : R) (acc : list R) :
  epoch_losses (batch_events batch loss
                ++ if due then progress_events train_log positions mean else []) acc
  = acc ++ [loss].
Proof.
  rewrite epoch_losses_app. cbn [batch_events epoch_losses].
  destruct due; [|reflexivity]. unfold progress_events.
  destruct train_log; reflexivity.
Qed.

Lemma epoch_losses_boundary_events (e : Z) (mean : R) (m : Module) (acc : list R) :
  epoch_losses (boundary_events train_id save_epochs e mean m) acc = [].
Proof.
  unfold boundary_events. cbn [app epoch_losses].
  destruct (e mod save_epochs =? 0)%Z; reflexivity.
Qed.

Lemma reports_tail (batch : Batch.t) (loss : R) (due : bool) (positions : Z)
    (mean : R) :
  Forall (fun ev => is_epoch_report ev = false)
         (batch_events batch loss
          ++ if due then progress_events train_log positions mean else []).
Proof.
  apply Forall_app. split; [repeat constructor|].
  destruct due; [|constructor]. unfold progress_events.
  destruct train_log; repeat constructor.
Qed.

Lemma reports_boundary_rest (e : Z) (m : Module) :
  Forall (fun ev => is_epoch_report ev = false)
         ((if (e mod save_epochs =? 0)%Z
           then [SaveStateDict train_id e m; DumpJson train_id m]
           else []) ++ [SchedulerStep]).
Proof. destruct (e mod save_epochs =? 0)%Z; repeat constructor. Qed.

Lemma filter_none {A : Type} (f : A -> bool) (l : list A) :
  Forall (fun x => f x = false) l -> filter f l = [].
Proof.
  induction 1 as [|x l Hx _ IH]; [reflexivity|]. cbn [filter]. rewrite Hx. exact IH.
Qed.

Lemma Rsum_snoc (l : list R) (x : R) : Rsum (l ++ [x]) = Rsum l + x.
Proof. induction l as [|y l IH]; cbn [app Rsum]; [|rewrite IH]; ring. Qed.

Lemma reports_ok_app (tr evs : list Event) :
  reports_ok tr -> Forall (fun ev => is_epoch_report ev = false) evs ->
  reports_ok (tr ++ evs).
Proof.
  intros Htr Hevs pre e l post H.
  apply app_eq_app_cons in H as [(post1 & H & _)|(pre2 & _ & H)].
  - exact (Htr _ _ _ _ H).
  - exfalso. exact (no_split_at is_epoch_report _ _ _ _ Hevs H eq_refl).
Qed.

Lemma reports_ok_report (tr rest : list Event) (e : Z) (l : R) :
  reports_ok tr -> report_ok tr e l ->
  Forall (fun ev => is_epoch_report ev = false) rest ->
  reports_ok (tr ++ EpochReport e l :: rest).
Proof.
  intros Htr Hrep Hrest pre e' l' post H.
  apply app_eq_app_cons in H as [(post1 & H & _)|(pre2 & -> & H)].
  - exact (Htr _ _ _ _ H).
  - destruct pre2 as [|ev pre2]; cbn [app] in H.
    + injection H as <- <- _. rewrite app_nil_r. exact Hrep.
    + exfalso. injection H as _ H.
      exact (no_split_at is_epoch_report _ _ _ _ Hrest H eq_refl).
Qed.

Lemma filter_boundary_events (e : Z) (mean : R) (m : Module) :
  filter is_epoch_report (boundary_events train_id save_epochs e mean m)
  = [EpochReport e mean].
Proof.
  unfold boundary_events. cbn [app filter is_epoch_report]. f_equal.
  apply filter_none, reports_boundary_rest.
Qed.

Lemma reports_ok_boundary (tr : list Event) (e : Z) (mean : R) (m : Module) :
  reports_ok tr -> report_ok tr e mean ->
  reports_ok (tr ++ boundary_events train_id save_epochs e mean m).
Proof.
  intros Htr Hrep. unfold boundary_events. cbn [app].
  apply reports_ok_report; [exact Htr|exact Hrep|apply reports_boundary_rest].
Qed.

Lemma counters_report (st : State) :
  counters_ok st -> (iterations st =? 0)%Z = false ->
  report_ok (trace st) (epoch st + 1) (running_loss st / IZR (iterations st)).
Proof.
  intros (Hl & Hi & He & _) Hne. apply Z.eqb_neq in Hne. split; [|split].
  - intros E. rewrite E in Hi. cbn in Hi. lia.
  - rewrite Hl, Hi, <- INR_IZR_INZ. reflexivity.
  - rewrite He. lia.
Qed.

Lemma train_iter_counters (rd : bool * Batch.t) (st : State) :
  counters_ok st ->
  match iter rd st with
  | Ok st' => counters_ok st'
  | Raise _ st' => reports_ok (trace st')
  end.
Proof.
  intros Hst. pose proof Hst as (Hl & Hi & He & Hrep).
  iter_cases epoch_end_eq train_on_batch_eq model_call save_epochs rd st.
  - exact Hrep.
  - apply reports_ok_report; [exact Hrep|apply counters_report; assumption|constructor].
  - unfold counters_ok. cbn [running_loss iterations epoch trace].
    rewrite epoch_losses_app, epoch_losses_tail, epoch_losses_app,
      epoch_losses_boundary_events.
    rewrite filter_app, (filter_app _ (trace st)), filter_boundary_events.
    rewrite (filter_none is_epoch_report (_ ++ _)) by apply reports_tail.
    rewrite app_nil_r, length_app. cbn [app length Rsum].
    split; [ring|]. split; [reflexivity|].
    split; [rewrite length_app, He; cbn [length]; lia|].
    apply reports_ok_app; [|apply reports_tail].
    apply reports_ok_boundary; [exact Hrep|apply counters_report; assumption].
  - apply reports_ok_app; [|repeat constructor].
    apply reports_ok_boundary; [exact Hrep|apply counters_report; assumption].
  - apply reports_ok_report; [exact Hrep|apply counters_report; assumption|].
    destruct ((epoch st + 1) mod save_epochs =? 0)%Z; repeat constructor.
  - unfold counters_ok. cbn [running_loss iterations epoch trace].
    rewrite epoch_losses_app, epoch_losses_tail, Rsum_snoc, length_app.
    rewrite filter_app, (filter_none is_epoch_report (_ ++ _)) by apply reports_tail.
    rewrite app_nil_r. cbn [length].
    split; [rewrite Hl; reflexivity|]. split; [lia|]. split; [exact He|].
    apply reports_ok_app; [exact Hrep|apply reports_tail].
  - apply reports_ok_app; [exact Hrep|repeat constructor].
Qed.

(** X7: every epoch report of a run of [train], whether the run returns
    or raises, states the mean of the losses of the batches trained since
    the previous report (since the start for the first one), of which there
    is at least one, and the reports are numbered 1, 2, 3, ... in order. *)
Theorem epoch_report_is_mean_loss (model0 : Module) (optimizer0 : OptState)
    (lr0 : R) (scheduler0 : Scheduler) (reads : list (bool * Batch.t))
    (pre post : list Event) (e : Z) (l : R) :
  trace (last_state (train OptState optimizer_step model_call wdl scale epochs save_epochs train_id
      train_log model0 optimizer0 lr0 scheduler0 reads))
  = pre ++ EpochReport e l :: post ->
  epoch_losses pre [] <> [] /\
  l = Rsum (epoch_losses pre []) / INR (length (epoch_losses pre [])) /\
  e = Z.of_nat (S (length (filter is_epoch_report pre))).
Proof.
  revert pre e l post. change (reports_ok
    (trace (last_state (train OptState optimizer_step model_call wdl scale epochs save_epochs train_id
      train_log model0 optimizer0 lr0 scheduler0 reads)))).
  unfold train.
  apply (train_loop_ind counters_ok (fun st => reports_ok (trace st))).
  - intros st H. apply H.
  - intros rd st Hst _. apply train_iter_counters, Hst.
  - unfold counters_ok. cbn [running_loss iterations epoch trace epoch_losses filter
                             length Rsum].
    split; [reflexivity|]. split; [reflexivity|]. split; [reflexivity|].
    intros [|? ?] ? ? ? E; discriminate.
Qed.
(** ** The scheduler over a run *)

Lemma scheduler_steps_snoc (k : nat) :
  forall s l s1 l1 s2 l2,
    scheduler_steps k s l = Some (s1, l1) ->
    scheduler_step s1 l1 = Some (s2, l2) ->
    scheduler_steps (S k) s l = Some (s2, l2).
Proof.
  induction k as [|k IH]; intros s l s1 l1 s2 l2 Hk Hstep.
  - cbn [scheduler_steps] in *. injection Hk as -> ->. rewrite Hstep. reflexivity.
  - cbn [scheduler_steps] in Hk. change (scheduler_steps (S (S k)) s l)
      with (match scheduler_step s l with
            | Some (s', l') => scheduler_steps (S k) s' l'
            | None => None
            end).
    destruct (scheduler_step s l) as [[sa la]|]; [|discriminate].
    exact (IH _ _ _ _ _ _ Hk Hstep).
Qed.

Lemma train_loop_steps (scheduler0 : Scheduler) (lr0 : R)
    (reads : list (bool * Batch.t)) (st st' : State) :
  (0 <= epoch st <= Z.max 0 epochs)%Z ->
  scheduler_steps (Z.to_nat (epoch st)) scheduler0 lr0 = Some (scheduler st, lr st) ->
  loop reads st = Ok st' ->
  (0 <= epoch st' <= Z.max 0 epochs)%Z /\
  scheduler_steps (Z.to_nat (epoch st')) scheduler0 lr0 = Some (scheduler st', lr st').
Proof.
  intros He Hs. revert st'.
  apply (train_loop_ind
           (fun st => (0 <= epoch st <= Z.max 0 epochs)%Z /\
                      scheduler_steps (Z.to_nat (epoch st)) scheduler0 lr0
                      = Some (scheduler st, lr st))
           (fun _ => True)); [auto| |auto].
  intros [new_epoch batch] st0 [He0 Hs0] Hlt.
  pose proof (train_iter_schedule OptState optimizer_step model_call wdl scale
                save_epochs train_id train_log new_epoch batch st0) as H.
  destruct (iter (new_epoch, batch) st0) as [st1|]; [|exact I].
  specialize (H st1 eq_refl). destruct new_epoch.
  - destruct H as [H1 H2]. split; [lia|]. rewrite H1.
    replace (Z.to_nat (epoch st0 + 1)) with (S (Z.to_nat (epoch st0))) by lia.
    exact (scheduler_steps_snoc _ _ _ _ _ _ _ Hs0 H2).
  - destruct H as (H1 & H2 & H3). rewrite H1, H2, H3. split; [lia|exact Hs0].
Qed.

(** X8: when a run of [train] returns, its scheduler and learning rate are
    what [epoch] successive calls of [scheduler.step()] make of the initial
    ones, where [epoch] is the final epoch counter, which lies between 0
    and [epochs]: the scheduler is stepped once per epoch boundary and
    nowhere else. *)
Theorem scheduler_stepped_once_per_epoch (model0 : Module) (optimizer0 : OptState)
    (lr0 : R) (scheduler0 : Scheduler) (reads : list (bool * Batch.t)) (st' : State) :
  train OptState optimizer_step model_call wdl scale epochs save_epochs train_id
      train_log model0 optimizer0 lr0 scheduler0 reads = Ok st' ->
  (0 <= epoch st' <= Z.max 0 epochs)%Z /\
  scheduler_steps (Z.to_nat (epoch st')) scheduler0 lr0 = Some (scheduler st', lr st').
Proof.
  unfold train. apply train_loop_steps; cbn [epoch scheduler lr]; [lia|reflexivity].
Qed.

(** With a constant [ExponentialLR] the learning rate never moves, in any
    state the loop ends in. *)
Lemma train_loop_constant_lr (lr0 : R) (reads : list (bool * Batch.t)) (st : State) :
  (exists n, scheduler st = ExponentialLR 1.0 n) -> lr st = lr0 ->
  lr (last_state (loop reads st)) = lr0.
Proof.
  intros Hs Hl.
  apply (train_loop_ind
           (fun st => (exists n, scheduler st = ExponentialLR 1.0 n) /\ lr st = lr0)
           (fun st => lr st = lr0)); [tauto| |auto].
  intros rd st0 [[n Hn] Hl0] _. iter_cases epoch_end_eq train_on_batch_eq model_call save_epochs rd st0;
    try rewrite Hn in Hss; cbn [scheduler_step] in *;
    try (injection Hss as <- <-); try discriminate; try exact Hl0.
  - split; [eexists; reflexivity|]. rewrite Hl0. lra.
  - rewrite Hl0. lra.
  - split; [exists n; exact Hn|exact Hl0].
Qed.

Lemma Zdiv_succ (n d : Z) :
  (0 < d)%Z -> (0 <= n)%Z ->
  ((n + 1) / d = n / d + if (n + 1) mod d =? 0 then 1 else 0)%Z.
Proof.
  intros Hd Hn.
  pose proof (Z.div_mod n d ltac:(lia)) as D1.
  pose proof (Z.div_mod (n + 1) d ltac:(lia)) as D2.
  pose proof (Z.mod_pos_bound n d Hd) as B1.
  pose proof (Z.mod_pos_bound (n + 1) d Hd) as B2.
  destruct ((n + 1) mod d =? 0)%Z eqn:E.
  - apply Z.eqb_eq in E. nia.
  - apply Z.eqb_neq in E. nia.
Qed.

Lemma scheduler_steps_StepLR (d : Z) (g : R) (k : nat) :
  (0 < d)%Z ->
  forall n l, (0 <= n)%Z ->
    scheduler_steps k (StepLR d g n) l
    = Some (StepLR d g (n + Z.of_nat k),
            l * g ^ Z.to_nat ((n + Z.of_nat k) / d - n / d)).
Proof.
  intros Hd. induction k as [|k IH]; intros n l Hn.
  - cbn [scheduler_steps Z.of_nat]. rewrite Z.add_0_r, Z.sub_diag. cbn. f_equal. f_equal.
    ring.
  - cbn [scheduler_steps scheduler_step].
    assert (E1 : (n + 1 =? 0)%Z = false) by (apply Z.eqb_neq; lia).
    assert (E2 : (d =? 0)%Z = false) by (apply Z.eqb_neq; lia).
    rewrite E1, E2.
    pose proof (Zdiv_succ n d Hd Hn) as Hq.
    assert (Hmono : ((n + 1) / d <= (n + 1 + Z.of_nat k) / d)%Z)
      by (apply Z.div_le_mono; lia).
    replace (n + Z.of_nat (S k))%Z with (n + 1 + Z.of_nat k)%Z by lia.
    destruct ((n + 1) mod d =? 0)%Z; rewrite IH by lia; f_equal; f_equal.
    + replace (Z.to_nat ((n + 1 + Z.of_nat k) / d - n / d))
        with (S (Z.to_nat ((n + 1 + Z.of_nat k) / d - (n + 1) / d))) by lia.
      cbn [pow]. ring.
    + replace ((n + 1) / d)%Z with (n / d)%Z by lia. reflexivity.
Qed.

(** ** Exceptions *)

Lemma train_loop_no_boundary (reads : list (bool * Batch.t)) (st st' : State) :
  (save_epochs = 0%Z \/
   exists g, scheduler st = StepLR 0 g 0) ->
  epoch st = 0%Z ->
  loop reads st = Ok st' ->
  epoch st' = 0%Z.
Proof.
  intros Hc He E.
  assert (Hstep : forall rd (st0 : State),
             (save_epochs = 0%Z \/ exists g, scheduler st0 = StepLR 0 g 0) /\
             epoch st0 = 0%Z ->
             (epoch st0 < epochs)%Z ->
             match iter rd st0 with
             | Ok st1 => (save_epochs = 0%Z \/ exists g, scheduler st1 = StepLR 0 g 0) /\
                         epoch st1 = 0%Z
             | Raise _ _ => True
             end).
  { intros rd st0 [Hc0 He0] _. iter_cases epoch_end_eq train_on_batch_eq model_call save_epochs rd st0; try exact I.
    - exfalso. apply Z.eqb_neq in Hse. destruct Hc0 as [Hc0|[g Hg]]; [lia|].
      rewrite Hg in Hss. cbn in Hss. discriminate.
    - split; [exact Hc0|exact He0]. }
  destruct (train_loop_ind _ (fun _ => True) (fun _ _ => I) Hstep reads st (conj Hc He))
    as [_ H].
  exact (proj2 (H st' E)).
Qed.

(** A first read flagged as a new epoch stops the run in the epoch report. *)
Lemma train_first_read_flagged (model0 : Module) (optimizer0 : OptState) (lr0 : R)
    (scheduler0 : Scheduler) (batch : Batch.t) (reads : list (bool * Batch.t)) :
  (0 < epochs)%Z ->
  train OptState optimizer_step model_call wdl scale epochs save_epochs train_id
      train_log model0 optimizer0 lr0 scheduler0 ((true, batch) :: reads)
  = Raise ZeroDivisionError
      (mkState OptState model0 optimizer0 lr0 scheduler0 0 0 0 0 0 1 []).
Proof.
  intros Hep. unfold train. cbn [train_loop epoch]. apply Z.ltb_lt in Hep. rewrite Hep.
  unfold train_iter. rewrite epoch_end_eq. reflexivity.
Qed.

(** X10: the divisions at an epoch boundary.  When the very first read is
    flagged as a new epoch, [train] raises [ZeroDivisionError] while
    formatting the epoch report, before it has trained, printed or saved
    anything.  When [save_epochs] is 0, or the scheduler is a [StepLR] with
    step size 0, no run gets past an epoch boundary: a run that returns
    still has epoch counter 0. *)
Theorem epoch_boundary_divisions :
  (forall model0 optimizer0 lr0 scheduler0 batch reads,
      (0 < epochs)%Z ->
      train OptState optimizer_step model_call wdl scale epochs save_epochs train_id
      train_log model0 optimizer0 lr0 scheduler0 ((true, batch) :: reads)
      = Raise ZeroDivisionError
          (mkState OptState model0 optimizer0 lr0 scheduler0 0 0 0 0 0 1 [])) /\
  (forall model0 optimizer0 lr0 scheduler0 reads st',
      save_epochs = 0%Z \/ (exists g, scheduler0 = StepLR 0 g 0) ->
      train OptState optimizer_step model_call wdl scale epochs save_epochs train_id
      train_log model0 optimizer0 lr0 scheduler0 reads = Ok st' ->
      epoch st' = 0%Z).
Proof.
  split.
  - intros model0 optimizer0 lr0 scheduler0 batch reads Hep.
    apply train_first_read_flagged, Hep.
  - intros model0 optimizer0 lr0 scheduler0 reads st' Hc. unfold train.
    apply train_loop_no_boundary; [exact Hc|reflexivity].
Qed.
(** ** Running one iteration forward *)

Lemma train_iter_plain_run (batch : Batch.t) (st : State) (prediction : Vector) :
  model_call (model st) batch = Some prediction ->
  iter (false, batch) st
  = let expected := expected_of wdl scale batch in
    let loss := mse prediction expected in
    let stepped := optimizer_step (optimizer st) (lr st) (model st) batch expected in
    let size := Z.of_nat (Batch.size batch) in
    let due := ((iter_since_log st + 1) * size >? LOG_ITERS)%Z in
    Ok (mkState OptState (clipper (snd stepped)) (fst stepped) (lr st) (scheduler st)
          (running_loss st + loss) (iterations st + 1)
          (if due then 0 else loss_since_log st + loss)
          (if due then 0%Z else (iter_since_log st + 1)%Z)
          (fens st + size) (epoch st)
          (trace st ++ batch_events batch loss
           ++ if due
              then progress_events train_log ((iterations st + 1) * size)
                     ((loss_since_log st + loss) / IZR (iter_since_log st + 1))
              else [])).
Proof.
  intros Hmc. unfold train_iter. rewrite train_on_batch_eq, Hmc. reflexivity.
Qed.

Lemma train_iter_boundary_run (batch : Batch.t) (st : State) (prediction : Vector)
    (scheduler' : Scheduler) (lr' : R) :
  iterations st <> 0%Z -> save_epochs <> 0%Z ->
  scheduler_step (scheduler st) (lr st) = Some (scheduler', lr') ->
  model_call (model st) batch = Some prediction ->
  iter (true, batch) st
  = let expected := expected_of wdl scale batch in
    let loss := mse prediction expected in
    let stepped := optimizer_step (optimizer st) lr' (model st) batch expected in
    let size := Z.of_nat (Batch.size batch) in
    let due := ((iter_since_log st + 1) * size >? LOG_ITERS)%Z in
    Ok (mkState OptState (clipper (snd stepped)) (fst stepped) lr' scheduler'
          (0 + loss) (0 + 1)
          (if due then 0 else loss_since_log st + loss)
          (if due then 0%Z else (iter_since_log st + 1)%Z)
          (0 + size) (epoch st + 1)
          ((trace st
            ++ boundary_events train_id save_epochs (epoch st + 1)
                 (running_loss st / IZR (iterations st)) (model st))
           ++ batch_events batch loss
           ++ if due
              then progress_events train_log ((0 + 1) * size)
                     ((loss_since_log st + loss) / IZR (iter_since_log st + 1))
              else [])).
Proof.
  intros Hit Hse Hss Hmc. unfold train_iter. rewrite epoch_end_eq. cbv zeta.
  apply Z.eqb_neq in Hit, Hse. rewrite Hit, Hse, Hss, train_on_batch_eq.
  cbn [model optimizer lr scheduler running_loss iterations
       loss_since_log iter_since_log fens epoch trace].
  rewrite Hmc. reflexivity.
Qed.
End TrainFacts.

Lemma train_loop_nil (OptState : Type) optimizer_step model_call (wdl scale : R)
    (epochs save_epochs : Z) (train_id : string) train_log (st : TrainState OptState) :
  train_loop OptState optimizer_step model_call wdl scale epochs save_epochs train_id
    train_log [] st = Ok st.
Proof. cbn [train_loop]. destruct (_ <? _)%Z; reflexivity. Qed.

Lemma sample_run (s0 s1 : Scheduler) (l1 : R) (epochs save : Z) :
  (1 <= epochs)%Z -> save <> 0%Z -> scheduler_step s0 1 = Some (s1, l1) ->
  exists st',
    train unit wide_optimizer half_model 0 400 epochs save "net" None
      (Linear_module wide_linear) tt 1 s0 sample_reads = Ok st' /\
    trace st'
    = batch_events labelled_batch sample_loss
      ++ boundary_events "net" save 1 (sample_loss / 1) clipped_wide
      ++ batch_events labelled_batch sample_loss /\
    epoch st' = 1%Z /\ scheduler st' = s1 /\ lr st' = l1 /\ model st' = clipped_wide.
Proof.
  intros Hep Hsave Hstep. eexists. split.
  - unfold train, sample_reads.
    eapply train_loop_cons; [cbn [epoch]; lia| |].
    { apply train_iter_plain_run. reflexivity. }
    cbv zeta. cbn [model optimizer lr scheduler running_loss iterations
                   loss_since_log iter_since_log fens epoch trace].
    eapply train_loop_cons; [cbn [epoch]; lia| |].
    { eapply train_iter_boundary_run; cbn [model optimizer lr scheduler running_loss
        iterations loss_since_log iter_since_log fens epoch trace];
        [lia|exact Hsave|exact Hstep|reflexivity]. }
    cbv zeta. cbn [model optimizer lr scheduler running_loss iterations
                   loss_since_log iter_since_log fens epoch trace].
    apply train_loop_nil.
  - cbn [trace epoch scheduler lr model].
    change ((0 + 1) * Z.of_nat (Batch.size labelled_batch) >? LOG_ITERS)%Z with false.
    cbv iota.
    change ((0 + 1 + 1) * Z.of_nat (Batch.size labelled_batch) >? LOG_ITERS)%Z with false.
    cbv iota.
    change (0 + 1)%Z with 1%Z. rewrite Rplus_0_l, !app_nil_r. cbn [app].
    split; [rewrite <- app_assoc; reflexivity|].
    split; [reflexivity|]. split; [reflexivity|]. split; reflexivity.
Qed.
(** ** What [main] hands over *)

Lemma main_setup_fields init_linear torch_load (args : Args.t) (call : TrainCall) :
  main_setup init_linear torch_load args = Ok call ->
  Args.lr args = Some (call_lr call) /\
  select_scheduler args (call_lr call) = Ok (call_scheduler call) /\
  Args.epochs args = Some (call_epochs call) /\
  call_save_epochs call = Args.save_epochs args /\
  (Args.resume args = None ->
   call_model call
   = Net_SquaredPerspectiveNet
       (SquaredPerspectiveNet.mk (init_linear 768 768) (init_linear (768 * 2) 1))%nat).
Proof.
  unfold main_setup.
  destruct (Args.train_id args); [|discriminate].
  destruct (Args.scale args); [|discriminate].
  destruct (Args.resume args) as [path|].
  - destruct (torch_load path) as [state|]; [|discriminate].
    destruct (load_state_dict _ state); [|discriminate].
    destruct (Args.data_root args); [|discriminate].
    destruct (Args.lr args) as [lr0|]; [|discriminate].
    destruct (Rlt_dec lr0 0); [discriminate|].
    destruct (select_scheduler args lr0) eqn:Hs; [|discriminate].
    destruct (Args.epochs args); [|discriminate].
    intros [= <-]. cbn. repeat split; auto. discriminate.
  - destruct (Args.data_root args); [|discriminate].
    destruct (Args.lr args) as [lr0|]; [|discriminate].
    destruct (Rlt_dec lr0 0); [discriminate|].
    destruct (select_scheduler args lr0) eqn:Hs; [|discriminate].
    destruct (Args.epochs args); [|discriminate].
    intros [= <-]. cbn. repeat split; auto.
Qed.

(** The run of [train] behind a result of [main] that carries a state. *)
Lemma main_train init_linear torch_load (OptState : Type) AdamW optimizer_step
    (args : Args.t) (reads : list (bool * Batch.t)) (st : TrainState OptState) :
  (main init_linear torch_load OptState AdamW optimizer_step args reads = Ok st \/
   exists e, main init_linear torch_load OptState AdamW optimizer_step args reads
             = Raise e (Some st)) ->
  exists call m,
    main_setup init_linear torch_load args = Ok call /\
    Net_module (call_model call) = Some m /\
    st = last_state
           (train OptState optimizer_step SquaredPerspectiveNet_call
              (call_wdl call) (call_scale call) (call_epochs call)
              (call_save_epochs call) (call_train_id call) (call_train_log call)
              m (AdamW (call_lr call)) (call_lr call) (call_scheduler call) reads) /\
    (main init_linear torch_load OptState AdamW optimizer_step args reads = Ok st ->
     train OptState optimizer_step SquaredPerspectiveNet_call
       (call_wdl call) (call_scale call) (call_epochs call)
       (call_save_epochs call) (call_train_id call) (call_train_log call)
       m (AdamW (call_lr call)) (call_lr call) (call_scheduler call) reads = Ok st).
Proof.
  unfold main.
  destruct (main_setup init_linear torch_load args) as [call|e0 []].
  2:{ intros [H|[e H]]; discriminate. }
  destruct (Net_module (call_model call)) as [m|] eqn:Hm.
  2:{ intros [H|[e H]]; discriminate. }
  intros H. exists call, m. split; [reflexivity|]. split; [exact Hm|].
  destruct (train _ _ _ _ _ _ _ _ _ _ _ _ _ _) as [st1|e1 st1]; cbn [last_state].
  - destruct H as [H|[e H]]; [|discriminate]. injection H as <-.
    split; reflexivity.
  - destruct H as [H|[e H]]; [discriminate|]. injection H as _ <-.
    split; [reflexivity|discriminate].
Qed.

(** X11: when neither [--lr-end] nor [--lr-drop] is given, [main] trains
    with the learning rate of [--lr] from the first iteration to the last:
    in the state a run of [main] ends in, returned or raised from inside
    [train], the learning rate is still the one on the command line. *)
Theorem no_schedule_keeps_lr_constant init_linear torch_load (OptState : Type) AdamW
    optimizer_step (args : Args.t) (reads : list (bool * Batch.t))
    (st : TrainState OptState) :
  Args.lr_end args = None ->
  Args.lr_drop args = None ->
  (main init_linear torch_load OptState AdamW optimizer_step args reads = Ok st \/
   exists e, main init_linear torch_load OptState AdamW optimizer_step args reads
             = Raise e (Some st)) ->
  Args.lr args = Some (lr st).
Proof.
  intros Hend Hdrop H.
  destruct (main_train _ _ _ _ _ _ _ _ H) as (call & m & Hsetup & _ & -> & _).
  destruct (main_setup_fields _ _ _ _ Hsetup) as (Hlr & Hsel & _).
  unfold select_scheduler in Hsel. rewrite Hend, Hdrop in Hsel. injection Hsel as Hsel.
  rewrite Hlr. f_equal. symmetry. unfold train.
  apply train_loop_constant_lr; cbn [scheduler lr]; [|reflexivity].
  exists 0%Z. symmetry. exact Hsel.
Qed.

(** X12: with [--lr-drop d] for a positive [d] and no [--lr-end], a run of
    [main] that returns after [k] epoch boundaries has the learning rate of
    [--lr] times [0.1] to the power [k / d], rounded down: the rate is
    divided by ten at every [d]-th boundary. *)
Theorem lr_drop_divides_lr_by_ten init_linear torch_load (OptState : Type) AdamW
    optimizer_step (args : Args.t) (reads : list (bool * Batch.t))
    (st : TrainState OptState) (d : Z) :
  Args.lr_end args = None ->
  Args.lr_drop args = Some d ->
  (0 < d)%Z ->
  main init_linear torch_load OptState AdamW optimizer_step args reads = Ok st ->
  exists lr0,
    Args.lr args = Some lr0 /\
    lr st = lr0 * 0.1 ^ Z.to_nat (epoch st / d) /\
    scheduler st = StepLR d 0.1 (epoch st).
Proof.
  intros Hend Hdrop Hd H.
  destruct (main_train _ _ _ _ _ _ _ _ (or_introl H)) as (call & m & Hsetup & _ & _ & Ht).
  specialize (Ht H).
  destruct (main_setup_fields _ _ _ _ Hsetup) as (Hlr & Hsel & _).
  unfold select_scheduler in Hsel. rewrite Hend, Hdrop in Hsel. injection Hsel as Hsel.
  exists (call_lr call). split; [exact Hlr|].
  unfold train in Ht. apply train_loop_steps with (scheduler0 := call_scheduler call)
    (lr0 := call_lr call) in Ht; cbn [epoch scheduler lr]; [|lia|reflexivity].
  destruct Ht as [He Hs]. rewrite <- Hsel in Hs.
  rewrite scheduler_steps_StepLR in Hs by lia.
  rewrite Z2Nat.id, Z.add_0_l, Zdiv_0_l, Z.sub_0_r in Hs by lia.
  injection Hs as Hs1 Hs2. split; [symmetry; exact Hs2|symmetry; exact Hs1].
Qed.
(** ** Sample runs of [main] *)

Lemma zeros_in_range (rows cols : nat) :
  in_range (-1.98) 1.98 (T2 (repeat (repeat 0 cols) rows)).
Proof.
  unfold in_range. cbn [tensor_entries].
  induction rows as [|rows IH]; cbn [repeat concat]; [constructor|].
  apply Forall_app. split; [|exact IH].
  clear IH. induction cols as [|cols IH]; cbn [repeat]; constructor; [lra|exact IH].
Qed.

Lemma clipper_zero_net :
  apply (WeightClipper.call WeightClipper.init) (SquaredPerspectiveNet_module zero_net)
  = SquaredPerspectiveNet_module zero_net.
Proof.
  apply apply_clipper_inside.
  change (Forall (in_range (-1.98) 1.98)
            [T2 (repeat (repeat 0 768%nat) 768%nat);
             T2 (repeat (repeat 0 (768 * 2)%nat) 1%nat)]).
  constructor; [apply zeros_in_range|]. constructor; [apply zeros_in_range|constructor].
Qed.

Lemma zero_net_accepts_bare_batch :
  exists prediction,
    SquaredPerspectiveNet_call (SquaredPerspectiveNet_module zero_net) bare_batch
    = Some prediction.
Proof.
  assert (H : SquaredPerspectiveNet.forward zero_net bare_batch <> None).
  { unfold SquaredPerspectiveNet.forward.
    assert (Hp : forall idx, idx = [] ->
                   perspective_pov (SquaredPerspectiveNet.perspective zero_net) idx
                     bare_batch <> None).
    { intros idx ->. apply perspective_pov_accepts. exists [], [].
      split; [reflexivity|]. repeat split; constructor. }
    pose proof (Hp (Batch.stm_indices bare_batch) eq_refl) as H1.
    pose proof (Hp (Batch.nstm_indices bare_batch) eq_refl) as H2.
    destruct (perspective_pov _ (Batch.stm_indices bare_batch) _); [|contradiction].
    destruct (perspective_pov _ (Batch.nstm_indices bare_batch) _); [|contradiction].
    discriminate. }
  unfold SquaredPerspectiveNet_call.
  change (SquaredPerspectiveNet_of_module (SquaredPerspectiveNet_module zero_net))
    with (Some zero_net).
  cbv beta iota.
  destruct (SquaredPerspectiveNet.forward zero_net bare_batch) as [p|]; [|contradiction].
  exists (concat p). reflexivity.
Qed.

(** [main] on a command line without [--resume], reading one batch and
    then one more flagged as a new epoch. *)
Lemma sample_main_run (args : Args.t) (call : TrainCall) (s1 : Scheduler) (l1 : R) :
  main_setup zero_linear no_checkpoint args = Ok call ->
  Args.resume args = None ->
  (1 <= call_epochs call)%Z ->
  call_save_epochs call <> 0%Z ->
  scheduler_step (call_scheduler call) (call_lr call) = Some (s1, l1) ->
  exists st',
    main zero_linear no_checkpoint unit (fun _ => tt) idle_optimizer args
      [(false, bare_batch); (true, bare_batch)] = Ok st' /\
    epoch st' = 1%Z /\ lr st' = l1 /\ scheduler st' = s1.
Proof.
  intros Hsetup Hres Hep Hsave Hstep.
  destruct (main_setup_fields _ _ _ _ Hsetup) as (_ & _ & _ & _ & Hmodel).
  specialize (Hmodel Hres).
  destruct zero_net_accepts_bare_batch as [p Hp].
  unfold main. rewrite Hsetup, Hmodel. cbn [Net_module].
  change (SquaredPerspectiveNet.mk (zero_linear 768 768) (zero_linear (768 * 2) 1))
    with zero_net.
  assert (Hrun : exists st',
             train unit idle_optimizer SquaredPerspectiveNet_call
               (call_wdl call) (call_scale call) (call_epochs call)
               (call_save_epochs call) (call_train_id call) (call_train_log call)
               (SquaredPerspectiveNet_module zero_net) tt (call_lr call)
               (call_scheduler call) [(false, bare_batch); (true, bare_batch)] = Ok st' /\
             epoch st' = 1%Z /\ lr st' = l1 /\ scheduler st' = s1).
  { eexists. split.
    - unfold train.
      eapply train_loop_cons; [cbn [epoch]; lia| |].
      { apply train_iter_plain_run. exact Hp. }
      cbv zeta. cbn [model optimizer lr scheduler running_loss iterations
                     loss_since_log iter_since_log fens epoch trace idle_optimizer
                     fst snd].
      rewrite clipper_zero_net.
      eapply train_loop_cons; [cbn [epoch]; lia| |].
      { eapply train_iter_boundary_run; cbn [model optimizer lr scheduler running_loss
          iterations loss_since_log iter_since_log fens epoch trace];
          [lia|exact Hsave|exact Hstep|exact Hp]. }
      cbv zeta. cbn [model optimizer lr scheduler running_loss iterations
                     loss_since_log iter_since_log fens epoch trace].
      apply train_loop_nil.
    - cbn [epoch lr scheduler]. repeat split; reflexivity. }
  destruct Hrun as (st' & Hrun & Hst'). exists st'. rewrite Hrun. split; [reflexivity|].
  exact Hst'.
Qed.
(** A run that reads a single, unflagged batch. *)
Lemma sample_run_unflagged (s0 : Scheduler) (epochs save : Z) :
  (1 <= epochs)%Z ->
  exists st',
    train unit wide_optimizer half_model 0 400 epochs save "net" None
      (Linear_module wide_linear) tt 1 s0 [(false, labelled_batch)] = Ok st'.
Proof.
  intros Hep. eexists. unfold train.
  eapply train_loop_cons; [cbn [epoch]; lia| |].
  { apply train_iter_plain_run. reflexivity. }
  apply train_loop_nil.
Qed.

(** ** The statements on the training loop at sample inputs *)

Lemma train_forwards_reads_in_order_witness :
  exists k : nat,
    (k <= length sample_reads)%nat /\
    forwarded (trace (last_state
                 (train unit wide_optimizer half_model 0 400 1 1 "net" None
                    (Linear_module wide_linear) tt 1 (ExponentialLR 1 0) sample_reads)))
    = map snd (firstn k sample_reads) /\
    (forall st',
        train unit wide_optimizer half_model 0 400 1 1 "net" None
          (Linear_module wide_linear) tt 1 (ExponentialLR 1 0) sample_reads = Ok st' ->
        epoch st' = Z.of_nat (length (filter fst (firstn k sample_reads))) /\
        ((k < length sample_reads)%nat -> (1 <= epoch st')%Z)).
Proof.
  exact (train_forwards_reads_in_order unit wide_optimizer half_model 0 400 1 1
           "net"%string None (Linear_module wide_linear) tt 1 (ExponentialLR 1 0)
           sample_reads).
Defined.

Lemma checkpoints_only_at_save_epochs_witness :
  filter is_checkpoint
    (trace (last_state
       (train unit wide_optimizer half_model 0 400 2 100 "net" None
          (Linear_module wide_linear) tt 1 (ExponentialLR 1 0) sample_reads))) = [] /\
  exists st',
    train unit wide_optimizer half_model 0 400 1 1 "net" None
      (Linear_module wide_linear) tt 1 (ExponentialLR 1 0) sample_reads = Ok st' /\
    exists m, In (SaveStateDict "net" 1 m) (trace st').
Proof.
  split.
  - apply (checkpoints_only_at_save_epochs unit wide_optimizer half_model 0 400 2 100
             "net"%string None (Linear_module wide_linear) tt 1 (ExponentialLR 1 0)
             sample_reads).
    cbn. lia.
  - destruct (sample_run (ExponentialLR 1 0) (ExponentialLR 1 1) (1 * 1) 1 1)
      as (st' & Hrun & _ & Hep & _); [lia|lia|reflexivity|].
    exists st'. split; [exact Hrun|].
    apply (checkpoints_only_at_save_epochs unit wide_optimizer half_model 0 400 1 1
             "net"%string None (Linear_module wide_linear) tt 1 (ExponentialLR 1 0)
             sample_reads); [exact Hrun|rewrite Hep; lia|reflexivity].
Defined.

Lemma optimizer_steps_after_every_checkpoint_witness :
  exists st',
    train unit wide_optimizer half_model 0 400 1 1 "net" None
      (Linear_module wide_linear) tt 1 (ExponentialLR 1 0) sample_reads = Ok st' /\
    In OptimizerStep
       (DumpJson "net" clipped_wide :: SchedulerStep
        :: batch_events labelled_batch sample_loss).
Proof.
  destruct (sample_run (ExponentialLR 1 0) (ExponentialLR 1 1) (1 * 1) 1 1)
    as (st' & Hrun & Htrace & _); [lia|lia|reflexivity|].
  exists st'. split; [exact Hrun|].
  apply (optimizer_steps_after_every_checkpoint unit wide_optimizer half_model 0 400 1 1
           "net"%string None (Linear_module wide_linear) tt 1 (ExponentialLR 1 0)
           sample_reads st' Hrun
           (batch_events labelled_batch sample_loss ++ [EpochReport 1 (sample_loss / 1)])
           "net"%string 1%Z clipped_wide).
  rewrite Htrace. reflexivity.
Defined.

Lemma epoch_report_is_mean_loss_witness :
  exists st',
    train unit wide_optimizer half_model 0 400 1 1 "net" None
      (Linear_module wide_linear) tt 1 (ExponentialLR 1 0) sample_reads = Ok st' /\
    epoch_losses (batch_events labelled_batch sample_loss) [] <> [] /\
    sample_loss / 1
    = Rsum (epoch_losses (batch_events labelled_batch sample_loss) [])
      / INR (length (epoch_losses (batch_events labelled_batch sample_loss) [])) /\
    1%Z = Z.of_nat (S (length (filter is_epoch_report
                                 (batch_events labelled_batch sample_loss)))).
Proof.
  destruct (sample_run (ExponentialLR 1 0) (ExponentialLR 1 1) (1 * 1) 1 1)
    as (st' & Hrun & Htrace & _); [lia|lia|reflexivity|].
  exists st'. split; [exact Hrun|].
  apply (epoch_report_is_mean_loss unit wide_optimizer half_model 0 400 1 1
           "net"%string None (Linear_module wide_linear) tt 1 (ExponentialLR 1 0)
           sample_reads (batch_events labelled_batch sample_loss)
           (SaveStateDict "net" 1 clipped_wide :: DumpJson "net" clipped_wide
            :: SchedulerStep :: batch_events labelled_batch sample_loss)).
  rewrite Hrun. cbn [last_state]. rewrite Htrace. reflexivity.
Defined.

Lemma scheduler_stepped_once_per_epoch_witness :
  exists st',
    train unit wide_optimizer half_model 0 400 1 1 "net" None
      (Linear_module wide_linear) tt 1 (StepLR 1 0.1 0) sample_reads = Ok st' /\
    (0 <= epoch st' <= Z.max 0 1)%Z /\
    scheduler_steps (Z.to_nat (epoch st')) (StepLR 1 0.1 0) 1
    = Some (scheduler st', lr st').
Proof.
  destruct (sample_run (StepLR 1 0.1 0) (StepLR 1 0.1 1) (1 * 0.1) 1 1)
    as (st' & Hrun & _); [lia|lia|reflexivity|].
  exists st'. split; [exact Hrun|].
  exact (scheduler_stepped_once_per_epoch unit wide_optimizer half_model 0 400 1 1
           "net"%string None (Linear_module wide_linear) tt 1 (StepLR 1 0.1 0)
           sample_reads st' Hrun).
Defined.

Lemma epoch_boundary_divisions_witness :
  train unit wide_optimizer half_model 0 400 1 1 "net" None
    (Linear_module wide_linear) tt 1 (ExponentialLR 1 0) [(true, labelled_batch)]
  = Raise ZeroDivisionError
      (mkState unit (Linear_module wide_linear) tt 1 (ExponentialLR 1 0) 0 0 0 0 0 1 []) /\
  exists st',
    train unit wide_optimizer half_model 0 400 1 0 "net" None
      (Linear_module wide_linear) tt 1 (ExponentialLR 1 0) [(false, labelled_batch)]
    = Ok st' /\
    epoch st' = 0%Z.
Proof.
  destruct (epoch_boundary_divisions unit wide_optimizer half_model 0 400 1 1
              "net"%string None) as [Hfirst _].
  destruct (epoch_boundary_divisions unit wide_optimizer half_model 0 400 1 0
              "net"%string None) as [_ Hzero].
  split.
  - apply Hfirst. lia.
  - destruct (sample_run_unflagged (ExponentialLR 1 0) 1 0) as [st' Hrun]; [lia|].
    exists st'. split; [exact Hrun|].
    apply (Hzero _ _ _ _ _ _ (or_introl eq_refl) Hrun).
Defined.

Lemma no_schedule_keeps_lr_constant_witness :
  exists st',
    main zero_linear no_checkpoint unit (fun _ => tt) idle_optimizer plain_args
      [(false, bare_batch); (true, bare_batch)] = Ok st' /\
    Some 0.001 = Some (lr st').
Proof.
  pose proof (main_setup_without_resume zero_linear no_checkpoint plain_args "net" 400
                "data" 0.001 (ExponentialLR 1.0 0) 2 eq_refl eq_refl eq_refl eq_refl
                eq_refl ltac:(lra) eq_refl eq_refl) as Hsetup.
  destruct (sample_main_run plain_args _ (ExponentialLR 1.0 1) (0.001 * 1.0) Hsetup)
    as (st' & Hrun & _); [reflexivity|cbn; lia|discriminate|reflexivity|].
  exists st'. split; [exact Hrun|].
  apply (no_schedule_keeps_lr_constant zero_linear no_checkpoint unit (fun _ => tt)
           idle_optimizer plain_args [(false, bare_batch); (true, bare_batch)] st');
    [reflexivity|reflexivity|left; exact Hrun].
Defined.

Lemma lr_drop_divides_lr_by_ten_witness :
  exists st',
    main zero_linear no_checkpoint unit (fun _ => tt) idle_optimizer drop_args
      [(false, bare_batch); (true, bare_batch)] = Ok st' /\
    epoch st' = 1%Z /\
    exists lr0,
      Some 0.001 = Some lr0 /\
      lr st' = lr0 * 0.1 ^ Z.to_nat (epoch st' / 1) /\
      scheduler st' = StepLR 1 0.1 (epoch st').
Proof.
  pose proof (main_setup_without_resume zero_linear no_checkpoint drop_args "net" 400
                "data" 0.001 (StepLR 1 0.1 0) 2 eq_refl eq_refl eq_refl eq_refl
                eq_refl ltac:(lra) eq_refl eq_refl) as Hsetup.
  destruct (sample_main_run drop_args _ (StepLR 1 0.1 1) (0.001 * 0.1) Hsetup)
    as (st' & Hrun & Hep & _); [reflexivity|cbn; lia|discriminate|reflexivity|].
  exists st'. split; [exact Hrun|]. split; [exact Hep|].
  apply (lr_drop_divides_lr_by_ten zero_linear no_checkpoint unit (fun _ => tt)
           idle_optimizer drop_args [(false, bare_batch); (true, bare_batch)] st' 1);
    [reflexivity|reflexivity|lia|exact Hrun].
Defined.

(** * Targets and losses *)

Lemma sigmoid_increasing (x y : R) : x < y -> sigmoid x < sigmoid y.
Proof.
  intros H. unfold sigmoid.
  assert (Hx := exp_pos (- x)). assert (Hy := exp_pos (- y)).
  assert (He : exp (- y) < exp (- x)) by (apply exp_increasing; lra).
  apply Rinv_lt_contravar; [|lra].
  apply Rmult_lt_0_compat; lra.
Qed.

Lemma blend_range (wdl scale cp wdl_label : R) :
  0 <= wdl <= 1 -> 0 <= wdl_label <= 1 ->
  0 <= blend wdl scale cp wdl_label <= 1.
Proof.
  intros Hw Hl. unfold blend.
  pose proof (sigmoid_range (cp / scale)) as Hs. nra.
Qed.

Lemma expected_of_range (wdl scale : R) (batch : Batch.t) :
  0 <= wdl <= 1 ->
  Forall (fun w => 0 <= w <= 1) (Batch.wdl batch) ->
  Forall (fun t => 0 <= t <= 1) (expected_of wdl scale batch).
Proof.
  intros Hw. unfold expected_of. generalize (Batch.cp batch) as cps.
  intros cps Hall. revert cps.
  induction Hall as [|w ws Hw0 _ IH]; intros [|c cps]; cbn [combine map];
    try constructor.
  - apply blend_range; assumption.
  - apply IH.
Qed.

(** X13: the training target of one example is a probability: with a
    nonzero [scale], a blending weight [wdl] in [0, 1] and a game result in
    [0, 1] it lies in [0, 1], and so does every entry of the target column of
    a batch.  For a positive [scale] and [wdl] at most 1 the target never
    decreases when the evaluation [cp] grows. *)
Theorem target_is_a_probability :
  (forall wdl scale cp wdl_label : R,
      scale <> 0 -> 0 <= wdl <= 1 -> 0 <= wdl_label <= 1 ->
      0 <= blend wdl scale cp wdl_label <= 1) /\
  (forall (wdl scale : R) (batch : Batch.t),
      scale <> 0 -> 0 <= wdl <= 1 ->
      Forall (fun w => 0 <= w <= 1) (Batch.wdl batch) ->
      Forall (fun t => 0 <= t <= 1) (expected_of wdl scale batch)) /\
  (forall wdl scale cp cp' wdl_label : R,
      0 < scale -> wdl <= 1 -> cp <= cp' ->
      blend wdl scale cp wdl_label <= blend wdl scale cp' wdl_label).
Proof.
  split; [|split].
  - intros wdl scale cp wdl_label _. apply blend_range.
  - intros wdl scale batch _. apply expected_of_range.
  - intros wdl scale cp cp' wdl_label Hs Hw Hcp. unfold blend.
    assert (H : sigmoid (cp / scale) <= sigmoid (cp' / scale)).
    { destruct Hcp as [Hcp| ->]; [|lra]. apply Rlt_le.
      apply sigmoid_increasing. unfold Rdiv. apply Rmult_lt_compat_r; [|exact Hcp].
      apply Rinv_0_lt_compat, Hs. }
    nra.
Qed.

Lemma target_is_a_probability_witness :
  0 <= blend 0.5 400 100 1 <= 1 /\
  Forall (fun t => 0 <= t <= 1) (expected_of 0.5 400 labelled_batch) /\
  blend 0.5 400 100 1 <= blend 0.5 400 200 1.
Proof.
  destruct target_is_a_probability as (Hrange & Hcolumn & Hmono).
  split; [|split].
  - apply Hrange; lra.
  - apply Hcolumn; [lra|lra|].
    cbn [labelled_batch Batch.wdl]. repeat constructor; lra.
  - apply Hmono; lra.
Defined.

Lemma squared_error_sum (l : list (R * R)) :
  Forall (fun pe => 0 <= fst pe <= 1 /\ 0 <= snd pe <= 1) l ->
  0 <= Rsum (map (fun pe => (fst pe - snd pe) * (fst pe - snd pe)) l) <= INR (length l).
Proof.
  induction 1 as [|[p e] l [Hp He] Hall IH]; [cbn; lra|].
  cbn [fst snd] in Hp, He.
  assert (Hsq : 0 <= (p - e) * (p - e) <= 1).
  { assert (Hd : -1 <= p - e <= 1) by lra. remember (p - e) as d eqn:Ed. clear Ed.
    assert (H1 : 0 <= (1 - d) * (1 + d)) by (apply Rmult_le_pos; lra).
    split; nra. }
  change (length ((p, e) :: l)) with (S (length l)).
  rewrite S_INR. cbn [map Rsum fst snd]. lra.
Qed.

Lemma Forall_combine {A B : Type} (P : A -> Prop) (Q : B -> Prop) (a : list A)
    (b : list B) :
  Forall P a -> Forall Q b -> Forall (fun ab => P (fst ab) /\ Q (snd ab)) (combine a b).
Proof.
  intros Ha. revert b. induction Ha as [|x a Hx _ IH]; intros b Hb; [constructor|].
  destruct Hb as [|y b Hy Hb]; cbn [combine]; constructor; auto.
Qed.

Lemma mse_range (prediction expected : Vector) :
  Forall (fun p => 0 <= p <= 1) prediction ->
  Forall (fun t => 0 <= t <= 1) expected ->
  combine prediction expected <> [] ->
  0 <= mse prediction expected <= 1.
Proof.
  intros Hp He Hne. unfold mse.
  pose proof (squared_error_sum _ (Forall_combine _ _ _ _ Hp He)) as [H0 H1].
  assert (Hn : 0 < INR (length (combine prediction expected))).
  { apply lt_0_INR. destruct (combine prediction expected); [contradiction|cbn; lia]. }
  split.
  - apply Rmult_le_pos; [exact H0|]. apply Rlt_le, Rinv_0_lt_compat, Hn.
  - apply (Rmult_le_reg_r (INR (length (combine prediction expected)))); [exact Hn|].
    unfold Rdiv. rewrite Rmult_assoc, Rinv_l, Rmult_1_r, Rmult_1_l by lra. exact H1.
Qed.

Lemma SquaredPerspectiveNet_of_module_module (net : SquaredPerspectiveNet.t) :
  SquaredPerspectiveNet_of_module (SquaredPerspectiveNet_module net) = Some net.
Proof. destruct net as [[pw pb] [ow ob]]. reflexivity. Qed.

Lemma squared_forward_column (net : SquaredPerspectiveNet.t) (batch : Batch.t)
    (m : Matrix) :
  single_output (SquaredPerspectiveNet.out net) ->
  SquaredPerspectiveNet.forward net batch = Some m ->
  probability_column (Batch.size batch) m.
Proof.
  intros Hout. unfold SquaredPerspectiveNet.forward.
  destruct (perspective_pov _ (Batch.stm_indices batch) batch) as [stm|] eqn:Es;
    [|discriminate].
  destruct (perspective_pov _ (Batch.nstm_indices batch) batch) as [nstm|] eqn:En;
    [|discriminate].
  intros [= <-]. apply perspective_pov_length in Es, En.
  assert (Hlen : length (mmap (fun a => a * a) (mmap (clamp 0 1) (cat_dim1 stm nstm)))
                 = Batch.size batch).
  { unfold mmap. rewrite !length_map, cat_dim1_length, Es, En. apply Nat.min_id. }
  rewrite <- Hlen at 1. apply sigmoid_head_column, Hout.
Qed.

Lemma unit_column_concat (n : nat) (m : Matrix) :
  unit_column n m ->
  length (concat m) = n /\ Forall (fun p => 0 <= p <= 1) (concat m).
Proof.
  intros [[Hlen Hrows] Hall]. subst n. split.
  - induction Hrows as [|row m Hrow _ IH]; [reflexivity|].
    cbn [concat length]. rewrite length_app, Hrow.
    inversion Hall; subst. rewrite IH by assumption. reflexivity.
  - clear Hrows. induction Hall as [|row m Hrow _ IH]; cbn [concat]; [constructor|].
    apply Forall_app. split; assumption.
Qed.

(** X14: for the network [main] trains, with its single output, a batch
    of at least one example whose two label columns have one entry per
    example, game results in [0, 1], a nonzero [scale] and [wdl] in [0, 1]:
    the prediction has one entry per example, each between 0 and 1, and the
    loss [train] computes from it lies between 0 and 1. *)
Theorem main_loss_is_bounded (net : SquaredPerspectiveNet.t) (batch : Batch.t)
    (prediction : Vector) (wdl scale : R) :
  single_output (SquaredPerspectiveNet.out net) ->
  SquaredPerspectiveNet_call (SquaredPerspectiveNet_module net) batch = Some prediction ->
  scale <> 0 -> 0 <= wdl <= 1 ->
  (0 < Batch.size batch)%nat ->
  length (Batch.cp batch) = Batch.size batch ->
  length (Batch.wdl batch) = Batch.size batch ->
  Forall (fun w => 0 <= w <= 1) (Batch.wdl batch) ->
  length prediction = Batch.size batch /\
  Forall (fun p => 0 <= p <= 1) prediction /\
  0 <= mse prediction (expected_of wdl scale batch) <= 1.
Proof.
  intros Hout Hcall _ Hw Hsize Hcp Hwdl Hlabels.
  unfold SquaredPerspectiveNet_call in Hcall.
  rewrite SquaredPerspectiveNet_of_module_module in Hcall.
  destruct (SquaredPerspectiveNet.forward net batch) as [m|] eqn:Hf; [|discriminate].
  injection Hcall as <-.
  destruct (unit_column_concat _ _
              (probability_column_unit _ _ (squared_forward_column _ _ _ Hout Hf)))
    as [Hlen Hall].
  split; [exact Hlen|]. split; [exact Hall|].
  apply mse_range; [exact Hall|apply expected_of_range; assumption|].
  intros E. apply (f_equal (@length _)) in E.
  unfold expected_of in E.
  rewrite length_combine, length_map, length_combine, Hlen, Hcp, Hwdl in E.
  cbn [length] in E. lia.
Qed.

Lemma main_loss_is_bounded_witness :
  exists prediction,
    SquaredPerspectiveNet_call (SquaredPerspectiveNet_module zero_net) bare_batch
    = Some prediction /\
    length prediction = 1%nat /\
    Forall (fun p => 0 <= p <= 1) prediction /\
    0 <= mse prediction (expected_of 0.5 400 bare_batch) <= 1.
Proof.
  destruct zero_net_accepts_bare_batch as [prediction Hcall].
  exists prediction. split; [exact Hcall|].
  apply (main_loss_is_bounded zero_net bare_batch prediction 0.5 400);
    [split; reflexivity|exact Hcall|lra|lra|cbn; lia|reflexivity|reflexivity|].
  cbn [bare_batch Batch.wdl]. repeat constructor; lra.
Defined.

(** * The progress report *)

Section ProgressFacts.

Variable OptState : Type.
Variable optimizer_step : OptState -> R -> Module -> Batch.t -> Vector -> OptState * Module.
Variable model_call : Module -> Batch.t -> option Vector.
Variables wdl scale : R.
Variables epochs save_epochs : Z.
Variable train_id : string.
Variable train_log : option string.

Local Abbreviation State := (TrainState OptState).
Local Abbreviation iter :=
  (train_iter OptState optimizer_step model_call wdl scale save_epochs train_id train_log).
Local Abbreviation loop :=
  (train_loop OptState optimizer_step model_call wdl scale epochs save_epochs train_id
     train_log).

(** Induction over the loop that remembers where each read comes from. *)
Lemma train_loop_reads_ind (P : State -> Prop) (reads : list (bool * Batch.t)) :
  (forall rd st, In rd reads -> P st -> (epoch st < epochs)%Z ->
     P (last_state (iter rd st))) ->
  forall st, P st -> P (last_state (loop reads st)).
Proof.
  induction reads as [|rd reads IH]; intros Hstep st HP.
  - cbn [train_loop]. destruct (epoch st <? epochs)%Z; exact HP.
  - cbn [train_loop]. destruct (epoch st <? epochs)%Z eqn:Hlt; [|exact HP].
    apply Z.ltb_lt in Hlt.
    pose proof (Hstep rd st (or_introl eq_refl) HP Hlt) as H.
    destruct (iter rd st) as [st1|e st1]; cbn [last_state] in *; [|exact H].
    apply IH; [|exact H].
    intros rd' st' Hin. apply Hstep. right. exact Hin.
Qed.

Lemma progress_reports_app (a b : list Event) :
  length (filter is_progress_report (a ++ b))
  = (length (filter is_progress_report a) + length (filter is_progress_report b))%nat.
Proof. rewrite filter_app, length_app. reflexivity. Qed.

Lemma progress_reports_boundary_events (e : Z) (mean : R) (m : Module) :
  filter is_progress_report (boundary_events train_id save_epochs e mean m) = [].
Proof. unfold boundary_events. destruct (e mod save_epochs =? 0)%Z; reflexivity. Qed.

Lemma progress_reports_progress_events (positions : Z) (loss : R) :
  length (filter is_progress_report (progress_events train_log positions loss)) = 1%nat.
Proof. unfold progress_events. destruct train_log; reflexivity. Qed.

Lemma forwarded_if_due (due : bool) (positions : Z) (loss : R) :
  forwarded (if due then progress_events train_log positions loss else []) = [].
Proof. destruct due; [apply forwarded_progress_events|reflexivity]. Qed.

Lemma progress_reports_if_due (due : bool) (positions : Z) (loss : R) :
  length (filter is_progress_report
            (if due then progress_events train_log positions loss else []))
  = if due then 1%nat else 0%nat.
Proof. destruct due; [apply progress_reports_progress_events|reflexivity]. Qed.

(** With [s] positions per batch the report falls due exactly when the
    counter reaches the period. *)
Lemma report_due (s i : Z) :
  (0 < s)%Z -> (0 <= i < LOG_ITERS / s + 1)%Z ->
  ((i + 1) * s >? LOG_ITERS)%Z = (i + 1 =? LOG_ITERS / s + 1)%Z.
Proof.
  intros Hs Hi.
  pose proof (Z.div_mod LOG_ITERS s ltac:(lia)) as D.
  pose proof (Z.mod_pos_bound LOG_ITERS s Hs) as B.
  remember (LOG_ITERS / s)%Z as T eqn:ET. remember (LOG_ITERS mod s)%Z as r eqn:Er.
  clear ET Er.
  destruct ((i + 1) * s >? LOG_ITERS)%Z eqn:E1; destruct (i + 1 =? T + 1)%Z eqn:E2;
    try reflexivity; exfalso.
  - apply Z.gtb_lt in E1. apply Z.eqb_neq in E2. nia.
  - assert (E1' : ((i + 1) * s <= LOG_ITERS)%Z).
    { destruct (Z.gtb_spec ((i + 1) * s) LOG_ITERS); [discriminate|lia]. }
    apply Z.eqb_eq in E2. nia.
Qed.

Lemma count_step (n p : Z) :
  (0 < p)%Z -> (0 <= n)%Z ->
  ((n + 1) mod p = if n mod p + 1 =? p then 0 else n mod p + 1)%Z /\
  ((n + 1) / p = n / p + if n mod p + 1 =? p then 1 else 0)%Z.
Proof.
  intros Hp Hn.
  pose proof (Z.div_mod n p ltac:(lia)) as D.
  pose proof (Z.mod_pos_bound n p Hp) as B.
  destruct (n mod p + 1 =? p)%Z eqn:E.
  - apply Z.eqb_eq in E. split.
    + symmetry. apply (Z.mod_unique_pos _ _ (n / p + 1)); lia.
    + symmetry. apply (Z.div_unique_pos _ _ _ 0); lia.
  - apply Z.eqb_neq in E. split.
    + symmetry. apply (Z.mod_unique_pos _ _ (n / p)); lia.
    + symmetry. apply (Z.div_unique_pos _ _ _ (n mod p + 1)); lia.
Qed.

Lemma train_iter_cadence (s : nat) (rd : bool * Batch.t) (st : State) :
  (0 < s)%nat -> Batch.size (snd rd) = s ->
  cadence_ok s st -> cadence_ok s (last_state (iter rd st)).
Proof.
  intros Hs Hsize [Hcount Hctr].
  assert (Hperiod : (0 < LOG_ITERS / Z.of_nat s + 1)%Z).
  { assert (0 <= LOG_ITERS / Z.of_nat s)%Z; [|lia].
    apply Z.div_pos; [unfold LOG_ITERS|]; lia. }
  pose proof (count_step (Z.of_nat (length (forwarded (trace st)))) _ Hperiod
                ltac:(lia)) as [Hmod Hdiv].
  pose proof (Z.mod_pos_bound (Z.of_nat (length (forwarded (trace st)))) _ Hperiod) as Hb.
  pose proof (report_due (Z.of_nat s) (iter_since_log st) ltac:(lia)
                ltac:(rewrite Hctr; exact Hb)) as Hdue.
  rewrite Hctr in Hdue at 2.
  remember (Z.of_nat (length (forwarded (trace st)))
            mod (LOG_ITERS / Z.of_nat s + 1) + 1 =? LOG_ITERS / Z.of_nat s + 1)%Z
    as due eqn:Edue.
  unfold cadence_ok.
  iter_cases (epoch_end_eq OptState save_epochs train_id)
             (train_on_batch_eq OptState optimizer_step model_call wdl scale train_log)
             model_call save_epochs rd st;
    cbn [snd] in Hsize; try rewrite Hsize; try rewrite Hdue;
    rewrite ?forwarded_app, ?filter_app, ?length_app, ?forwarded_boundary_events,
      ?progress_reports_boundary_events;
    cbn [forwarded filter length is_progress_report batch_events app];
    rewrite ?Nat.add_0_r;
    try (split; [exact Hcount|exact Hctr]).
  - rewrite forwarded_if_due, progress_reports_if_due. cbn [length].
    replace (Z.of_nat (length (forwarded (trace st)) + (1 + 0)))
      with (Z.of_nat (length (forwarded (trace st))) + 1)%Z by lia.
    rewrite Hmod, Hdiv, <- Hctr. destruct due; split; lia.
  - destruct ((epoch st + 1) mod save_epochs =? 0)%Z;
      cbn [forwarded filter length is_progress_report]; rewrite !Nat.add_0_r;
      split; [exact Hcount|exact Hctr|exact Hcount|exact Hctr].
  - rewrite forwarded_if_due, progress_reports_if_due. cbn [length].
    replace (Z.of_nat (length (forwarded (trace st)) + (1 + 0)))
      with (Z.of_nat (length (forwarded (trace st))) + 1)%Z by lia.
    rewrite Hmod, Hdiv, <- Hctr. destruct due; split; lia.
Qed.

(** X15: when every batch read has the same positive number [s] of
    examples, [train] prints a progress report after every
    [LOG_ITERS / s + 1] trained batches and at no other time, counted from
    the start of the run and not from the last epoch boundary: in the state
    a run ends in, returned or raised, the number of reports is the number
    of trained batches divided by that period, rounded down, and the
    counter [iter_since_log] is the remainder. *)
Theorem progress_report_cadence (s : nat) (model0 : Module) (optimizer0 : OptState)
    (lr0 : R) (scheduler0 : Scheduler) (reads : list (bool * Batch.t)) :
  (0 < s)%nat ->
  Forall (fun rd => Batch.size (snd rd) = s) reads ->
  cadence_ok s
    (last_state
       (train OptState optimizer_step model_call wdl scale epochs save_epochs train_id
          train_log model0 optimizer0 lr0 scheduler0 reads)).
Proof.
  intros Hs Hreads. unfold train. apply train_loop_reads_ind.
  - intros rd st Hin Hst _. apply train_iter_cadence; [exact Hs| |exact Hst].
    rewrite Forall_forall in Hreads. apply Hreads, Hin.
  - unfold cadence_ok. cbn [trace iter_since_log forwarded filter length].
    rewrite Zdiv_0_l, Zmod_0_l. split; reflexivity.
Qed.

End ProgressFacts.

Lemma progress_report_cadence_witness :
  cadence_ok 2
    (last_state
       (train unit wide_optimizer half_model 0 400 1 1 "net" None
          (Linear_module wide_linear) tt 1 (ExponentialLR 1 0) sample_reads)).
Proof.
  apply (progress_report_cadence unit wide_optimizer half_model 0 400 1 1 "net"%string
           None 2 (Linear_module wide_linear) tt 1 (ExponentialLR 1 0) sample_reads).
  - lia.
  - repeat constructor.
Defined.

(** * Examples of a batch do not mix *)

Lemma sel_length {A B : Type} (i : Z) (rs : list Z) (xs : list A) (ys : list B) :
  length rs = length xs -> length rs = length ys ->
  length (sel i rs xs) = length (sel i rs ys).
Proof.
  revert xs ys. induction rs as [|r rs IH]; intros [|x xs] [|y ys]; cbn [length sel];
    try discriminate; try reflexivity.
  intros [= Hx] [= Hy]. destruct (r =? i)%Z; cbn [length]; rewrite (IH xs ys); auto.
Qed.

Lemma sel_Forall {A : Type} (P : A -> Prop) (i : Z) (rs : list Z) (xs : list A) :
  Forall P xs -> Forall P (sel i rs xs).
Proof.
  intros H. revert rs. induction H as [|x xs Hx _ IH]; intros [|r rs]; cbn [sel];
    try constructor.
  destruct (r =? i)%Z; [constructor; [exact Hx|apply IH]|apply IH].
Qed.

Lemma sel_map {A B : Type} (f : A -> B) (i : Z) (rs : list Z) (xs : list A) :
  sel i rs (map f xs) = map f (sel i rs xs).
Proof.
  revert xs. induction rs as [|r rs IH]; intros [|x xs]; cbn [sel map]; try reflexivity.
  destruct (r =? i)%Z; cbn [map]; rewrite IH; reflexivity.
Qed.

Lemma reshape2_T_flat_pairs (rs cs : list Z) :
  length rs = length cs -> reshape2_T (flat_pairs rs cs) = Some (rs, cs).
Proof.
  revert cs. induction rs as [|r rs IH]; intros [|c cs]; cbn [length flat_pairs];
    try discriminate; [reflexivity|].
  intros [= H]. cbn [reshape2_T]. rewrite (IH cs H). reflexivity.
Qed.

Lemma coo_entry_sel (i c : nat) (rs cs : list Z) (vs : list R) :
  length rs = length cs -> length rs = length vs ->
  coo_entry rs cs vs i c
  = coo_entry (map (fun _ => 0%Z) (sel (Z.of_nat i) rs cs)) (sel (Z.of_nat i) rs cs)
      (sel (Z.of_nat i) rs vs) 0 c.
Proof.
  revert cs vs. induction rs as [|r rs IH]; intros [|k cs] [|v vs]; cbn [length];
    try discriminate; [reflexivity|].
  intros [= Hc] [= Hv]. cbn [coo_entry sel].
  destruct (r =? Z.of_nat i)%Z; cbn [map coo_entry andb].
  - rewrite (IH cs vs Hc Hv). reflexivity.
  - rewrite (IH cs vs Hc Hv). ring.
Qed.

(** Row [i] of the dense board is the dense board of example [i] alone. *)
Lemma to_dense_example (i n dim : nat) (rs cs : list Z) (vs : list R) :
  (i < n)%nat -> length rs = length cs -> length rs = length vs ->
  to_dense (mkSparse (map (fun _ => 0%Z) (sel (Z.of_nat i) rs cs))
              (sel (Z.of_nat i) rs cs) (sel (Z.of_nat i) rs vs) (1%nat, dim))
  = [nth i (to_dense (mkSparse rs cs vs (n, dim))) []].
Proof.
  intros Hi Hc Hv. unfold to_dense. cbn [sp_rows sp_cols sp_values sp_shape fst snd].
  rewrite nth_map_seq by exact Hi. cbn [seq map]. f_equal.
  apply map_ext. intros c. symmetry. apply coo_entry_sel; assumption.
Qed.

Lemma example_well_formed (i n dim : nat) (rs cs : list Z) (vs : list R) :
  well_formed n dim rs cs vs ->
  well_formed 1 dim (map (fun _ => 0%Z) (sel (Z.of_nat i) rs cs))
    (sel (Z.of_nat i) rs cs) (sel (Z.of_nat i) rs vs).
Proof.
  intros (Hr & Hc & _ & Hcs). split; [|split; [|split]].
  - rewrite length_map. apply sel_length; congruence.
  - apply sel_length; congruence.
  - apply Forall_forall. intros x Hx. apply in_map_iff in Hx as (_ & <- & _). lia.
  - apply sel_Forall, Hcs.
Qed.

Lemma nth_linear (l : Linear) (x : Matrix) (i : nat) :
  (i < length x)%nat ->
  nth i (linear l x) [] = linear_row (weight l) (bias l) (nth i x []).
Proof.
  intros Hi. unfold linear.
  rewrite (nth_indep _ [] (linear_row (weight l) (bias l) []))
    by (rewrite length_map; exact Hi).
  apply map_nth.
Qed.

Lemma nth_mmap (f : R -> R) (x : Matrix) (i : nat) :
  nth i (mmap f x) [] = map f (nth i x []).
Proof. unfold mmap. apply (map_nth (map f) x []). Qed.

Lemma nth_cat_dim1 (a b : Matrix) (i : nat) :
  length a = length b ->
  nth i (cat_dim1 a b) [] = nth i a [] ++ nth i b [].
Proof.
  revert b i. induction a as [|ra a IH]; intros [|rb b] i; cbn [length];
    try discriminate.
  - destruct i; reflexivity.
  - intros [= H]. destruct i as [|i]; cbn [cat_dim1 nth]; [reflexivity|]. apply IH, H.
Qed.

Lemma nth_madd (a b : Matrix) (i : nat) :
  length a = length b ->
  nth i (madd a b) [] = vadd (nth i a []) (nth i b []).
Proof.
  revert b i. induction a as [|ra a IH]; intros [|rb b] i; cbn [length];
    try discriminate.
  - destruct i; reflexivity.
  - intros [= H]. destruct i as [|i]; cbn [madd nth]; [reflexivity|]. apply IH, H.
Qed.

Lemma rows_cols_of (idx rs cs : list Z) :
  reshape2_T idx = Some (rs, cs) -> rows_of idx = rs /\ cols_of idx = cs.
Proof. unfold rows_of, cols_of. intros ->. split; reflexivity. Qed.

(** One perspective of the Board768 networks, for one example. *)
Lemma perspective_pov_example (perspective : Linear) (idx : list Z)
    (batch example : Batch.t) (i : nat) (m : Matrix) :
  perspective_pov perspective idx batch = Some m ->
  (i < Batch.size batch)%nat ->
  Batch.size example = 1%nat ->
  Batch.values example = sel (Z.of_nat i) (rows_of idx) (Batch.values batch) ->
  perspective_pov perspective (example_indices i idx) example = Some [nth i m []].
Proof.
  unfold perspective_pov, example_indices. intros H Hi Hsize Hvals.
  destruct (reshape2_T idx) as [[rs cs]|] eqn:Hidx; [|discriminate].
  destruct (rows_cols_of _ _ _ Hidx) as [Hrows Hcols].
  rewrite Hrows in Hvals. rewrite Hrows, Hcols.
  destruct (sparse_coo_tensor (rs, cs) _ _) as [s|] eqn:Hs; [|discriminate].
  injection H as <-.
  assert (Hwf : well_formed (Batch.size batch) 768 rs cs (Batch.values batch))
    by (apply sparse_coo_tensor_accepts; congruence).
  apply sparse_coo_tensor_Some in Hs as (-> & _). cbn [fst snd].
  pose proof Hwf as (Hr & Hc & _).
  rewrite reshape2_T_flat_pairs by apply length_map. cbv beta iota.
  rewrite Hsize, Hvals, (well_formed_checks _ _ _ _ _ (example_well_formed i _ _ _ _ _ Hwf)).
  cbv beta iota.
  rewrite (to_dense_example i (Batch.size batch)) by congruence.
  cbn [linear map]. rewrite nth_linear by (rewrite to_dense_length; exact Hi). reflexivity.
Qed.

(** One perspective of the bucketed networks, for one example. *)
Lemma factorised_ft_example (dim base : nat) (ft fft : Linear) (idx : list Z)
    (batch example : Batch.t) (i : nat) (m : Matrix) :
  factorised_ft dim base ft fft idx batch = Some m ->
  (i < Batch.size batch)%nat ->
  Batch.size example = 1%nat ->
  Batch.values example = sel (Z.of_nat i) (rows_of idx) (Batch.values batch) ->
  factorised_ft dim base ft fft (example_indices i idx) example = Some [nth i m []].
Proof.
  unfold factorised_ft, example_indices. intros H Hi Hsize Hvals.
  destruct (reshape2_T idx) as [[rs cs]|] eqn:Hidx; [|discriminate].
  destruct (rows_cols_of _ _ _ Hidx) as [Hrows Hcols].
  rewrite Hrows in Hvals. rewrite Hrows, Hcols.
  destruct (sparse_coo_tensor (rs, cs) _ _) as [s|] eqn:Hs; [|discriminate].
  destruct (sparse_coo_tensor (factoriser_indices _ (rs, cs)) _ _) as [v|] eqn:Hv;
    [|discriminate].
  injection H as <-.
  assert (Hwf : well_formed (Batch.size batch) dim rs cs (Batch.values batch))
    by (apply sparse_coo_tensor_accepts; congruence).
  unfold factoriser_indices in *. cbn [fst snd] in *.
  assert (Hwv : well_formed (Batch.size batch) base rs
                  (map (fun f => (f mod Z.of_nat base)%Z) cs) (Batch.values batch))
    by (apply sparse_coo_tensor_accepts; congruence).
  apply sparse_coo_tensor_Some in Hs as (-> & _).
  apply sparse_coo_tensor_Some in Hv as (-> & _). cbn [fst snd].
  pose proof Hwf as (Hr & Hc & _).
  rewrite reshape2_T_flat_pairs by apply length_map. cbv beta iota.
  rewrite Hsize, Hvals, (well_formed_checks _ _ _ _ _ (example_well_formed i _ _ _ _ _ Hwf)).
  cbv beta iota.
  rewrite (to_dense_example i (Batch.size batch)) by congruence.
  cbn [fst snd].
  rewrite <- (sel_map (fun f => (f mod Z.of_nat base)%Z)).
  assert (Hz : map (fun _ : Z => 0%Z) (sel (Z.of_nat i) rs cs)
               = map (fun _ : Z => 0%Z)
                   (sel (Z.of_nat i) rs (map (fun f => (f mod Z.of_nat base)%Z) cs))).
  { rewrite sel_map, map_map. reflexivity. }
  rewrite Hz.
  rewrite (well_formed_checks _ _ _ _ _ (example_well_formed i _ _ _ _ _ Hwv)).
  cbv beta iota.
  rewrite (to_dense_example i (Batch.size batch))
    by (rewrite ?length_map; congruence).
  cbn [linear map madd].
  rewrite nth_madd by (unfold linear; rewrite !length_map, !to_dense_length; reflexivity).
  rewrite !nth_linear by (rewrite to_dense_length; exact Hi). reflexivity.
Qed.

(** X16: the examples of a batch do not mix.  When the two index buffers
    of a batch name the same example for every entry, row [i] of a
    network's prediction for the batch is its prediction for example [i]
    alone, taken as a batch of one; this holds for all five networks. *)
Theorem forward_is_per_example :
  (forall (net : PerspectiveNet.t) (batch : Batch.t) (m : Matrix) (i : nat),
      rows_of (Batch.stm_indices batch) = rows_of (Batch.nstm_indices batch) ->
      (i < Batch.size batch)%nat ->
      PerspectiveNet.forward net batch = Some m ->
      PerspectiveNet.forward net (example_batch i batch) = Some [nth i m []]) /\
  (forall (net : SquaredPerspectiveNet.t) (batch : Batch.t) (m : Matrix) (i : nat),
      rows_of (Batch.stm_indices batch) = rows_of (Batch.nstm_indices batch) ->
      (i < Batch.size batch)%nat ->
      SquaredPerspectiveNet.forward net batch = Some m ->
      SquaredPerspectiveNet.forward net (example_batch i batch) = Some [nth i m []]) /\
  (forall (net : DeepPerspectiveNet.t) (batch : Batch.t) (m : Matrix) (i : nat),
      rows_of (Batch.stm_indices batch) = rows_of (Batch.nstm_indices batch) ->
      (i < Batch.size batch)%nat ->
      DeepPerspectiveNet.forward net batch = Some m ->
      DeepPerspectiveNet.forward net (example_batch i batch) = Some [nth i m []]) /\
  (forall (net : HalfKPNet.t) (batch : Batch.t) (m : Matrix) (i : nat),
      rows_of (Batch.stm_indices batch) = rows_of (Batch.nstm_indices batch) ->
      (i < Batch.size batch)%nat ->
      HalfKPNet.forward net batch = Some m ->
      HalfKPNet.forward net (example_batch i batch) = Some [nth i m []]) /\
  (forall (net : HalfKANet.t) (batch : Batch.t) (m : Matrix) (i : nat),
      rows_of (Batch.stm_indices batch) = rows_of (Batch.nstm_indices batch) ->
      (i < Batch.size batch)%nat ->
      HalfKANet.forward net batch = Some m ->
      HalfKANet.forward net (example_batch i batch) = Some [nth i m []]).
Proof.
  assert (Hvals : forall i batch,
             rows_of (Batch.stm_indices batch) = rows_of (Batch.nstm_indices batch) ->
             Batch.values (example_batch i batch)
             = sel (Z.of_nat i) (rows_of (Batch.nstm_indices batch)) (Batch.values batch)).
  { intros i batch Hrows. rewrite <- Hrows. reflexivity. }
  split; [|split; [|split; [|split]]].
  - intros net batch m i Hrows Hi. unfold PerspectiveNet.forward.
    change (Batch.stm_indices (example_batch i batch))
      with (example_indices i (Batch.stm_indices batch)).
    change (Batch.nstm_indices (example_batch i batch))
      with (example_indices i (Batch.nstm_indices batch)).
    destruct (perspective_pov _ (Batch.stm_indices batch) batch) as [stm|] eqn:Es;
      [|discriminate].
    destruct (perspective_pov _ (Batch.nstm_indices batch) batch) as [nstm|] eqn:En;
      [|discriminate].
    intros [= <-].
    rewrite (perspective_pov_example _ _ _ (example_batch i batch) i _ Es Hi eq_refl
               eq_refl).
    rewrite (perspective_pov_example _ _ _ (example_batch i batch) i _ En Hi eq_refl
               (Hvals i batch Hrows)).
    apply perspective_pov_length in Es, En.
    cbn [cat_dim1 mmap map linear]. f_equal. f_equal.
    rewrite nth_mmap, nth_linear by (unfold mmap; rewrite length_map, cat_dim1_length; lia).
    rewrite nth_mmap, nth_cat_dim1 by congruence. reflexivity.
  - intros net batch m i Hrows Hi. unfold SquaredPerspectiveNet.forward.
    change (Batch.stm_indices (example_batch i batch))
      with (example_indices i (Batch.stm_indices batch)).
    change (Batch.nstm_indices (example_batch i batch))
      with (example_indices i (Batch.nstm_indices batch)).
    destruct (perspective_pov _ (Batch.stm_indices batch) batch) as [stm|] eqn:Es;
      [|discriminate].
    destruct (perspective_pov _ (Batch.nstm_indices batch) batch) as [nstm|] eqn:En;
      [|discriminate].
    intros [= <-].
    rewrite (perspective_pov_example _ _ _ (example_batch i batch) i _ Es Hi eq_refl
               eq_refl).
    rewrite (perspective_pov_example _ _ _ (example_batch i batch) i _ En Hi eq_refl
               (Hvals i batch Hrows)).
    apply perspective_pov_length in Es, En.
    cbn [cat_dim1 mmap map linear]. f_equal. f_equal.
    rewrite nth_mmap, nth_linear
      by (unfold mmap; rewrite !length_map, cat_dim1_length; lia).
    rewrite !nth_mmap, nth_cat_dim1 by congruence. reflexivity.
  - intros net batch m i Hrows Hi. unfold DeepPerspectiveNet.forward.
    change (Batch.stm_indices (example_batch i batch))
      with (example_indices i (Batch.stm_indices batch)).
    change (Batch.nstm_indices (example_batch i batch))
      with (example_indices i (Batch.nstm_indices batch)).
    destruct (perspective_pov _ (Batch.stm_indices batch) batch) as [stm|] eqn:Es;
      [|discriminate].
    destruct (perspective_pov _ (Batch.nstm_indices batch) batch) as [nstm|] eqn:En;
      [|discriminate].
    intros [= <-].
    rewrite (perspective_pov_example _ _ _ (example_batch i batch) i _ Es Hi eq_refl
               eq_refl).
    rewrite (perspective_pov_example _ _ _ (example_batch i batch) i _ En Hi eq_refl
               (Hvals i batch Hrows)).
    apply perspective_pov_length in Es, En.
    cbn [cat_dim1 mmap map linear]. f_equal. f_equal.
    rewrite nth_mmap, nth_linear
      by (unfold mmap, linear; rewrite !length_map, cat_dim1_length; lia).
    rewrite nth_mmap, nth_linear
      by (unfold mmap; rewrite !length_map, cat_dim1_length; lia).
    rewrite !nth_mmap, nth_cat_dim1 by congruence. reflexivity.
  - intros net batch m i Hrows Hi. unfold HalfKPNet.forward, clipped_head.
    change (Batch.stm_indices (example_batch i batch))
      with (example_indices i (Batch.stm_indices batch)).
    change (Batch.nstm_indices (example_batch i batch))
      with (example_indices i (Batch.nstm_indices batch)).
    destruct (factorised_ft _ _ _ _ (Batch.stm_indices batch) batch) as [stm|] eqn:Es;
      [|discriminate].
    destruct (factorised_ft _ _ _ _ (Batch.nstm_indices batch) batch) as [nstm|] eqn:En;
      [|discriminate].
    intros [= <-].
    rewrite (factorised_ft_example _ _ _ _ _ _ (example_batch i batch) i _ Es Hi eq_refl
               eq_refl).
    rewrite (factorised_ft_example _ _ _ _ _ _ (example_batch i batch) i _ En Hi eq_refl
               (Hvals i batch Hrows)).
    apply factorised_ft_length in Es, En.
    cbn [cat_dim1 mmap map linear]. f_equal. f_equal.
    rewrite nth_mmap, nth_linear by (unfold mmap; rewrite length_map, cat_dim1_length; lia).
    rewrite nth_mmap, nth_cat_dim1 by congruence. reflexivity.
  - intros net batch m i Hrows Hi. unfold HalfKANet.forward, clipped_head.
    change (Batch.stm_indices (example_batch i batch))
      with (example_indices i (Batch.stm_indices batch)).
    change (Batch.nstm_indices (example_batch i batch))
      with (example_indices i (Batch.nstm_indices batch)).
    destruct (factorised_ft _ _ _ _ (Batch.stm_indices batch) batch) as [stm|] eqn:Es;
      [|discriminate].
    destruct (factorised_ft _ _ _ _ (Batch.nstm_indices batch) batch) as [nstm|] eqn:En;
      [|discriminate].
    intros [= <-].
    rewrite (factorised_ft_example _ _ _ _ _ _ (example_batch i batch) i _ Es Hi eq_refl
               eq_refl).
    rewrite (factorised_ft_example _ _ _ _ _ _ (example_batch i batch) i _ En Hi eq_refl
               (Hvals i batch Hrows)).
    apply factorised_ft_length in Es, En.
    cbn [cat_dim1 mmap map linear]. f_equal. f_equal.
    rewrite nth_mmap, nth_linear by (unfold mmap; rewrite length_map, cat_dim1_length; lia).
    rewrite nth_mmap, nth_cat_dim1 by congruence. reflexivity.
Qed.

Lemma two_example_batch_accepted (perspective : Linear) (idx : list Z) :
  idx = Batch.stm_indices two_example_batch \/ idx = Batch.nstm_indices two_example_batch ->
  perspective_pov perspective idx two_example_batch <> None.
Proof.
  intros H. apply perspective_pov_accepts.
  destruct H as [-> | ->]; eexists; eexists; (split; [reflexivity|]);
    (split; [reflexivity|]); (split; [reflexivity|]);
    split; repeat constructor; cbn; lia.
Qed.

Lemma forward_is_per_example_witness :
  exists m,
    PerspectiveNet.forward (PerspectiveNet.mk sample_perspective first_of_four_out)
      two_example_batch = Some m /\
    PerspectiveNet.forward (PerspectiveNet.mk sample_perspective first_of_four_out)
      (example_batch 1 two_example_batch) = Some [nth 1 m []].
Proof.
  destruct (PerspectiveNet.forward (PerspectiveNet.mk sample_perspective first_of_four_out)
              two_example_batch) as [m|] eqn:Hm.
  - exists m. split; [reflexivity|].
    apply (proj1 forward_is_per_example
             (PerspectiveNet.mk sample_perspective first_of_four_out)
             two_example_batch m 1%nat); [reflexivity|cbn; lia|exact Hm].
  - exfalso. unfold PerspectiveNet.forward in Hm.
    pose proof (two_example_batch_accepted sample_perspective _ (or_introl eq_refl)) as H1.
    pose proof (two_example_batch_accepted sample_perspective _ (or_intror eq_refl)) as H2.
    cbn [PerspectiveNet.perspective] in Hm.
    destruct (perspective_pov sample_perspective (Batch.stm_indices two_example_batch) _);
      [|contradiction].
    destruct (perspective_pov sample_perspective (Batch.nstm_indices two_example_batch) _);
      [|contradiction].
    discriminate.
Defined.
